(** * Blur & Grain editor: a model of [script.js] and its properties

    The editor is a single-page script.  Its module-level variables, the
    parts of the page it reads and writes, and the asynchronous work the
    browser is doing on its behalf are collected in one [State]; every
    event handler and every callback of the script is a function on that
    state.  Canvas calls are recorded as a list of operations per handler
    run, and the grain loop is modelled on the byte buffer of an
    [ImageData].

    Numbers: slider values, canvas sizes and pixel bytes are integers ([Z]).
    The two places where the script leaves the integers are the height of a
    down-scaled image and the grain noise.  Their values are rationals ([Q]),
    and [round_double] rounds the exact result of an operation to binary64
    as the script's numbers are rounded.  The height of a down-scaled image
    is computed that way, and so is the grain loop of [Binary64]; the grain
    loop is also given with exact arithmetic, its noise being the rational
    that the expression of the script denotes. *)

From Stdlib Require Import ZArith QArith Qround Qabs Qpower Bool List String.
From Stdlib Require Import Ascii Lia Lqa.
From stdpp Require Import base list.
Import ListNotations.
Local Open Scope Z_scope.

(** ** Browser objects *)

(** A [File] as delivered by the file input or a drop. *)
Record File := mkFile { file_name : string; file_type : string }.

(** A decoded [HTMLImageElement] built by [handleFile]; [img_width] and
    [img_height] are its natural size. *)
Record Image := mkImage { img_file : File; img_width : Z; img_height : Z }.

(** The [Image] element that [removeBackground] creates from the response
    to request number [cut_req], which was sent with file [cut_file]. *)
Record Cutout := mkCutout { cut_req : nat; cut_file : File }.

Inductive Surface := MainCanvas | Offscreen.

Inductive Drawable :=
| SrcImage (i : Image)
| SrcCutout (c : Cutout)
| SrcOffscreen.

Inductive Filter := FilterNone | FilterBlur (px : Z).

(** Calls made on the two 2D contexts.  [DrawImage5] is
    [drawImage(src, dx, dy, dw, dh)], [DrawImage9] is
    [drawImage(src, sx, sy, sw, sh, dx, dy, dw, dh)] (the source rectangle
    is in the coordinates of the source's natural size), [DrawImage3] is
    [drawImage(src, dx, dy)].  [DrawFirst] is the draw of the load handler,
    whose height has not been truncated yet.  [Grain] stands for a call of
    [generateGrain] on the whole canvas.  A frame lists the calls in the
    order they are made, whether or not they paint anything: the last call
    of a frame can be one that throws. *)
Inductive CanvasOp :=
| Resize (t : Surface) (w h : Z)
| ClearRect (t : Surface) (x y w h : Z)
| SetFilter (t : Surface) (f : Filter)
| DrawImage3 (t : Surface) (src : Drawable) (dx dy : Z)
| DrawImage5 (t : Surface) (src : Drawable) (dx dy dw dh : Z)
| DrawImage9 (t : Surface) (src : Drawable) (sx sy sw sh dx dy dw dh : Z)
| DrawFirst (src : Drawable) (dw : Z) (dh : Q)
| Grain (w h intensity : Z).

Definition Frame := list CanvasOp.

(** How a [fetch] of the removal endpoint can end: the body arrives, the
    status is not ok, the network call rejects, or reading the body
    rejects. *)
Inductive FetchOutcome := ResponseOk | ResponseNotOk | NetworkError | BodyError.

(** How a call of a function of the script ends: it returns, or an exception
    leaves it.  Nothing in the script catches the exceptions of the canvas,
    so the listener that made the call ends there; what it had changed
    stays changed. *)
Inductive Completion := Returns | Throws.

(** ** The state of the page and of the script *)

Record State := mkState {
  (* module variables of script.js *)
  originalImage : option Image;
  maskImage : option Cutout;
  fileName : string;
  isProcessing : bool;
  currentFile : option File;
  (* the page *)
  blurValue : Z;
  grainValue : Z;
  blurDisabled : bool;
  grainDisabled : bool;
  downloadDisabled : bool;
  loadingHidden : bool;
  canvasWidth : Z;
  canvasHeight : Z;
  canvasShown : bool;
  placeholderShown : bool;
  (* what the user has been shown, newest first *)
  alerts : list string;
  frames : list Frame;
  downloads : list string;
  (* work the browser has not finished yet *)
  decoding : list File;
  inFlight : list (nat * File);
  maskDecoding : list nat;
  nextRequest : nat;
  (* the cutout images, by request number, whose data could not be decoded *)
  maskBroken : list nat
}.

Definition set_originalImage (v : option Image) (s : State) : State :=
  mkState v (maskImage s) (fileName s) (isProcessing s) (currentFile s)
    (blurValue s) (grainValue s) (blurDisabled s) (grainDisabled s)
    (downloadDisabled s) (loadingHidden s) (canvasWidth s) (canvasHeight s)
    (canvasShown s) (placeholderShown s) (alerts s) (frames s) (downloads s)
    (decoding s) (inFlight s) (maskDecoding s) (nextRequest s) (maskBroken s).

Definition set_maskImage (v : option Cutout) (s : State) : State :=
  mkState (originalImage s) v (fileName s) (isProcessing s) (currentFile s)
    (blurValue s) (grainValue s) (blurDisabled s) (grainDisabled s)
    (downloadDisabled s) (loadingHidden s) (canvasWidth s) (canvasHeight s)
    (canvasShown s) (placeholderShown s) (alerts s) (frames s) (downloads s)
    (decoding s) (inFlight s) (maskDecoding s) (nextRequest s) (maskBroken s).

Definition set_fileName (v : string) (s : State) : State :=
  mkState (originalImage s) (maskImage s) v (isProcessing s) (currentFile s)
    (blurValue s) (grainValue s) (blurDisabled s) (grainDisabled s)
    (downloadDisabled s) (loadingHidden s) (canvasWidth s) (canvasHeight s)
    (canvasShown s) (placeholderShown s) (alerts s) (frames s) (downloads s)
    (decoding s) (inFlight s) (maskDecoding s) (nextRequest s) (maskBroken s).

Definition set_isProcessing (v : bool) (s : State) : State :=
  mkState (originalImage s) (maskImage s) (fileName s) v (currentFile s)
    (blurValue s) (grainValue s) (blurDisabled s) (grainDisabled s)
    (downloadDisabled s) (loadingHidden s) (canvasWidth s) (canvasHeight s)
    (canvasShown s) (placeholderShown s) (alerts s) (frames s) (downloads s)
    (decoding s) (inFlight s) (maskDecoding s) (nextRequest s) (maskBroken s).

Definition set_currentFile (v : option File) (s : State) : State :=
  mkState (originalImage s) (maskImage s) (fileName s) (isProcessing s) v
    (blurValue s) (grainValue s) (blurDisabled s) (grainDisabled s)
    (downloadDisabled s) (loadingHidden s) (canvasWidth s) (canvasHeight s)
    (canvasShown s) (placeholderShown s) (alerts s) (frames s) (downloads s)
    (decoding s) (inFlight s) (maskDecoding s) (nextRequest s) (maskBroken s).

Definition set_blurValue (v : Z) (s : State) : State :=
  mkState (originalImage s) (maskImage s) (fileName s) (isProcessing s)
    (currentFile s) v (grainValue s) (blurDisabled s) (grainDisabled s)
    (downloadDisabled s) (loadingHidden s) (canvasWidth s) (canvasHeight s)
    (canvasShown s) (placeholderShown s) (alerts s) (frames s) (downloads s)
    (decoding s) (inFlight s) (maskDecoding s) (nextRequest s) (maskBroken s).

Definition set_grainValue (v : Z) (s : State) : State :=
  mkState (originalImage s) (maskImage s) (fileName s) (isProcessing s)
    (currentFile s) (blurValue s) v (blurDisabled s) (grainDisabled s)
    (downloadDisabled s) (loadingHidden s) (canvasWidth s) (canvasHeight s)
    (canvasShown s) (placeholderShown s) (alerts s) (frames s) (downloads s)
    (decoding s) (inFlight s) (maskDecoding s) (nextRequest s) (maskBroken s).

Definition set_blurDisabled (v : bool) (s : State) : State :=
  mkState (originalImage s) (maskImage s) (fileName s) (isProcessing s)
    (currentFile s) (blurValue s) (grainValue s) v (grainDisabled s)
    (downloadDisabled s) (loadingHidden s) (canvasWidth s) (canvasHeight s)
    (canvasShown s) (placeholderShown s) (alerts s) (frames s) (downloads s)
    (decoding s) (inFlight s) (maskDecoding s) (nextRequest s) (maskBroken s).

Definition set_grainDisabled (v : bool) (s : State) : State :=
  mkState (originalImage s) (maskImage s) (fileName s) (isProcessing s)
    (currentFile s) (blurValue s) (grainValue s) (blurDisabled s) v
    (downloadDisabled s) (loadingHidden s) (canvasWidth s) (canvasHeight s)
    (canvasShown s) (placeholderShown s) (alerts s) (frames s) (downloads s)
    (decoding s) (inFlight s) (maskDecoding s) (nextRequest s) (maskBroken s).

Definition set_downloadDisabled (v : bool) (s : State) : State :=
  mkState (originalImage s) (maskImage s) (fileName s) (isProcessing s)
    (currentFile s) (blurValue s) (grainValue s) (blurDisabled s)
    (grainDisabled s) v (loadingHidden s) (canvasWidth s) (canvasHeight s)
    (canvasShown s) (placeholderShown s) (alerts s) (frames s) (downloads s)
    (decoding s) (inFlight s) (maskDecoding s) (nextRequest s) (maskBroken s).

Definition set_loadingHidden (v : bool) (s : State) : State :=
  mkState (originalImage s) (maskImage s) (fileName s) (isProcessing s)
    (currentFile s) (blurValue s) (grainValue s) (blurDisabled s)
    (grainDisabled s) (downloadDisabled s) v (canvasWidth s) (canvasHeight s)
    (canvasShown s) (placeholderShown s) (alerts s) (frames s) (downloads s)
    (decoding s) (inFlight s) (maskDecoding s) (nextRequest s) (maskBroken s).

Definition set_canvasWidth (v : Z) (s : State) : State :=
  mkState (originalImage s) (maskImage s) (fileName s) (isProcessing s)
    (currentFile s) (blurValue s) (grainValue s) (blurDisabled s)
    (grainDisabled s) (downloadDisabled s) (loadingHidden s) v
    (canvasHeight s) (canvasShown s) (placeholderShown s) (alerts s)
    (frames s) (downloads s) (decoding s) (inFlight s) (maskDecoding s)
    (nextRequest s) (maskBroken s).

Definition set_canvasHeight (v : Z) (s : State) : State :=
  mkState (originalImage s) (maskImage s) (fileName s) (isProcessing s)
    (currentFile s) (blurValue s) (grainValue s) (blurDisabled s)
    (grainDisabled s) (downloadDisabled s) (loadingHidden s) (canvasWidth s) v
    (canvasShown s) (placeholderShown s) (alerts s) (frames s) (downloads s)
    (decoding s) (inFlight s) (maskDecoding s) (nextRequest s) (maskBroken s).

Definition set_canvasShown (v : bool) (s : State) : State :=
  mkState (originalImage s) (maskImage s) (fileName s) (isProcessing s)
    (currentFile s) (blurValue s) (grainValue s) (blurDisabled s)
    (grainDisabled s) (downloadDisabled s) (loadingHidden s) (canvasWidth s)
    (canvasHeight s) v (placeholderShown s) (alerts s) (frames s)
    (downloads s) (decoding s) (inFlight s) (maskDecoding s) (nextRequest s)
    (maskBroken s).

Definition set_placeholderShown (v : bool) (s : State) : State :=
  mkState (originalImage s) (maskImage s) (fileName s) (isProcessing s)
    (currentFile s) (blurValue s) (grainValue s) (blurDisabled s)
    (grainDisabled s) (downloadDisabled s) (loadingHidden s) (canvasWidth s)
    (canvasHeight s) (canvasShown s) v (alerts s) (frames s) (downloads s)
    (decoding s) (inFlight s) (maskDecoding s) (nextRequest s) (maskBroken s).

Definition set_alerts (v : list string) (s : State) : State :=
  mkState (originalImage s) (maskImage s) (fileName s) (isProcessing s)
    (currentFile s) (blurValue s) (grainValue s) (blurDisabled s)
    (grainDisabled s) (downloadDisabled s) (loadingHidden s) (canvasWidth s)
    (canvasHeight s) (canvasShown s) (placeholderShown s) v (frames s)
    (downloads s) (decoding s) (inFlight s) (maskDecoding s) (nextRequest s)
    (maskBroken s).

Definition set_frames (v : list Frame) (s : State) : State :=
  mkState (originalImage s) (maskImage s) (fileName s) (isProcessing s)
    (currentFile s) (blurValue s) (grainValue s) (blurDisabled s)
    (grainDisabled s) (downloadDisabled s) (loadingHidden s) (canvasWidth s)
    (canvasHeight s) (canvasShown s) (placeholderShown s) (alerts s) v
    (downloads s) (decoding s) (inFlight s) (maskDecoding s) (nextRequest s)
    (maskBroken s).

Definition set_downloads (v : list string) (s : State) : State :=
  mkState (originalImage s) (maskImage s) (fileName s) (isProcessing s)
    (currentFile s) (blurValue s) (grainValue s) (blurDisabled s)
    (grainDisabled s) (downloadDisabled s) (loadingHidden s) (canvasWidth s)
    (canvasHeight s) (canvasShown s) (placeholderShown s) (alerts s)
    (frames s) v (decoding s) (inFlight s) (maskDecoding s) (nextRequest s)
    (maskBroken s).

Definition set_decoding (v : list File) (s : State) : State :=
  mkState (originalImage s) (maskImage s) (fileName s) (isProcessing s)
    (currentFile s) (blurValue s) (grainValue s) (blurDisabled s)
    (grainDisabled s) (downloadDisabled s) (loadingHidden s) (canvasWidth s)
    (canvasHeight s) (canvasShown s) (placeholderShown s) (alerts s)
    (frames s) (downloads s) v (inFlight s) (maskDecoding s) (nextRequest s)
    (maskBroken s).

Definition set_inFlight (v : list (nat * File)) (s : State) : State :=
  mkState (originalImage s) (maskImage s) (fileName s) (isProcessing s)
    (currentFile s) (blurValue s) (grainValue s) (blurDisabled s)
    (grainDisabled s) (downloadDisabled s) (loadingHidden s) (canvasWidth s)
    (canvasHeight s) (canvasShown s) (placeholderShown s) (alerts s)
    (frames s) (downloads s) (decoding s) v (maskDecoding s) (nextRequest s)
    (maskBroken s).

Definition set_maskDecoding (v : list nat) (s : State) : State :=
  mkState (originalImage s) (maskImage s) (fileName s) (isProcessing s)
    (currentFile s) (blurValue s) (grainValue s) (blurDisabled s)
    (grainDisabled s) (downloadDisabled s) (loadingHidden s) (canvasWidth s)
    (canvasHeight s) (canvasShown s) (placeholderShown s) (alerts s)
    (frames s) (downloads s) (decoding s) (inFlight s) v (nextRequest s)
    (maskBroken s).

Definition set_nextRequest (v : nat) (s : State) : State :=
  mkState (originalImage s) (maskImage s) (fileName s) (isProcessing s)
    (currentFile s) (blurValue s) (grainValue s) (blurDisabled s)
    (grainDisabled s) (downloadDisabled s) (loadingHidden s) (canvasWidth s)
    (canvasHeight s) (canvasShown s) (placeholderShown s) (alerts s)
    (frames s) (downloads s) (decoding s) (inFlight s) (maskDecoding s) v
    (maskBroken s).

Definition set_maskBroken (v : list nat) (s : State) : State :=
  mkState (originalImage s) (maskImage s) (fileName s) (isProcessing s)
    (currentFile s) (blurValue s) (grainValue s) (blurDisabled s)
    (grainDisabled s) (downloadDisabled s) (loadingHidden s) (canvasWidth s)
    (canvasHeight s) (canvasShown s) (placeholderShown s) (alerts s)
    (frames s) (downloads s) (decoding s) (inFlight s) (maskDecoding s)
    (nextRequest s) v.

(** ** Numbers *)

(** The integer nearest to a rational, a tie going to the even one. *)
Definition round_half_even (q : Q) : Z :=
  let f := Qfloor q in
  match (q - inject_Z f ?= 1 # 2)%Q with
  | Lt => f
  | Gt => f + 1
  | Eq => if Z.even f then f else f + 1
  end.

(** The exponent of a positive rational: the [e] with
    [2^e <= q < 2^(e+1)].  The difference of the bit lengths of numerator
    and denominator is [e] or [e + 1]. *)
Definition binade (q : Q) : Z :=
  let e := Z.log2 (Qnum q) - Z.log2 (Zpos (Qden q)) in
  if Qle_bool (2 ^ e) q then e else e - 1.

(** A positive rational rounded to 53 significant bits, a tie going to the
    even significand. *)
Definition round_pos (q : Q) : Q :=
  let ulp := (2 ^ (binade q - 52))%Q in
  Qred (inject_Z (round_half_even (q / ulp)) * ulp).

(** The binary64 number that an arithmetic operation of the script returns
    when its exact result is [q] (round to nearest, ties to even).  The
    exponent is not bounded: this is binary64 for 0 and for results of
    magnitude from 2^-1022 up to the largest binary64 number, which covers
    what the script computes from image sizes, slider values, bytes and
    draws in [0,1). *)
Definition round_double (q : Q) : Q :=
  match (q ?= 0)%Q with
  | Eq => 0%Q
  | Gt => round_pos q
  | Lt => (- round_pos (- q))%Q
  end.

(** The largest relative error of a rounding, [2^-53]. *)
Definition half_ulp_ratio : Q := 1 # 9007199254740992.

(** The integers up to this bound are binary64 numbers
    ([Number.MAX_SAFE_INTEGER]). *)
Definition MAX_SAFE_INTEGER : Z := 2 ^ 53 - 1.

(** ** Helpers of the page *)

Definition MAX_IMAGE_WIDTH : Z := 1920.

(** [file.name.split('.')[0]]: the name up to its first dot. *)
Fixpoint before_dot (s : string) : string :=
  match s with
  | EmptyString => EmptyString
  | String c rest =>
      if Ascii.eqb c "."%char then EmptyString else String c (before_dot rest)
  end.

Definition file_eqb (a b : File) : bool :=
  String.eqb (file_name a) (file_name b)
  && String.eqb (file_type a) (file_type b).

Fixpoint remove_file (f : File) (l : list File) : list File :=
  match l with
  | [] => []
  | g :: rest => if file_eqb f g then rest else g :: remove_file f rest
  end.

Definition request_file (req : nat) (l : list (nat * File)) : option File :=
  match List.find (fun p => Nat.eqb (fst p) req) l with
  | Some p => Some (snd p)
  | None => None
  end.

Definition drop_request (req : nat) (l : list (nat * File)) : list (nat * File) :=
  List.filter (fun p => negb (Nat.eqb (fst p) req)) l.

Definition drop_nat (n : nat) (l : list nat) : list nat :=
  List.filter (fun m => negb (Nat.eqb m n)) l.

(** What a canvas keeps of a number assigned to its [height]: the
    integer part. *)
Definition truncate (q : Q) : Z :=
  if Qle_bool 0 q then Qfloor q else Qceiling q.

(** Truthiness of a variable that holds an object or [null]. *)
Definition present {A : Type} (o : option A) : bool :=
  match o with Some _ => true | None => false end.

Definition alert (msg : string) (s : State) : State :=
  set_alerts (msg :: alerts s) s.

Definition push_frame (f : Frame) (s : State) : State :=
  set_frames (f :: frames s) s.

(** ** The functions of script.js *)

Definition setLoading (isLoading : bool) (s : State) : State :=
  set_downloadDisabled isLoading
    (set_grainDisabled isLoading
       (set_blurDisabled isLoading
          (set_loadingHidden (negb isLoading) s))).

Definition enableControls (s : State) : State :=
  set_downloadDisabled false
    (set_grainDisabled false (set_blurDisabled false s)).

(** The part of [handleFile] that runs when the event is handled; it ends by
    assigning [img.src], which starts the decoding of the file. *)
Definition handleFile (file : File) (s : State) : State :=
  if negb (String.prefix "image/" (file_type file))
  then alert "Please upload an image file" s
  else
    let s := set_currentFile (Some file) s in
    let s := set_fileName
               (String.append (before_dot (file_name file)) "_edited.png") s in
    let s := set_maskImage None s in
    let s := set_isProcessing false s in
    set_decoding (decoding s ++ [file]) s.

(** Display size chosen by the load handler for natural size [w0] x [h0]:
    the width, and the height [(MAX_IMAGE_WIDTH / w) * h] before the canvas
    truncates it. *)
Definition display_size (w0 h0 : Z) : Z * Q :=
  if MAX_IMAGE_WIDTH <? w0
  then (MAX_IMAGE_WIDTH,
        round_double
          (round_double (inject_Z MAX_IMAGE_WIDTH / inject_Z w0)
           * inject_Z h0))
  else (w0, inject_Z h0).

(** [img.onload] of the image created by [handleFile]. *)
Definition img_onload (img : Image) (s : State) : State :=
  let s := set_originalImage (Some img) s in
  let '(w, h) := display_size (img_width img) (img_height img) in
  let s := set_canvasWidth w s in
  let s := set_canvasHeight (truncate h) s in
  let s := push_frame [Resize MainCanvas w (truncate h);
                       DrawFirst (SrcImage img) w h] s in
  let s := set_canvasShown true s in
  let s := set_placeholderShown false s in
  let s := enableControls s in
  let s := set_blurValue 0 s in
  set_grainValue 0 s.

(** Step 1 of [render] when a cutout is present and the blur is positive:
    the padded, edge-clamped, blurred background. *)
Definition blurredBackground (img : Image) (blurAmount w h : Z) : list CanvasOp :=
  let pad := Z.min (blurAmount * 3) 100 in
  let src := SrcImage img in
  [ Resize Offscreen (w + pad * 2) (h + pad * 2);
    DrawImage5 Offscreen src pad pad w h;
    DrawImage9 Offscreen src 0 0 w 1 pad 0 w pad;
    DrawImage9 Offscreen src 0 (h - 1) w 1 pad (h + pad) w pad;
    DrawImage9 Offscreen src 0 0 1 h 0 pad pad h;
    DrawImage9 Offscreen src (w - 1) 0 1 h (w + pad) pad pad h;
    DrawImage9 Offscreen src 0 0 1 1 0 0 pad pad;
    DrawImage9 Offscreen src (w - 1) 0 1 1 (w + pad) 0 pad pad;
    DrawImage9 Offscreen src 0 (h - 1) 1 1 0 (h + pad) pad pad;
    DrawImage9 Offscreen src (w - 1) (h - 1) 1 1 (w + pad) (h + pad) pad pad;
    SetFilter MainCanvas (FilterBlur blurAmount);
    DrawImage3 MainCanvas SrcOffscreen (- pad) (- pad);
    SetFilter MainCanvas FilterNone ].

(** Step 1 of [render]: the background layer. *)
Definition drawBackground (img : Image) (mask : option Cutout)
    (blurAmount w h : Z) : list CanvasOp :=
  match mask with
  | Some _ =>
      if 0 <? blurAmount then blurredBackground img blurAmount w h
      else [DrawImage5 MainCanvas (SrcImage img) 0 0 w h]
  | None => [DrawImage5 MainCanvas (SrcImage img) 0 0 w h]
  end.

(** Step 2 of [render]: the cutout on top. *)
Definition drawForeground (mask : option Cutout) (w h : Z) : list CanvasOp :=
  match mask with
  | Some c => [DrawImage5 MainCanvas (SrcCutout c) 0 0 w h]
  | None => []
  end.

(** Step 3 of [render]: the grain pass. *)
Definition drawGrain (grainAmount w h : Z) : list CanvasOp :=
  if 0 <? grainAmount then [Grain w h grainAmount] else [].

Definition render_ops (img : Image) (mask : option Cutout)
    (blurAmount grainAmount w h : Z) : Frame :=
  ClearRect MainCanvas 0 0 w h
  :: drawBackground img mask blurAmount w h
  ++ drawForeground mask w h
  ++ drawGrain grainAmount w h.

(** [drawImage] of an image element whose data could not be decoded (the
    element is in the broken state) throws an InvalidStateError; an element
    that is still loading is skipped without an error. *)
Definition drawImage_throws (mask : option Cutout) (broken : list nat) : bool :=
  match mask with
  | Some c => List.existsb (Nat.eqb (cut_req c)) broken
  | None => false
  end.

(** [getImageData(0, 0, w, h)], the first statement of [generateGrain],
    throws an IndexSizeError when the rectangle has no width or no height. *)
Definition getImageData_throws (w h : Z) : bool := (w =? 0) || (h =? 0).

(** The calls of a render that ends at the draw of a broken cutout. *)
Definition render_ops_to_cutout (img : Image) (mask : option Cutout)
    (blurAmount w h : Z) : Frame :=
  ClearRect MainCanvas 0 0 w h
  :: drawBackground img mask blurAmount w h
  ++ drawForeground mask w h.

(** [render]: the state it leaves and how it ends.  It throws at the draw
    of a broken cutout, and in [generateGrain] when the canvas has no
    area. *)
Definition render (s : State) : State * Completion :=
  match originalImage s with
  | None => (s, Returns)
  | Some img =>
      let w := canvasWidth s in
      let h := canvasHeight s in
      if drawImage_throws (maskImage s) (maskBroken s)
      then (push_frame
              (render_ops_to_cutout img (maskImage s) (blurValue s) w h) s,
            Throws)
      else
        (push_frame
           (render_ops img (maskImage s) (blurValue s) (grainValue s) w h) s,
         if (0 <? grainValue s) && getImageData_throws w h
         then Throws else Returns)
  end.

(** [removeBackground] up to its first [await]: the guard, the flag, the
    locked controls and the [fetch], which gets the next request number. *)
Definition removeBackground (file : File) (s : State) : State :=
  if isProcessing s then s
  else
    let s := set_isProcessing true s in
    let s := setLoading true s in
    let s := set_inFlight (inFlight s ++ [(nextRequest s, file)]) s in
    set_nextRequest (S (nextRequest s)) s.

Definition failure_notice : string :=
  "Failed to process background. Check API key or connection.".

(** The rest of [removeBackground], run when the [fetch] of request [req]
    has settled: either the cutout image is created (a new element, which
    is not broken) and starts decoding, or the [catch] block runs. *)
Definition removeBackground_settled (req : nat) (file : File)
    (o : FetchOutcome) (s : State) : State :=
  match o with
  | ResponseOk =>
      let s := set_maskImage (Some (mkCutout req file)) s in
      let s := set_maskBroken (drop_nat req (maskBroken s)) s in
      set_maskDecoding (maskDecoding s ++ [req]) s
  | _ =>
      let s := alert failure_notice s in
      let s := set_isProcessing false s in
      setLoading false s
  end.

(** [maskImage.onload]; the call of [render] is its last statement. *)
Definition mask_onload (s : State) : State :=
  let s := set_isProcessing false s in
  let s := setLoading false s in
  fst (render s).

(** The listener of the blur slider; the browser has stored the new value
    [v] before it runs.  When [render] throws, the listener ends there and
    the test that would start a removal is not reached. *)
Definition on_blur_input (v : Z) (s : State) : State :=
  match render (set_blurValue v s) with
  | (s, Throws) => s
  | (s, Returns) =>
      match currentFile s with
      | Some file =>
          if (0 <? blurValue s) && negb (present (maskImage s))
             && negb (isProcessing s)
          then removeBackground file s
          else s
      | None => s
      end
  end.

(** The listener of the grain slider, which is [render] itself. *)
Definition on_grain_input (v : Z) (s : State) : State :=
  fst (render (set_grainValue v s)).

Definition downloadImage (s : State) : State :=
  set_downloads (fileName s :: downloads s) s.

(** ** Events

    What the browser can run next: the listeners installed by
    [setupEventListeners] (a file arriving through the file input or a drop,
    the two sliders, the download button) and the callbacks of asynchronous
    work in progress.  The drag listeners that only toggle a style class are
    left out.  The script sets no [onerror] on its images: when an image
    cannot be decoded ([EvImageError], [EvMaskError]) no code of the script
    runs, and a cutout image that failed is from then on broken. *)

Inductive Event :=
| EvSelectFile (f : File)
| EvImageLoaded (f : File) (w h : Z)
| EvImageError (f : File)
| EvBlurInput (v : Z)
| EvGrainInput (v : Z)
| EvDownloadClick
| EvFetchSettled (req : nat) (o : FetchOutcome)
| EvMaskLoaded (req : nat)
| EvMaskError (req : nat).

(** Modelled from the spec: the [max] attributes of the two range inputs
    are in index.html, which is not among the sources; the specification
    gives the ranges 0..15 for blur and 0..50 for grain. *)
Definition BLUR_MAX : Z := 15.
Definition GRAIN_MAX : Z := 50.

(** One event, if the browser can deliver it in state [s]: a disabled
    control fires nothing, a slider only takes values of its range, and a
    callback only runs for work that is in progress. *)
Definition step (s : State) (e : Event) : option State :=
  match e with
  | EvSelectFile f => Some (handleFile f s)
  | EvImageLoaded f w h =>
      if List.existsb (file_eqb f) (decoding s) && (0 <? w) && (0 <? h)
      then Some (img_onload (mkImage f w h)
                   (set_decoding (remove_file f (decoding s)) s))
      else None
  | EvImageError f =>
      if List.existsb (file_eqb f) (decoding s)
      then Some (set_decoding (remove_file f (decoding s)) s)
      else None
  | EvBlurInput v =>
      if negb (blurDisabled s) && (0 <=? v) && (v <=? BLUR_MAX)
      then Some (on_blur_input v s) else None
  | EvGrainInput v =>
      if negb (grainDisabled s) && (0 <=? v) && (v <=? GRAIN_MAX)
      then Some (on_grain_input v s) else None
  | EvDownloadClick =>
      if downloadDisabled s then None else Some (downloadImage s)
  | EvFetchSettled req o =>
      match request_file req (inFlight s) with
      | Some file =>
          Some (removeBackground_settled req file o
                  (set_inFlight (drop_request req (inFlight s)) s))
      | None => None
      end
  | EvMaskLoaded req =>
      if List.existsb (Nat.eqb req) (maskDecoding s)
      then Some (mask_onload
                   (set_maskDecoding (drop_nat req (maskDecoding s)) s))
      else None
  | EvMaskError req =>
      if List.existsb (Nat.eqb req) (maskDecoding s)
      then Some (set_maskBroken (req :: maskBroken s)
                   (set_maskDecoding (drop_nat req (maskDecoding s)) s))
      else None
  end.

Fixpoint run (evs : list Event) (s : State) : option State :=
  match evs with
  | [] => Some s
  | e :: rest =>
      match step s e with
      | Some s' => run rest s'
      | None => None
      end
  end.

(** Modelled from the spec: index.html is not among the sources.  The page
    starts with the placeholder shown, the canvas hidden, the loading overlay
    hidden, both sliders at 0 and the three controls disabled, as the tests
    in basic-functionality.spec.js expect of a fresh page; the canvas has
    the default size of a canvas element. *)
Definition initial : State :=
  {| originalImage := None; maskImage := None; fileName := "image.png";
     isProcessing := false; currentFile := None;
     blurValue := 0; grainValue := 0;
     blurDisabled := true; grainDisabled := true; downloadDisabled := true;
     loadingHidden := true; canvasWidth := 300; canvasHeight := 150;
     canvasShown := false; placeholderShown := true;
     alerts := []; frames := []; downloads := [];
     decoding := []; inFlight := []; maskDecoding := []; nextRequest := 0;
     maskBroken := [] |}.

Definition reachable (s : State) : Prop :=
  exists evs, run evs initial = Some s.

(** ** The grain loop

    The loop of [generateGrain] is given twice.  Here its arithmetic is
    exact: the strength, the noise and the sums are the rationals that the
    expressions of the script denote.  In [Binary64], below, every operation
    is rounded as the script rounds it. *)

(** What a [Uint8ClampedArray] stores when a number is assigned to one of
    its elements: the number clamped to 0..255 and rounded to the nearest
    integer, ties to even. *)
Definition toUint8Clamp (q : Q) : Z :=
  if Qle_bool q 0 then 0
  else if Qle_bool 255 q then 255
  else round_half_even q.

(** [data[i] = data[i] + noise].  Past the end of the array the read gives
    [undefined] and the write is dropped, so nothing changes. *)
Definition add_noise (i : nat) (noise : Q) (data : list Z) : list Z :=
  match data !! i with
  | Some x => <[i := toUint8Clamp (inject_Z x + noise)]> data
  | None => data
  end.

(** The [for] loop of [generateGrain] from index [i] on; [rand k] is the
    value of the [k]-th call of [Math.random()] and [fuel] bounds the number
    of iterations. *)
Fixpoint grain_loop (rand : nat -> Q) (strength : Q) (fuel k i : nat)
    (data : list Z) : list Z :=
  match fuel with
  | O => data
  | S fuel' =>
      if (i <? length data)%nat then
        let noise := ((rand k - (1 # 2)) * strength)%Q in
        let data := add_noise i noise data in
        let data := add_noise (i + 1) noise data in
        let data := add_noise (i + 2) noise data in
        grain_loop rand strength fuel' (S k) (i + 4) data
      else data
  end.

Definition grain_strength (intensity : Z) : Q :=
  (inject_Z intensity * (255 # 100))%Q.

(** [generateGrain] on the bytes of the [ImageData] it reads and writes
    back. *)
Definition generateGrain (rand : nat -> Q) (data : list Z) (intensity : Z)
    : list Z :=
  grain_loop rand (grain_strength intensity) (length data) 0 0 data.

(** Step 3 of [render] on the bytes of the canvas: the guarded call. *)
Definition applyGrain (rand : nat -> Q) (data : list Z) (grainAmount : Z)
    : list Z :=
  if 0 <? grainAmount then generateGrain rand data grainAmount else data.

(** The grain pass as the specification words it: pixel by pixel, one
    noise value per pixel added to red, green and blue, alpha kept. *)
Definition pixel_noise (rand : nat -> Q) (strength : Q) (k : nat) : Q :=
  ((rand k - (1 # 2)) * strength)%Q.

Fixpoint grain_pixels (rand : nat -> Q) (strength : Q) (k : nat)
    (data : list Z) : list Z :=
  let n := pixel_noise rand strength k in
  let ch x := toUint8Clamp (inject_Z x + n) in
  match data with
  | r :: g :: b :: a :: rest =>
      ch r :: ch g :: ch b :: a :: grain_pixels rand strength (S k) rest
  | partial => map ch partial
  end.

Definition is_byte (x : Z) : Prop := 0 <= x <= 255.

(** ** The grain loop in binary64

    The same loop with every arithmetic operation rounded as the numbers of
    the script are: the literal [2.55], the product [intensity * 2.55], the
    difference [Math.random() - 0.5], its product with the strength, and the
    sum [data[i] + noise] that is handed to the clamped array.  [rand k] is
    the value of the [k]-th call of [Math.random()]. *)

Module Binary64.

(** [intensity * 2.55]; [intensity] is the value of the slider, an integer
    that a binary64 number holds exactly. *)
Definition grain_strength (intensity : Z) : Q :=
  round_double (inject_Z intensity * round_double (255 # 100)).

(** [data[i] = data[i] + noise].  Past the end of the array the read gives
    [undefined] and the write is dropped, so nothing changes. *)
Definition add_noise (i : nat) (noise : Q) (data : list Z) : list Z :=
  match data !! i with
  | Some x => <[i := toUint8Clamp (round_double (inject_Z x + noise))]> data
  | None => data
  end.

(** The [for] loop of [generateGrain] from index [i] on. *)
Fixpoint grain_loop (rand : nat -> Q) (strength : Q) (fuel k i : nat)
    (data : list Z) : list Z :=
  match fuel with
  | O => data
  | S fuel' =>
      if (i <? length data)%nat then
        let noise :=
          round_double (round_double (rand k - (1 # 2)) * strength) in
        let data := add_noise i noise data in
        let data := add_noise (i + 1) noise data in
        let data := add_noise (i + 2) noise data in
        grain_loop rand strength fuel' (S k) (i + 4) data
      else data
  end.

(** [generateGrain] on the bytes of the [ImageData] it reads and writes
    back. *)
Definition generateGrain (rand : nat -> Q) (data : list Z) (intensity : Z)
    : list Z :=
  grain_loop rand (grain_strength intensity) (length data) 0 0 data.

(** Step 3 of [render] on the bytes of the canvas: the guarded call. *)
Definition applyGrain (rand : nat -> Q) (data : list Z) (grainAmount : Z)
    : list Z :=
  if 0 <? grainAmount then generateGrain rand data grainAmount else data.

(** The noise of pixel [k], and the pass as the specification words it:
    pixel by pixel, one noise value per pixel added to red, green and blue,
    alpha kept. *)
Definition pixel_noise (rand : nat -> Q) (strength : Q) (k : nat) : Q :=
  round_double (round_double (rand k - (1 # 2)) * strength).

Fixpoint grain_pixels (rand : nat -> Q) (strength : Q) (k : nat)
    (data : list Z) : list Z :=
  let n := pixel_noise rand strength k in
  let ch x := toUint8Clamp (round_double (inject_Z x + n)) in
  match data with
  | r :: g :: b :: a :: rest =>
      ch r :: ch g :: ch b :: a :: grain_pixels rand strength (S k) rest
  | partial => map ch partial
  end.

End Binary64.

(** ** Geometry of the draws *)

Record Rect := mkRect { rx : Z; ry : Z; rw : Z; rh : Z }.

Inductive Side := Top | Bottom | Left | Right.
Inductive Corner := TopLeft | TopRight | BottomLeft | BottomRight.

(** The outermost one-pixel strip of an image on a side, and its corner
    pixels, in the coordinates of the image. *)
Definition edge_strip (img : Image) (sd : Side) : Rect :=
  let iw := img_width img in
  let ih := img_height img in
  match sd with
  | Top => mkRect 0 0 iw 1
  | Bottom => mkRect 0 (ih - 1) iw 1
  | Left => mkRect 0 0 1 ih
  | Right => mkRect (iw - 1) 0 1 ih
  end.

Definition corner_pixel (img : Image) (c : Corner) : Rect :=
  let iw := img_width img in
  let ih := img_height img in
  match c with
  | TopLeft => mkRect 0 0 1 1
  | TopRight => mkRect (iw - 1) 0 1 1
  | BottomLeft => mkRect 0 (ih - 1) 1 1
  | BottomRight => mkRect (iw - 1) (ih - 1) 1 1
  end.

(** The padding of a [w] x [h] area placed at ([pad], [pad]) on a surface
    of size [w + 2 pad] x [h + 2 pad]: four bands and four corners. *)
Definition padding_band (w h pad : Z) (sd : Side) : Rect :=
  match sd with
  | Top => mkRect pad 0 w pad
  | Bottom => mkRect pad (h + pad) w pad
  | Left => mkRect 0 pad pad h
  | Right => mkRect (w + pad) pad pad h
  end.

Definition padding_corner (w h pad : Z) (c : Corner) : Rect :=
  match c with
  | TopLeft => mkRect 0 0 pad pad
  | TopRight => mkRect (w + pad) 0 pad pad
  | BottomLeft => mkRect 0 (h + pad) pad pad
  | BottomRight => mkRect (w + pad) (h + pad) pad pad
  end.

Definition stretch (t : Surface) (src : Drawable) (from to : Rect) : CanvasOp :=
  DrawImage9 t src (rx from) (ry from) (rw from) (rh from)
    (rx to) (ry to) (rw to) (rh to).

(** The padded background as the specification describes it. *)
Definition edgeClampedBackground_spec (img : Image) (radius w h : Z)
    : list CanvasOp :=
  let pad := Z.min (radius * 3) 100 in
  let src := SrcImage img in
  Resize Offscreen (w + pad * 2) (h + pad * 2)
  :: DrawImage5 Offscreen src pad pad w h
  :: map (fun sd => stretch Offscreen src (edge_strip img sd)
                      (padding_band w h pad sd)) [Top; Bottom; Left; Right]
  ++ map (fun c => stretch Offscreen src (corner_pixel img c)
                     (padding_corner w h pad c))
       [TopLeft; TopRight; BottomLeft; BottomRight]
  ++ [ SetFilter MainCanvas (FilterBlur radius);
       DrawImage3 MainCanvas SrcOffscreen (- pad) (- pad);
       SetFilter MainCanvas FilterNone ].

(** The rectangles of the main canvas that a list of operations paints,
    in order; [ow] x [oh] is the current size of the offscreen canvas, which
    is what a [drawImage(offscreenCanvas, dx, dy)] copies. *)
Fixpoint painted (ow oh : Z) (ops : list CanvasOp) : list Rect :=
  match ops with
  | [] => []
  | Resize Offscreen w h :: rest => painted w h rest
  | DrawImage3 MainCanvas SrcOffscreen dx dy :: rest =>
      mkRect dx dy ow oh :: painted ow oh rest
  | DrawImage5 MainCanvas _ dx dy dw dh :: rest =>
      mkRect dx dy dw dh :: painted ow oh rest
  | DrawImage9 MainCanvas _ _ _ _ _ dx dy dw dh :: rest =>
      mkRect dx dy dw dh :: painted ow oh rest
  | _ :: rest => painted ow oh rest
  end.

(** The part of a rectangle that falls on a [w] x [h] canvas. *)
Definition clip (w h : Z) (r : Rect) : Rect :=
  let x0 := Z.max (rx r) 0 in
  let y0 := Z.max (ry r) 0 in
  let x1 := Z.min (rx r + rw r) w in
  let y1 := Z.min (ry r + rh r) h in
  mkRect x0 y0 (x1 - x0) (y1 - y0).

(** The filters set on the main canvas by a list of operations. *)
Definition filters_set (ops : list CanvasOp) : list Filter :=
  flat_map (fun op => match op with
                      | SetFilter MainCanvas f => [f]
                      | _ => []
                      end) ops.

(** ** Executions *)

Definition is_image_file (f : File) : bool :=
  String.prefix "image/" (file_type f).

(** An image file is selected only while [isProcessing] is clear. *)
Definition upload_is_idle (s : State) (e : Event) : Prop :=
  match e with
  | EvSelectFile f => is_image_file f = true -> isProcessing s = false
  | _ => True
  end.

(** ... at every event of the execution of [evs] from [s]. *)
Fixpoint uploads_when_idle (evs : list Event) (s : State) : Prop :=
  match evs with
  | [] => True
  | e :: rest =>
      upload_is_idle s e
      /\ match step s e with
         | Some s' => uploads_when_idle rest s'
         | None => True
         end
  end.

(** The events that the specification lets start a removal request. *)
Definition qualifies (s : State) (e : Event) : Prop :=
  exists v, e = EvBlurInput v /\ 0 < v /\ maskImage s = None
            /\ isProcessing s = false /\ originalImage s <> None.

(** Invariants of the executions from [initial].  [loaded_inv]: a usable
    blur slider or a removal in progress means that an image is installed,
    and an installed image means that a file is current. *)
Definition loaded_inv (s : State) : Prop :=
  (originalImage s <> None -> currentFile s <> None)
  /\ (decoding s <> [] -> currentFile s <> None)
  /\ (blurDisabled s = false -> originalImage s <> None)
  /\ (inFlight s <> [] \/ maskDecoding s <> [] -> originalImage s <> None).

(** [one_at_a_time]: at most one removal is in progress (its request in
    flight or its cutout decoding), the flag is set while it is, and no
    cutout is held while its request is in flight. *)
Definition one_at_a_time (s : State) : Prop :=
  (length (inFlight s) + length (maskDecoding s) <= 1)%nat
  /\ (inFlight s <> [] \/ maskDecoding s <> [] -> isProcessing s = true)
  /\ (inFlight s <> [] -> maskImage s = None).

(** ** Sample files and executions *)

Definition photoA : File := mkFile "a.png" "image/png".
Definition photoB : File := mkFile "b.jpg" "image/jpeg".
Definition notes : File := mkFile "notes.txt" "text/plain".

(** A photo is loaded and the blur slider is raised: request 0 is in
    flight. *)
Definition awaiting_cutout : list Event :=
  [EvSelectFile photoA; EvImageLoaded photoA 800 600; EvBlurInput 5].

(** A second photo is uploaded while request 0 is in flight. *)
Definition superseded : list Event :=
  awaiting_cutout ++ [EvSelectFile photoB; EvImageLoaded photoB 640 480].

(** ... and the answer for the first photo arrives afterwards. *)
Definition late_cutout : list Event :=
  superseded ++ [EvFetchSettled 0%nat ResponseOk; EvMaskLoaded 0%nat].

(** ... or the blur slider is raised again before it does. *)
Definition second_request : list Event :=
  superseded ++ [EvBlurInput 5].

(** A photo wider than the maximum, with its cutout, at blur 5. *)
Definition widePhoto : Image := mkImage photoA 3000 2000.

Definition with_cutout_wide : list Event :=
  [EvSelectFile photoA; EvImageLoaded photoA 3000 2000; EvBlurInput 5;
   EvFetchSettled 0%nat ResponseOk; EvMaskLoaded 0%nat].

(** An image so wide and flat that its display height is below one pixel,
    and the grain slider raised on it. *)
Definition thinPhoto : File := mkFile "strip.png" "image/png".

Definition thin_with_grain : list Event :=
  [EvSelectFile thinPhoto; EvImageLoaded thinPhoto 1921 1; EvGrainInput 10].

(** The answer for the first photo arrives after the second photo is
    selected and before its load handler runs. *)
Definition answer_before_load : list Event :=
  awaiting_cutout
  ++ [EvSelectFile photoB; EvFetchSettled 0%nat ResponseOk;
      EvImageLoaded photoB 640 480].

(** The answer arrives, but the cutout cannot be decoded. *)
Definition cutout_undecodable : list Event :=
  awaiting_cutout ++ [EvFetchSettled 0%nat ResponseOk; EvMaskError 0%nat].

(** The states these executions end in. *)
Definition after (evs : list Event) : State :=
  match run evs initial with Some s => s | None => initial end.

Definition st_ready : State :=
  Eval vm_compute in
    after [EvSelectFile photoA; EvImageLoaded photoA 800 600].
Definition st_awaiting : State := Eval vm_compute in after awaiting_cutout.
Definition st_superseded : State := Eval vm_compute in after superseded.
Definition st_late_cutout : State := Eval vm_compute in after late_cutout.
Definition st_second_request : State := Eval vm_compute in after second_request.
Definition st_with_cutout_wide : State :=
  Eval vm_compute in after with_cutout_wide.
Definition st_thin_with_grain : State :=
  Eval vm_compute in after thin_with_grain.
Definition st_answer_before_load : State :=
  Eval vm_compute in after answer_before_load.
Definition st_cutout_undecodable : State :=
  Eval vm_compute in after cutout_undecodable.

(** A two-pixel buffer and a random source that always returns 1/4. *)
Definition two_pixels : list Z := [10; 20; 30; 255; 250; 0; 128; 7].

Definition quarter : nat -> Q := fun _ => (1 # 4)%Q.

(** ** More invariants of executions *)

(** The name [handleFile] prepares for the download of file [f]. *)
Definition edited_name (f : File) : string :=
  String.append (before_dot (file_name f)) "_edited.png".

(** Only image files get anywhere: into the decoder, onto the canvas, into
    a removal request or into the cutout. *)
Definition images_only (s : State) : Prop :=
  Forall (fun f => is_image_file f = true) (decoding s)
  /\ Forall (fun p => is_image_file (snd p) = true) (inFlight s)
  /\ (forall f, currentFile s = Some f -> is_image_file f = true)
  /\ (forall img, originalImage s = Some img ->
                  is_image_file (img_file img) = true)
  /\ (forall c, maskImage s = Some c -> is_image_file (cut_file c) = true).

(** The download name follows the current file. *)
Definition name_inv (s : State) : Prop :=
  match currentFile s with
  | Some f => fileName s = edited_name f
  | None => fileName s = "image.png"%string
  end.

(** The three controls are enabled and disabled together. *)
Definition controls_inv (s : State) : Prop :=
  blurDisabled s = grainDisabled s /\ grainDisabled s = downloadDisabled s.

(** The canvas has the display size of the installed image. *)
Definition canvas_inv (s : State) : Prop :=
  match originalImage s with
  | Some img =>
      0 < img_width img /\ 0 < img_height img
      /\ canvasWidth s = Z.min (img_width img) MAX_IMAGE_WIDTH
      /\ (img_width img <= MAX_IMAGE_WIDTH -> canvasHeight s = img_height img)
      /\ 0 <= canvasHeight s <= img_height img
      /\ canvasShown s = true /\ placeholderShown s = false
  | None =>
      canvasWidth s = 300 /\ canvasHeight s = 150
      /\ canvasShown s = false /\ placeholderShown s = true
  end.

(** ** The filter in effect *)

(** The sources drawn on the main canvas by a list of operations, each
    with the value of [ctx.filter] at the time of the draw; [cur] is the
    filter before the first operation. *)
Fixpoint drawn_with (cur : Filter) (ops : list CanvasOp)
    : list (Drawable * Filter) :=
  match ops with
  | [] => []
  | SetFilter MainCanvas f :: rest => drawn_with f rest
  | DrawImage3 MainCanvas src _ _ :: rest => (src, cur) :: drawn_with cur rest
  | DrawImage5 MainCanvas src _ _ _ _ :: rest =>
      (src, cur) :: drawn_with cur rest
  | DrawImage9 MainCanvas src _ _ _ _ _ _ _ _ :: rest =>
      (src, cur) :: drawn_with cur rest
  | _ :: rest => drawn_with cur rest
  end.

Fixpoint filter_after (cur : Filter) (ops : list CanvasOp) : Filter :=
  match ops with
  | [] => cur
  | SetFilter MainCanvas f :: rest => filter_after f rest
  | _ :: rest => filter_after cur rest
  end.

(** ** The removal endpoint, functions/remove-bg.js

    The handler is a function of the request, of what Busboy makes of its
    body, of the API key in the environment and of the answer of the remote
    API.  Busboy and the remote API are outside the repository: the events
    Busboy emits and the result of the [axios.post] call are inputs.  The
    listing of the file holds a second variant of the handler, which also
    composites the picture on the server; it makes the same checks in the
    same order and is not modelled. *)

Record LambdaEvent := mkLambdaEvent {
  httpMethod : string;
  event_headers : list (string * string)
}.

(** A file as pushed on [files]: the field name, the name in the info
    object that Busboy passes third, and the concatenated chunks. *)
Record UploadedFile := mkUploadedFile {
  up_fieldname : string;
  up_filename : string;
  up_content : list Z
}.

Inductive BusboyEvent :=
| OnFile (f : UploadedFile)
| OnField (fieldname val : string).

(** A run of Busboy on the body: the constructor throws (no usable
    content type), or events are emitted and the run ends with [error] or
    with [finish]. *)
Inductive BusboyRun :=
| BusboyThrows
| BusboyError (seen : list BusboyEvent)
| BusboyFinish (seen : list BusboyEvent).

Inductive ApiResult := ApiData (data : list Z) | ApiFails.

Inductive FormPart :=
| PartFile (name : string) (content : list Z) (filename : string)
| PartField (name val : string).

Record ApiCall := mkApiCall { call_form : list FormPart; call_key : string }.

Inductive Body :=
| Text (s : string)
| JsonError (message : string)
| Base64 (data : list Z).

Record Response := mkResponse {
  statusCode : Z;
  response_headers : list (string * string);
  body : Body;
  isBase64Encoded : bool
}.

Inductive Outcome := Resolves (r : Response) | Rejects.

(** [key.toLowerCase()] on header names, which are ASCII. *)
Definition lower_char (c : ascii) : ascii :=
  let n := nat_of_ascii c in
  if (65 <=? n)%nat && (n <=? 90)%nat then ascii_of_nat (n + 32) else c.

Fixpoint toLowerCase (s : string) : string :=
  match s with
  | EmptyString => EmptyString
  | String c rest => String (lower_char c) (toLowerCase rest)
  end.

(** A JavaScript object with string keys, in insertion order. *)
Fixpoint obj_set (k v : string) (o : list (string * string))
    : list (string * string) :=
  match o with
  | [] => [(k, v)]
  | (k', v') :: rest =>
      if String.eqb k' k then (k', v) :: rest else (k', v') :: obj_set k v rest
  end.

Fixpoint obj_get (k : string) (o : list (string * string)) : option string :=
  match o with
  | [] => None
  | (k', v) :: rest => if String.eqb k' k then Some v else obj_get k rest
  end.

(** The loop that copies the headers under lower-case names. *)
Definition lowercase_headers (hs : list (string * string))
    : list (string * string) :=
  fold_left (fun o kv => obj_set (toLowerCase (fst kv)) (snd kv) o) hs [].

(** [files] and [fields] when Busboy is done. *)
Fixpoint collect_files (evs : list BusboyEvent) : list UploadedFile :=
  match evs with
  | [] => []
  | OnFile f :: rest => f :: collect_files rest
  | OnField _ _ :: rest => collect_files rest
  end.

Definition collect_fields (evs : list BusboyEvent) : list (string * string) :=
  fold_left (fun o ev => match ev with
                         | OnField k v => obj_set k v o
                         | OnFile _ => o
                         end) evs [].

(** [!apiKey]: unset or empty. *)
Definition key_of (apiKey : option string) : option string :=
  match apiKey with
  | Some EmptyString => None
  | other => other
  end.

(** The form posted to the remote API. *)
Definition api_form (imageFile : UploadedFile)
    (fields : list (string * string)) : list FormPart :=
  PartFile "image" (up_content imageFile) (up_filename imageFile)
  :: match obj_get "mask" fields with
     | Some v => if String.eqb v "true" then [PartField "mask" "true"] else []
     | None => []
     end.

(** [exports.handler]: what the promise settles with, and the calls made to
    the remote API. *)
Definition handler (event : LambdaEvent) (busboy : BusboyRun)
    (apiKey : option string) (api : ApiResult) : Outcome * list ApiCall :=
  if negb (String.eqb (httpMethod event) "POST")
  then (Resolves (mkResponse 405 [] (Text "Method Not Allowed") false), [])
  else
    match busboy with
    | BusboyThrows => (Rejects, [])
    | BusboyError _ =>
        (Resolves (mkResponse 500 [] (Text "Upload parsing failed") false), [])
    | BusboyFinish seen =>
        match collect_files seen with
        | [] => (Resolves (mkResponse 400 [] (Text "No file uploaded") false), [])
        | imageFile :: _ =>
            let form := api_form imageFile (collect_fields seen) in
            match key_of apiKey with
            | None =>
                (Resolves (mkResponse 500 []
                             (Text "Missing API Key configuration") false), [])
            | Some key =>
                let call := mkApiCall form key in
                match api with
                | ApiData data =>
                    (Resolves (mkResponse 200 [("Content-Type"%string, "image/png"%string)]
                                 (Base64 data) true), [call])
                | ApiFails =>
                    (Resolves (mkResponse 502 []
                                 (JsonError "Failed to process image with RemBG")
                                 false), [call])
                end
            end
        end
    end.

(** [response.ok] as [fetch] in script.js sees it: a status from 200 to
    299. *)
Definition fetch_outcome (r : Response) : FetchOutcome :=
  if (200 <=? statusCode r) && (statusCode r <=? 299)
  then ResponseOk else ResponseNotOk.

(** The fields that script.js puts in its form: [mask] is ['false']. *)
Definition editor_fields (seen : list BusboyEvent) : Prop :=
  obj_get "mask" (collect_fields seen) = Some "false"%string.




(** A draw, of the form n / 2^53, for which the rounding of the arithmetic
    decides the byte that is stored. *)
Definition tie_draw : nat -> Q :=
  fun _ => (4326987877277535 # 9007199254740992)%Q.

Definition flat_pixel : list Z := [100; 100; 100; 255].

Definition editor_upload : list BusboyEvent :=
  [OnFile (mkUploadedFile "image" "a.png" [137; 80; 78; 71]);
   OnField "mask" "false"].

(** Whether a name contains a dot. *)
Fixpoint has_dot (s : string) : bool :=
  match s with
  | EmptyString => false
  | String c rest => Ascii.eqb c "."%char || has_dot rest
  end.

Definition post_event : LambdaEvent :=
  mkLambdaEvent "POST" [("Content-Type"%string,
                         "multipart/form-data; boundary=x"%string)].

(** * Properties *)

(** ** Rounding to an integer *)

Lemma round_half_even_near (q : Q) :
  (inject_Z (round_half_even q) - (1 # 2) <= q
   /\ q <= inject_Z (round_half_even q) + (1 # 2))%Q.
Proof.
  unfold round_half_even.
  pose proof (Qfloor_le q) as Hlo. pose proof (Qlt_floor q) as Hhi.
  rewrite inject_Z_plus in Hhi. change (inject_Z 1) with 1%Q in Hhi.
  destruct (q - inject_Z (Qfloor q) ?= 1 # 2)%Q eqn:E.
  - apply Qeq_alt in E. destruct (Z.even (Qfloor q));
      rewrite ?inject_Z_plus; change (inject_Z 1) with 1%Q; split; lra.
  - apply Qlt_alt in E. split; lra.
  - apply Qgt_alt in E. rewrite inject_Z_plus. change (inject_Z 1) with 1%Q.
    split; lra.
Qed.

Lemma round_half_even_bounds (q : Q) :
  Qfloor q <= round_half_even q <= Qfloor q + 1.
Proof.
  unfold round_half_even.
  destruct (q - inject_Z (Qfloor q) ?= 1 # 2)%Q; [destruct (Z.even _)| |]; lia.
Qed.

Lemma round_half_even_mono (p q : Q) :
  (p <= q)%Q -> round_half_even p <= round_half_even q.
Proof.
  intros Hpq.
  pose proof (Qfloor_resp_le p q Hpq) as Hf.
  pose proof (round_half_even_bounds p) as [_ Hp].
  pose proof (round_half_even_bounds q) as [Hq _].
  destruct (Z.eq_dec (Qfloor p) (Qfloor q)) as [E|E]; [|lia].
  clear Hp Hq Hf. unfold round_half_even. rewrite E.
  destruct (p - inject_Z (Qfloor q) ?= 1 # 2)%Q eqn:Ep;
    destruct (q - inject_Z (Qfloor q) ?= 1 # 2)%Q eqn:Eq;
    try (destruct (Z.even (Qfloor q))); try lia.
  all: try apply (proj2 (Qeq_alt _ _)) in Ep.
  all: try apply (proj2 (Qlt_alt _ _)) in Ep.
  all: try apply (proj2 (Qgt_alt _ _)) in Ep.
  all: try apply (proj2 (Qeq_alt _ _)) in Eq.
  all: try apply (proj2 (Qlt_alt _ _)) in Eq.
  all: try apply (proj2 (Qgt_alt _ _)) in Eq.
  all: exfalso; lra.
Qed.

(** ** Rounding to binary64 *)

Section Rounding.
Local Open Scope Q_scope.


Lemma round_half_even_comp (p q : Q) :
  p == q -> round_half_even p = round_half_even q.
Proof.
  intros H. unfold round_half_even. rewrite (Qfloor_comp _ _ H).
  assert (E : (p - inject_Z (Qfloor q) ?= 1 # 2) = (q - inject_Z (Qfloor q) ?= 1 # 2)).
  { apply Qcompare_comp; [rewrite H|]; reflexivity. }
  rewrite E. reflexivity.
Qed.

Lemma round_half_even_inject_Z (z : Z) : round_half_even (inject_Z z) = z.
Proof.
  unfold round_half_even. rewrite Qfloor_Z.
  assert (E : (inject_Z z - inject_Z z ?= 1 # 2) = Lt).
  { apply (proj1 (Qlt_alt _ _)). lra. }
  rewrite E. reflexivity.
Qed.

Lemma toUint8Clamp_comp (p q : Q) : p == q -> toUint8Clamp p = toUint8Clamp q.
Proof.
  intros H. unfold toUint8Clamp.
  assert (E0 : Qle_bool p 0 = Qle_bool q 0).
  { apply eq_true_iff_eq. rewrite !Qle_bool_iff, H. reflexivity. }
  assert (E1 : Qle_bool 255 p = Qle_bool 255 q).
  { apply eq_true_iff_eq. rewrite !Qle_bool_iff, H. reflexivity. }
  rewrite E0, E1, (round_half_even_comp p q H). reflexivity.
Qed.

Lemma pow2_pos (e : Z) : 0 < 2 ^ e.
Proof. apply Qpower_0_lt. reflexivity. Qed.

Lemma pow2_plus (a b : Z) : 2 ^ (a + b) == 2 ^ a * 2 ^ b.
Proof. apply Qpower_plus. discriminate. Qed.

Lemma pow2_le (a b : Z) : (a <= b)%Z -> 2 ^ a <= 2 ^ b.
Proof. intros H. apply Qpower_le_compat_l; [exact H | discriminate]. Qed.

Lemma pow2_lt_inv (a b : Z) : 2 ^ a < 2 ^ b -> (a < b)%Z.
Proof. intros H. apply (Qpower_lt_compat_l_inv 2); [exact H | reflexivity]. Qed.

Lemma pow2_inject (n : Z) : (0 <= n)%Z -> inject_Z (2 ^ n) == 2 ^ n.
Proof. intros H. apply (Zpower_Qpower 2 n H). Qed.

Lemma Qden_mult (q : Q) : q * inject_Z (Zpos (Qden q)) == inject_Z (Qnum q).
Proof.
  destruct q as [n d]. unfold Qeq, Qmult, inject_Z. cbn.
  rewrite Pos.mul_1_r. ring.
Qed.

Lemma Qnum_pos (q : Q) : 0 < q -> (0 < Qnum q)%Z.
Proof. destruct q as [n d]. unfold Qlt. cbn. lia. Qed.

(** The estimate of [binade] is off by less than one. *)
Lemma log2_frame (q : Q) :
  0 < q ->
  2 ^ (Z.log2 (Qnum q) - Z.log2 (Zpos (Qden q)) - 1) < q
  /\ q < 2 ^ (Z.log2 (Qnum q) - Z.log2 (Zpos (Qden q)) + 1).
Proof.
  intros Hq. pose proof (Qnum_pos q Hq) as Hn.
  set (n := Qnum q) in *. set (d := Zpos (Qden q)).
  assert (Hd : (0 < d)%Z) by (unfold d; lia).
  pose proof (Z.log2_spec n Hn) as [Ha1 Ha2].
  pose proof (Z.log2_spec d Hd) as [Hb1 Hb2].
  pose proof (Z.log2_nonneg n) as Ha0. pose proof (Z.log2_nonneg d) as Hb0.
  set (a := Z.log2 n) in *. set (b := Z.log2 d) in *.
  rewrite <- Z.add_1_r in Ha2, Hb2.
  rewrite Zle_Qle, pow2_inject in Ha1, Hb1 by lia.
  rewrite Zlt_Qlt, pow2_inject in Ha2, Hb2 by lia.
  pose proof (Qden_mult q) as E. fold n d in E.
  pose proof (pow2_pos b) as Pb. pose proof (pow2_pos (b + 1)) as Pb1.
  split.
  - apply (proj1 (Qmult_lt_r _ _ (2 ^ (b + 1)) Pb1)).
    rewrite <- pow2_plus. replace (a - b - 1 + (b + 1))%Z with a by lia.
    apply (Qle_lt_trans _ (inject_Z n)); [exact Ha1|]. rewrite <- E.
    apply Qmult_lt_l; assumption.
  - apply (proj1 (Qmult_lt_r _ _ (2 ^ b) Pb)).
    rewrite <- pow2_plus. replace (a - b + 1 + b)%Z with (a + 1)%Z by lia.
    apply (Qle_lt_trans _ (inject_Z n)); [|exact Ha2]. rewrite <- E.
    apply Qmult_le_l; assumption.
Qed.

Lemma binade_spec (q : Q) :
  0 < q -> 2 ^ binade q <= q /\ q < 2 ^ (binade q + 1).
Proof.
  intros Hq. destruct (log2_frame q Hq) as [Hlo Hhi]. unfold binade.
  set (e := (Z.log2 (Qnum q) - Z.log2 (Zpos (Qden q)))%Z) in *.
  destruct (Qle_bool (2 ^ e) q) eqn:E.
  - apply Qle_bool_iff in E. split; assumption.
  - assert (Hlt : q < 2 ^ e).
    { apply Qnot_le_lt. intros H. apply Qle_bool_iff in H. congruence. }
    replace (e - 1 + 1)%Z with e by lia. split; [apply Qlt_le_weak|]; assumption.
Qed.

Lemma binade_unique (q : Q) (e : Z) :
  2 ^ e <= q -> q < 2 ^ (e + 1) -> binade q = e.
Proof.
  intros Hlo Hhi.
  assert (Hq : 0 < q) by (apply (Qlt_le_trans _ (2 ^ e)); [apply pow2_pos | exact Hlo]).
  destruct (binade_spec q Hq) as [Blo Bhi].
  assert (H1 : (binade q < e + 1)%Z).
  { apply pow2_lt_inv. apply (Qle_lt_trans _ q); assumption. }
  assert (H2 : (e < binade q + 1)%Z).
  { apply pow2_lt_inv. apply (Qle_lt_trans _ q); assumption. }
  lia.
Qed.

Lemma binade_comp (p q : Q) : 0 < p -> p == q -> binade p = binade q.
Proof.
  intros Hp H. symmetry. destruct (binade_spec p Hp) as [Hlo Hhi].
  apply binade_unique; rewrite <- H; assumption.
Qed.

Lemma binade_mono (p q : Q) : 0 < p -> p <= q -> (binade p <= binade q)%Z.
Proof.
  intros Hp Hpq.
  assert (Hq : 0 < q) by (apply (Qlt_le_trans _ p); assumption).
  destruct (binade_spec p Hp) as [Plo _]. destruct (binade_spec q Hq) as [_ Qhi].
  assert (H : (binade p < binade q + 1)%Z).
  { apply pow2_lt_inv. apply (Qle_lt_trans _ p); [exact Plo|].
    apply (Qle_lt_trans _ q); assumption. }
  lia.
Qed.

(** The scaled significand of a positive number lies between 2^52 and 2^53. *)
Lemma significand_range (q : Q) :
  0 < q ->
  2 ^ 52 <= q / 2 ^ (binade q - 52) /\ q / 2 ^ (binade q - 52) < 2 ^ 53.
Proof.
  intros Hq. destruct (binade_spec q Hq) as [Hlo Hhi].
  pose proof (pow2_pos (binade q - 52)) as Pu.
  split.
  - apply Qle_shift_div_l; [exact Pu|]. rewrite <- pow2_plus.
    replace (52 + (binade q - 52))%Z with (binade q) by lia. exact Hlo.
  - apply Qlt_shift_div_r; [exact Pu|]. rewrite <- pow2_plus.
    replace (53 + (binade q - 52))%Z with (binade q + 1)%Z by lia. exact Hhi.
Qed.

Lemma round_pos_eq (q : Q) :
  round_pos q
  == inject_Z (round_half_even (q / 2 ^ (binade q - 52))) * 2 ^ (binade q - 52).
Proof. unfold round_pos. apply Qred_correct. Qed.

Lemma significand_rounded (q : Q) :
  0 < q ->
  (2 ^ 52 <= round_half_even (q / 2 ^ (binade q - 52)) <= 2 ^ 53)%Z.
Proof.
  intros Hq. destruct (significand_range q Hq) as [Hlo Hhi].
  split.
  - rewrite <- (round_half_even_inject_Z (2 ^ 52)).
    apply round_half_even_mono. rewrite pow2_inject by lia. exact Hlo.
  - rewrite <- (round_half_even_inject_Z (2 ^ 53)).
    apply round_half_even_mono. rewrite pow2_inject by lia.
    apply Qlt_le_weak. exact Hhi.
Qed.

(** Rounding stays within the binade, ends included. *)
Lemma round_pos_range (q : Q) :
  0 < q -> 2 ^ binade q <= round_pos q /\ round_pos q <= 2 ^ (binade q + 1).
Proof.
  intros Hq. destruct (significand_rounded q Hq) as [Hlo Hhi].
  pose proof (pow2_pos (binade q - 52)) as Pu.
  rewrite round_pos_eq. split.
  - replace (binade q) with (52 + (binade q - 52))%Z at 1 by lia.
    rewrite pow2_plus. apply Qmult_le_compat_r; [|apply Qlt_le_weak, Pu].
    rewrite <- (pow2_inject 52) by lia. rewrite <- Zle_Qle. exact Hlo.
  - replace (binade q + 1)%Z with (53 + (binade q - 52))%Z by lia.
    rewrite pow2_plus. apply Qmult_le_compat_r; [|apply Qlt_le_weak, Pu].
    rewrite <- (pow2_inject 53) by lia. rewrite <- Zle_Qle. exact Hhi.
Qed.

Lemma round_pos_pos (q : Q) : 0 < q -> 0 < round_pos q.
Proof.
  intros Hq. destruct (round_pos_range q Hq) as [Hlo _].
  apply (Qlt_le_trans _ (2 ^ binade q)); [apply pow2_pos | exact Hlo].
Qed.

Lemma round_pos_comp (p q : Q) : 0 < p -> p == q -> round_pos p == round_pos q.
Proof.
  intros Hp H. rewrite !round_pos_eq. rewrite (binade_comp p q Hp H).
  assert (E : p / 2 ^ (binade q - 52) == q / 2 ^ (binade q - 52))
    by (rewrite H; reflexivity).
  rewrite (round_half_even_comp _ _ E). reflexivity.
Qed.

Lemma round_pos_mono (p q : Q) :
  0 < p -> p <= q -> round_pos p <= round_pos q.
Proof.
  intros Hp Hpq.
  assert (Hq : 0 < q) by (apply (Qlt_le_trans _ p); assumption).
  pose proof (binade_mono p q Hp Hpq) as Hb.
  destruct (Z.eq_dec (binade p) (binade q)) as [E|E].
  - rewrite !round_pos_eq, E.
    apply Qmult_le_compat_r; [|apply Qlt_le_weak, pow2_pos].
    rewrite <- Zle_Qle. apply round_half_even_mono.
    apply Qmult_le_compat_r; [exact Hpq|].
    apply Qlt_le_weak, Qinv_lt_0_compat, pow2_pos.
  - destruct (round_pos_range p Hp) as [_ Hhi].
    destruct (round_pos_range q Hq) as [Hlo _].
    apply (Qle_trans _ (2 ^ (binade p + 1))); [exact Hhi|].
    apply (Qle_trans _ (2 ^ binade q)); [|exact Hlo].
    apply pow2_le. lia.
Qed.

(** [round_double] on the three signs. *)
Lemma round_double_pos (q : Q) : 0 < q -> round_double q = round_pos q.
Proof.
  intros H. unfold round_double.
  assert (E : (q ?= 0) = Gt) by (apply (proj1 (Qgt_alt _ _)); exact H).
  rewrite E. reflexivity.
Qed.

Lemma round_double_neg (q : Q) : q < 0 -> round_double q = - round_pos (- q).
Proof.
  intros H. unfold round_double.
  assert (E : (q ?= 0) = Lt) by (apply (proj1 (Qlt_alt _ _)); exact H).
  rewrite E. reflexivity.
Qed.

Lemma round_double_zero (q : Q) : q == 0 -> round_double q = 0.
Proof.
  intros H. unfold round_double.
  assert (E : (q ?= 0) = Eq) by (apply (proj1 (Qeq_alt _ _)); exact H).
  rewrite E. reflexivity.
Qed.

Lemma Qsign_cases (q : Q) : q < 0 \/ q == 0 \/ 0 < q.
Proof.
  destruct (Q_dec q 0) as [[H|H]|H]; auto.
Qed.

Lemma round_double_comp (p q : Q) : p == q -> round_double p == round_double q.
Proof.
  intros H. destruct (Qsign_cases p) as [Hp|[Hp|Hp]].
  - rewrite (round_double_neg p Hp), (round_double_neg q) by (rewrite <- H; exact Hp).
    apply Qopp_comp. apply round_pos_comp; [lra | rewrite H; reflexivity].
  - rewrite (round_double_zero p Hp), (round_double_zero q) by (rewrite <- H; exact Hp).
    reflexivity.
  - rewrite (round_double_pos p Hp), (round_double_pos q) by (rewrite <- H; exact Hp).
    apply round_pos_comp; assumption.
Qed.

(** Rounding is odd. *)
Lemma round_double_opp (q : Q) : round_double (- q) == - round_double q.
Proof.
  destruct (Qsign_cases q) as [Hq|[Hq|Hq]].
  - rewrite (round_double_neg q Hq), (round_double_pos (- q)) by lra.
    rewrite Qopp_involutive. reflexivity.
  - rewrite (round_double_zero q Hq), (round_double_zero (- q)) by lra.
    reflexivity.
  - rewrite (round_double_pos q Hq), (round_double_neg (- q)) by lra.
    apply Qopp_comp. apply round_pos_comp; [lra | apply Qopp_involutive].
Qed.

(** Rounding keeps the sign. *)
Lemma round_double_nonneg (q : Q) : 0 <= q -> 0 <= round_double q.
Proof.
  intros H. destruct (Qsign_cases q) as [Hq|[Hq|Hq]]; [lra| |].
  - rewrite (round_double_zero q Hq). lra.
  - rewrite (round_double_pos q Hq). apply Qlt_le_weak, round_pos_pos, Hq.
Qed.

Lemma round_double_nonpos (q : Q) : q <= 0 -> round_double q <= 0.
Proof.
  intros H. destruct (Qsign_cases q) as [Hq|[Hq|Hq]]; [| |lra].
  - rewrite (round_double_neg q Hq).
    assert (0 < round_pos (- q)) by (apply round_pos_pos; lra). lra.
  - rewrite (round_double_zero q Hq). lra.
Qed.

(** Rounding is monotone. *)
Lemma round_double_mono (p q : Q) : p <= q -> round_double p <= round_double q.
Proof.
  intros Hpq. destruct (Qsign_cases p) as [Hp|[Hp|Hp]].
  - destruct (Qlt_le_dec q 0) as [Hq|Hq].
    + rewrite (round_double_neg p Hp), (round_double_neg q Hq).
      apply Qopp_le_compat. apply round_pos_mono; lra.
    + apply (Qle_trans _ 0);
        [apply round_double_nonpos; lra | apply round_double_nonneg; exact Hq].
  - rewrite (round_double_zero p Hp). apply round_double_nonneg. lra.
  - rewrite (round_double_pos p Hp), (round_double_pos q) by lra.
    apply round_pos_mono; assumption.
Qed.

(** The relative error of a rounding is at most [2^-53]. *)
Lemma pow2_52 : 2 ^ 52 == 4503599627370496.
Proof. reflexivity. Qed.

Lemma round_pos_error (q : Q) :
  0 < q ->
  q * (1 - half_ulp_ratio) <= round_pos q
  /\ round_pos q <= q * (1 + half_ulp_ratio).
Proof.
  intros Hq. rewrite round_pos_eq.
  destruct (binade_spec q Hq) as [Hlo _].
  pose proof (pow2_pos (binade q - 52)) as Pu.
  set (U := 2 ^ (binade q - 52)) in *.
  destruct (round_half_even_near (q / U)) as [Ha Hb].
  set (m := inject_Z (round_half_even (q / U))) in *.
  assert (Ex : q / U * U == q) by (field; lra).
  assert (Hu : U * 4503599627370496 <= q).
  { rewrite <- pow2_52. unfold U. rewrite <- pow2_plus.
    replace (binade q - 52 + 52)%Z with (binade q) by lia. exact Hlo. }
  assert (Ha' : (m - (1 # 2)) * U <= q / U * U)
    by (apply Qmult_le_compat_r; [exact Ha | lra]).
  assert (Hb' : q / U * U <= (m + (1 # 2)) * U)
    by (apply Qmult_le_compat_r; [exact Hb | lra]).
  rewrite Ex in Ha', Hb'.
  assert (E1 : (m - (1 # 2)) * U == m * U - U * (1 # 2)) by ring.
  assert (E2 : (m + (1 # 2)) * U == m * U + U * (1 # 2)) by ring.
  rewrite E1 in Ha'. rewrite E2 in Hb'.
  unfold half_ulp_ratio. split; lra.
Qed.

Lemma round_double_error (q : Q) :
  0 <= q ->
  q * (1 - half_ulp_ratio) <= round_double q
  /\ round_double q <= q * (1 + half_ulp_ratio).
Proof.
  intros H. destruct (Qsign_cases q) as [Hq|[Hq|Hq]]; [lra| |].
  - rewrite (round_double_zero q Hq), Hq. split; lra.
  - rewrite (round_double_pos q Hq). apply round_pos_error. exact Hq.
Qed.

(** Halving commutes with rounding. *)
Lemma binade_half (q : Q) : 0 < q -> binade (q / 2) = (binade q - 1)%Z.
Proof.
  intros Hq. destruct (binade_spec q Hq) as [Hlo Hhi].
  assert (E1 : 2 ^ binade q == 2 * 2 ^ (binade q - 1)).
  { rewrite <- (pow2_plus 1). f_equiv. lia. }
  assert (E2 : 2 ^ (binade q + 1) == 2 * 2 ^ (binade q - 1 + 1)).
  { rewrite <- (pow2_plus 1). f_equiv. lia. }
  rewrite E1 in Hlo. rewrite E2 in Hhi.
  assert (E : q / 2 == q * (1 # 2)) by field.
  apply binade_unique; rewrite E; lra.
Qed.

Lemma round_pos_half (q : Q) : 0 < q -> round_pos (q / 2) == round_pos q / 2.
Proof.
  intros Hq. rewrite !round_pos_eq, (binade_half q Hq).
  pose proof (pow2_pos (binade q - 1 - 52)) as Pu.
  assert (E : 2 ^ (binade q - 52) == 2 * 2 ^ (binade q - 1 - 52)).
  { rewrite <- (pow2_plus 1). f_equiv. lia. }
  assert (Ex : q / 2 / 2 ^ (binade q - 1 - 52) == q / 2 ^ (binade q - 52)).
  { rewrite E. field. lra. }
  rewrite (round_half_even_comp _ _ Ex).
  set (m := inject_Z (round_half_even (q / 2 ^ (binade q - 52)))).
  rewrite E. field.
Qed.

(** A rounded number is its own rounding. *)
Lemma round_pos_idem (q : Q) : 0 < q -> round_pos (round_pos q) == round_pos q.
Proof.
  intros Hq.
  destruct (significand_rounded q Hq) as [Mlo Mhi].
  destruct (round_pos_range q Hq) as [Rlo Rhi].
  pose proof (round_pos_pos q Hq) as Rpos.
  pose proof (pow2_pos (binade q - 52)) as Pu.
  pose proof (round_pos_eq q) as Er.
  set (m := round_half_even (q / 2 ^ (binade q - 52))) in *.
  destruct (Z.eq_dec m (2 ^ 53)%Z) as [Em|Em].
  - (* the significand was rounded up to the next binade *)
    assert (Er' : round_pos q == 2 ^ (binade q + 1)).
    { rewrite Er, Em, (pow2_inject 53) by lia. rewrite <- pow2_plus.
      f_equiv. lia. }
    assert (Eb : binade (round_pos q) = (binade q + 1)%Z).
    { apply binade_unique; rewrite Er'; [apply Qle_refl|].
      assert (E2 : 2 ^ (binade q + 1 + 1) == 2 * 2 ^ (binade q + 1)).
      { rewrite <- (pow2_plus 1). f_equiv. lia. }
      rewrite E2. pose proof (pow2_pos (binade q + 1)). lra. }
    rewrite (round_pos_eq (round_pos q)), Eb.
    assert (Ex : round_pos q / 2 ^ (binade q + 1 - 52) == inject_Z (2 ^ 52)).
    { rewrite Er', (pow2_inject 52) by lia.
      replace (binade q + 1)%Z with (52 + (binade q + 1 - 52))%Z at 1 by lia.
      rewrite pow2_plus. field.
      pose proof (pow2_pos (binade q + 1 - 52)). lra. }
    rewrite (round_half_even_comp _ _ Ex), round_half_even_inject_Z.
    rewrite (pow2_inject 52), <- pow2_plus, Er' by lia. f_equiv. lia.
  - assert (Hm : (m <= 2 ^ 53 - 1)%Z) by lia.
    assert (Eb : binade (round_pos q) = binade q).
    { apply binade_unique; [exact Rlo|]. rewrite Er.
      replace (binade q + 1)%Z with (53 + (binade q - 52))%Z by lia.
      rewrite pow2_plus. apply Qmult_lt_r; [exact Pu|].
      rewrite <- (pow2_inject 53) by lia. rewrite <- Zlt_Qlt. lia. }
    rewrite (round_pos_eq (round_pos q)), Eb.
    assert (Ex : round_pos q / 2 ^ (binade q - 52) == inject_Z m).
    { rewrite Er. field. lra. }
    rewrite (round_half_even_comp _ _ Ex), round_half_even_inject_Z.
    symmetry. exact Er.
Qed.

Lemma round_double_idem (q : Q) :
  round_double (round_double q) == round_double q.
Proof.
  destruct (Qsign_cases q) as [Hq|[Hq|Hq]].
  - rewrite (round_double_neg q Hq), round_double_opp.
    assert (Hp : 0 < round_pos (- q)) by (apply round_pos_pos; lra).
    rewrite (round_double_pos _ Hp), round_pos_idem by lra. reflexivity.
  - rewrite (round_double_zero q Hq). reflexivity.
  - rewrite (round_double_pos q Hq).
    assert (Hp : 0 < round_pos q) by (apply round_pos_pos; exact Hq).
    rewrite (round_double_pos _ Hp). apply round_pos_idem. exact Hq.
Qed.

Lemma round_double_half_pos (r : Q) :
  0 <= r -> round_double r == r -> round_double (r / 2) == r / 2.
Proof.
  intros Hr Hfix. destruct (Qsign_cases r) as [Hq|[Hq|Hq]]; [lra| |].
  - assert (E : r / 2 == 0) by (rewrite Hq; reflexivity).
    rewrite (round_double_zero _ E), E. reflexivity.
  - assert (Hh : 0 < r / 2).
    { assert (E : r / 2 == r * (1 # 2)) by field. rewrite E. lra. }
    rewrite (round_double_pos _ Hh), (round_pos_half r Hq).
    rewrite <- (round_double_pos r Hq), Hfix. reflexivity.
Qed.

(** Integers below 2^53 are doubles. *)
Lemma round_pos_inject_Z (z : Z) :
  (0 < z < 2 ^ 53)%Z -> round_pos (inject_Z z) == inject_Z z.
Proof.
  intros [Hz0 Hz1].
  assert (Hq : 0 < inject_Z z)
    by (change 0 with (inject_Z 0); rewrite <- Zlt_Qlt; exact Hz0).
  destruct (binade_spec _ Hq) as [Hlo Hhi].
  set (b := binade (inject_Z z)) in *.
  assert (Hb1 : (b < 53)%Z).
  { apply pow2_lt_inv. apply (Qle_lt_trans _ (inject_Z z)); [exact Hlo|].
    rewrite <- (pow2_inject 53) by lia. rewrite <- Zlt_Qlt. exact Hz1. }
  rewrite round_pos_eq. fold b.
  pose proof (pow2_pos (b - 52)) as Pu.
  assert (Ex : inject_Z z / 2 ^ (b - 52) == inject_Z (z * 2 ^ (52 - b))).
  { rewrite inject_Z_mult, pow2_inject by lia.
    assert (E : 2 ^ (52 - b) * 2 ^ (b - 52) == 1).
    { rewrite <- pow2_plus. replace (52 - b + (b - 52))%Z with 0%Z by lia.
      reflexivity. }
    pose proof (pow2_pos (52 - b)) as Pv.
    apply (Qmult_inj_r _ _ (2 ^ (b - 52))); [lra|].
    assert (E1 : inject_Z z / 2 ^ (b - 52) * 2 ^ (b - 52) == inject_Z z)
      by (field; lra).
    rewrite E1, <- Qmult_assoc, E. ring. }
  rewrite (round_half_even_comp _ _ Ex), round_half_even_inject_Z.
  rewrite inject_Z_mult, pow2_inject by lia.
  rewrite <- Qmult_assoc, <- pow2_plus.
  replace (52 - b + (b - 52))%Z with 0%Z by lia. change (2 ^ 0) with 1. ring.
Qed.

Lemma round_double_inject_Z (z : Z) :
  (Z.abs z < 2 ^ 53)%Z -> round_double (inject_Z z) == inject_Z z.
Proof.
  intros Hz. destruct (Z.lt_trichotomy z 0) as [H|[H|H]].
  - assert (Hq : inject_Z z < 0)
      by (change 0 with (inject_Z 0); rewrite <- Zlt_Qlt; exact H).
    rewrite (round_double_neg _ Hq), <- inject_Z_opp.
    rewrite round_pos_inject_Z by lia. rewrite inject_Z_opp. ring.
  - subst z. reflexivity.
  - assert (Hq : 0 < inject_Z z)
      by (change 0 with (inject_Z 0); rewrite <- Zlt_Qlt; exact H).
    rewrite (round_double_pos _ Hq). apply round_pos_inject_Z. lia.
Qed.

End Rounding.

(** ** The sample executions *)

Lemma run_awaiting : run awaiting_cutout initial = Some st_awaiting.
Proof. vm_compute. reflexivity. Qed.

Lemma run_superseded : run superseded initial = Some st_superseded.
Proof. vm_compute. reflexivity. Qed.

Lemma run_late_cutout : run late_cutout initial = Some st_late_cutout.
Proof. vm_compute. reflexivity. Qed.

Lemma run_second_request : run second_request initial = Some st_second_request.
Proof. vm_compute. reflexivity. Qed.

Lemma run_app (evs1 evs2 : list Event) (s : State) :
  run (evs1 ++ evs2) s
  = match run evs1 s with Some s1 => run evs2 s1 | None => None end.
Proof.
  revert s. induction evs1 as [|e evs1 IH]; intros s; cbn; [reflexivity|].
  destruct (step s e); [apply IH | reflexivity].
Qed.

Lemma reachable_initial : reachable initial.
Proof. exists []. reflexivity. Qed.

Lemma reachable_step (s s' : State) (e : Event) :
  reachable s -> step s e = Some s' -> reachable s'.
Proof.
  intros [evs Hrun] Hstep. exists (evs ++ [e]).
  rewrite run_app, Hrun. cbn. rewrite Hstep. reflexivity.
Qed.

(** ** Upload *)

Lemma handleFile_image (f : File) (s : State) :
  is_image_file f = true ->
  handleFile f s
  = set_decoding (decoding s ++ [f])
      (set_isProcessing false
         (set_maskImage None
            (set_fileName (String.append (before_dot (file_name f)) "_edited.png")
               (set_currentFile (Some f) s)))).
Proof.
  unfold is_image_file, handleFile. intros ->. reflexivity.
Qed.

Lemma handleFile_not_image (f : File) (s : State) :
  is_image_file f = false ->
  handleFile f s = alert "Please upload an image file" s.
Proof.
  unfold is_image_file, handleFile. intros ->. reflexivity.
Qed.

Lemma existsb_file_eqb_last (f : File) (l : list File) :
  existsb (file_eqb f) (l ++ [f]) = true.
Proof.
  rewrite existsb_app. apply orb_true_iff. right. simpl.
  unfold file_eqb. rewrite !String.eqb_refl. reflexivity.
Qed.

(** When the load handler of an image file follows its selection with no
    other event in between, the upload leaves the blur and grain sliders at
    0, no cutout, and the three controls enabled, whatever the state was
    before. *)
Lemma upload_resets_editor (s : State) (f : File) (w h : Z) :
  is_image_file f = true -> 0 < w -> 0 < h ->
  exists s',
    run [EvSelectFile f; EvImageLoaded f w h] s = Some s'
    /\ blurValue s' = 0 /\ grainValue s' = 0 /\ maskImage s' = None
    /\ blurDisabled s' = false /\ grainDisabled s' = false
    /\ downloadDisabled s' = false
    /\ originalImage s' = Some (mkImage f w h).
Proof.
  intros Himg Hw Hh. cbn [run step].
  rewrite (handleFile_image f s Himg).
  cbn [decoding set_decoding].
  rewrite existsb_file_eqb_last.
  apply Z.ltb_lt in Hw, Hh. rewrite Hw, Hh. cbn [andb].
  eexists. split; [reflexivity|]. unfold img_onload.
  destruct (display_size _ _) as [cw ch]. cbn. repeat split; reflexivity.
Qed.

(** The load handler itself always leaves the sliders at 0 and the controls
    enabled; the cutout variable is not among the things it resets. *)
Lemma img_onload_resets (img : Image) (s : State) :
  blurValue (img_onload img s) = 0 /\ grainValue (img_onload img s) = 0
  /\ blurDisabled (img_onload img s) = false
  /\ grainDisabled (img_onload img s) = false
  /\ downloadDisabled (img_onload img s) = false
  /\ originalImage (img_onload img s) = Some img
  /\ maskImage (img_onload img s) = maskImage s.
Proof.
  unfold img_onload. destruct (display_size _ _) as [cw ch]. cbn.
  repeat split.
Qed.

Lemma run_answer_before_load :
  run answer_before_load initial = Some st_answer_before_load.
Proof. vm_compute. reflexivity. Qed.

(** C8 (the execution on which the script departs from it).  Photo A is
    loaded and a request for its cutout is in flight; photo B is selected;
    the answer for A arrives before the load handler of B runs.  When B is
    installed the upload is complete, the sliders are at 0 and the controls
    are enabled, but the cutout made from A is held: [handleFile] had reset
    the variable, and the answer set it again.  A blur input on B then
    starts no request, since a cutout is present. *)
Theorem upload_keeps_late_cutout :
  exists s0 s s',
    run awaiting_cutout initial = Some s0
    /\ inFlight s0 = [(0%nat, photoA)]
    /\ run [EvSelectFile photoB; EvFetchSettled 0%nat ResponseOk;
            EvImageLoaded photoB 640 480] s0 = Some s
    /\ originalImage s = Some (mkImage photoB 640 480)
    /\ currentFile s = Some photoB
    /\ blurValue s = 0 /\ grainValue s = 0
    /\ blurDisabled s = false /\ grainDisabled s = false
    /\ downloadDisabled s = false
    /\ isProcessing s = false
    /\ maskImage s = Some (mkCutout 0 photoA)
    /\ step s (EvBlurInput 5) = Some s'
    /\ inFlight s' = [] /\ nextRequest s' = nextRequest s
    /\ maskImage s' = Some (mkCutout 0 photoA).
Proof.
  exists st_awaiting, st_answer_before_load. eexists.
  split; [exact run_awaiting|]. split; [reflexivity|].
  split; [vm_compute; reflexivity|].
  do 9 (split; [reflexivity|]).
  split; [vm_compute; reflexivity|].
  cbn. repeat split.
Qed.

(** A non-image file is refused with a notice and nothing else changes. *)
Lemma non_image_rejected (f : File) (s : State) :
  is_image_file f = false ->
  step s (EvSelectFile f)
  = Some (set_alerts ("Please upload an image file"%string :: alerts s) s).
Proof. intros H. cbn. rewrite handleFile_not_image by exact H. reflexivity. Qed.

(** ** Failure of a removal request *)

(** When the [fetch] of a removal request fails (it rejects, the status is
    not ok, or the body cannot be read), the [catch] block shows the failure
    notice, clears the processing flag, hides the loading overlay and enables
    the three controls, all in one step; the cutout variable, the image and
    the slider values are as before. *)
Lemma request_failure_restores_controls
    (s s' : State) (req : nat) (o : FetchOutcome) :
  o <> ResponseOk ->
  step s (EvFetchSettled req o) = Some s' ->
  alerts s' = failure_notice :: alerts s
  /\ isProcessing s' = false
  /\ loadingHidden s' = true
  /\ blurDisabled s' = false /\ grainDisabled s' = false
  /\ downloadDisabled s' = false
  /\ maskImage s' = maskImage s
  /\ (maskImage s = None -> maskImage s' = None)
  /\ originalImage s' = originalImage s
  /\ currentFile s' = currentFile s
  /\ blurValue s' = blurValue s /\ grainValue s' = grainValue s
  /\ frames s' = frames s.
Proof.
  intros Ho. cbn [step].
  destruct (request_file req (inFlight s)) as [file|]; [|discriminate].
  intros [= <-].
  destruct o; try congruence; cbn; repeat split; auto.
Qed.

(** A request that is in flight can always fail, and then does the above. *)
Lemma request_failure_delivered (s : State) (req : nat) (file : File)
    (o : FetchOutcome) :
  In (req, file) (inFlight s) ->
  exists s', step s (EvFetchSettled req o) = Some s'.
Proof.
  intros Hin. cbn [step]. unfold request_file.
  destruct (List.find _ (inFlight s)) as [p|] eqn:Hf; [eexists; reflexivity|].
  exfalso. apply (find_none _ _ Hf) in Hin. cbn in Hin.
  rewrite Nat.eqb_refl in Hin. discriminate.
Qed.

(** When the cutout image cannot be decoded, no code of the script runs and
    nothing that the user sees changes. *)
Lemma mask_error_changes_nothing (s s' : State) (req : nat) :
  step s (EvMaskError req) = Some s' ->
  alerts s' = alerts s /\ isProcessing s' = isProcessing s
  /\ loadingHidden s' = loadingHidden s
  /\ blurDisabled s' = blurDisabled s /\ grainDisabled s' = grainDisabled s
  /\ downloadDisabled s' = downloadDisabled s
  /\ maskImage s' = maskImage s /\ frames s' = frames s.
Proof.
  cbn [step]. destruct (List.existsb _ _); [|discriminate].
  intros [= <-]. cbn. repeat split.
Qed.

Lemma run_cutout_undecodable :
  run cutout_undecodable initial = Some st_cutout_undecodable.
Proof. vm_compute. reflexivity. Qed.

(** C9 (the execution on which the script departs from it).  The answer to
    the request arrives with an ok status, but its body is not an image that
    can be decoded.  The script has set no [onerror] on the cutout image, so
    this failure of the removal shows no notice and restores nothing: the
    processing flag stays set, the overlay stays shown, the three controls
    stay disabled and the cutout variable holds the broken image.  Nothing is
    left in progress, and the only event that can still be delivered is the
    selection of a file. *)
Theorem undecodable_cutout_locks_editor :
  exists s,
    run cutout_undecodable initial = Some s
    /\ alerts s = []
    /\ isProcessing s = true
    /\ loadingHidden s = false
    /\ blurDisabled s = true /\ grainDisabled s = true
    /\ downloadDisabled s = true
    /\ maskImage s = Some (mkCutout 0 photoA)
    /\ maskBroken s = [0%nat]
    /\ inFlight s = [] /\ maskDecoding s = [] /\ decoding s = []
    /\ forall e s', step s e = Some s' -> exists f, e = EvSelectFile f.
Proof.
  exists st_cutout_undecodable.
  split; [exact run_cutout_undecodable|].
  do 11 (split; [reflexivity|]).
  intros e s' H. destruct e; cbn in H; try discriminate H.
  eexists. reflexivity.
Qed.

(** ** A cutout that arrives for a superseded image *)

(** Whatever file is current, the answer to a request becomes the cutout. *)
Lemma settled_ok_stores_cutout (s s' : State) (req : nat) :
  step s (EvFetchSettled req ResponseOk) = Some s' ->
  exists file, In (req, file) (inFlight s)
               /\ maskImage s' = Some (mkCutout req file)
               /\ currentFile s' = currentFile s
               /\ originalImage s' = originalImage s.
Proof.
  cbn [step]. unfold request_file.
  destruct (List.find _ (inFlight s)) as [[r file]|] eqn:Hf; [|discriminate].
  intros [= <-]. apply find_some in Hf as [Hin Heq]. cbn in Heq.
  apply Nat.eqb_eq in Heq. subst r.
  exists file. cbn. repeat split; auto.
Qed.

(** C1 (the execution on which the script departs from it).  Photo A is
    loaded and a request for its cutout is in flight; photo B is uploaded and
    installed; then the answer for A arrives.  It is stored as the current
    cutout and the frame rendered next draws A's cutout over B. *)
Theorem late_cutout_is_applied :
  exists s0 s frame,
    run superseded initial = Some s0
    /\ originalImage s0 = Some (mkImage photoB 640 480)
    /\ maskImage s0 = None
    /\ inFlight s0 = [(0%nat, photoA)]
    /\ run [EvFetchSettled 0%nat ResponseOk; EvMaskLoaded 0%nat] s0 = Some s
    /\ originalImage s = Some (mkImage photoB 640 480)
    /\ currentFile s = Some photoB
    /\ maskImage s = Some (mkCutout 0 photoA)
    /\ head (frames s) = Some frame
    /\ frame = [ ClearRect MainCanvas 0 0 640 480;
                 DrawImage5 MainCanvas (SrcImage (mkImage photoB 640 480))
                   0 0 640 480;
                 DrawImage5 MainCanvas (SrcCutout (mkCutout 0 photoA))
                   0 0 640 480 ].
Proof.
  exists st_superseded, st_late_cutout. eexists.
  split; [exact run_superseded|].
  split; [reflexivity|]. split; [reflexivity|]. split; [reflexivity|].
  split; [vm_compute; reflexivity|].
  cbn. repeat split; reflexivity.
Qed.

(** ** At most one request at a time *)

(** C2 (counterexample).  After an upload during a request, raising the blur
    slider starts a second request while the first is still in flight. *)
Lemma two_requests_in_flight :
  exists s,
    run second_request initial = Some s
    /\ inFlight s = [(0%nat, photoA); (1%nat, photoB)]
    /\ (1 < length (inFlight s))%nat.
Proof.
  eexists. split; [exact run_second_request|]. cbn. split; [reflexivity|lia].
Qed.

(** ** Invariants of executions *)

Lemma existsb_nonempty {A : Type} (p : A -> bool) (l : list A) :
  existsb p l = true -> l <> [].
Proof. destruct l; [discriminate | congruence]. Qed.

Lemma request_file_nonempty (req : nat) (l : list (nat * File)) (f : File) :
  request_file req l = Some f -> l <> [].
Proof. destruct l; [discriminate | congruence]. Qed.

Lemma app_nonempty {A : Type} (l : list A) (x : A) : l ++ [x] <> [].
Proof. destruct l; discriminate. Qed.

Ltac open_step H :=
  cbn [step] in H;
  repeat match type of H with
    | (if ?c then _ else _) = Some _ =>
        destruct c eqn:?; [|try discriminate H]
    | match ?c with Some _ => _ | None => _ end = Some _ =>
        destruct c eqn:?; [|try discriminate H]
    end;
  try discriminate H;
  injection H as <-.

Ltac break_step H :=
  match type of H with
  | step _ ?e = Some _ => destruct e; open_step H
  end.

Ltac unfold_handlers :=
  unfold handleFile, img_onload, on_blur_input, on_grain_input, mask_onload,
    removeBackground_settled, removeBackground, downloadImage, render,
    drawImage_throws, enableControls, setLoading, push_frame, alert in *.

(* case analysis on the tests of the goal, innermost first *)
Ltac break_ifs :=
  repeat match goal with
    | |- context [match ?c with _ => _ end] =>
        lazymatch c with
        | context [match _ with _ => _ end] => fail
        | _ => destruct c eqn:?; cbn in *
        end
    end.

Ltac bool_facts :=
  repeat match goal with
    | H : _ && _ = true |- _ => apply andb_true_iff in H as [? ?]
    | H : negb _ = true |- _ => apply negb_true_iff in H
    | H : negb _ = false |- _ => apply negb_false_iff in H
    | H : existsb _ _ = true |- _ => apply existsb_nonempty in H
    | H : request_file _ _ = Some _ |- _ => apply request_file_nonempty in H
    | H : _ || false = true |- _ => rewrite orb_false_r in H
    | H : (_ =? _)%nat = true |- _ => apply Nat.eqb_eq in H; subst
    end.

Lemma cons_nonempty {A : Type} (x : A) (l : list A) : x :: l <> [].
Proof. discriminate. Qed.

Ltac use_nonempty :=
  repeat match goal with
    | H : _ :: _ <> [] \/ _ -> _ |- _ =>
        specialize (H (or_introl (cons_nonempty _ _)))
    | H : _ \/ _ :: _ <> [] -> _ |- _ =>
        specialize (H (or_intror (cons_nonempty _ _)))
    | H : _ :: _ <> [] -> _ |- _ => specialize (H (cons_nonempty _ _))
    | H : [] <> [] \/ [] <> [] -> _ |- _ => clear H
    | H : [] <> [] -> _ |- _ => clear H
    end.

Ltac hyp_cases :=
  repeat match goal with
    | H : present ?m = false |- _ => destruct m; [discriminate H | clear H]
    | H : present ?m = true |- _ => destruct m; [clear H | discriminate H]
    | H : context [if (?a =? ?b)%nat then _ else _] |- _ =>
        destruct (a =? b)%nat eqn:?; cbn in *; try discriminate
    end.

Lemma loaded_inv_initial : loaded_inv initial.
Proof. unfold loaded_inv. cbn. repeat split; intros; try congruence. tauto. Qed.

Lemma loaded_inv_step (s s' : State) (e : Event) :
  loaded_inv s -> step s e = Some s' -> loaded_inv s'.
Proof.
  intros (Ha & Hb & Hc & Hd) H. break_step H.
  all: destruct s; cbn in *.
  all: unfold loaded_inv.
  all: unfold_handlers; cbn in *; break_ifs; bool_facts.
  all: repeat split; intros; try congruence; try tauto.
Qed.

Lemma loaded_inv_reachable (s : State) : reachable s -> loaded_inv s.
Proof.
  intros [evs Hrun]. revert s Hrun.
  induction evs as [|e evs IH] using rev_ind; intros s Hrun.
  - injection Hrun as <-. apply loaded_inv_initial.
  - rewrite run_app in Hrun.
    destruct (run evs initial) as [s1|] eqn:H1; [|discriminate].
    cbn in Hrun. destruct (step s1 e) as [s2|] eqn:H2; [|discriminate].
    injection Hrun as <-. eapply loaded_inv_step; eauto.
Qed.

Lemma one_at_a_time_initial : one_at_a_time initial.
Proof. unfold one_at_a_time. cbn. repeat split; try lia; tauto. Qed.

Lemma one_at_a_time_step (s s' : State) (e : Event) :
  one_at_a_time s -> upload_is_idle s e -> step s e = Some s' ->
  one_at_a_time s'.
Proof.
  intros (Ha & Hb & Hc) Hup H. break_step H.
  all: destruct s; cbn in *; unfold is_image_file in *.
  all: destruct inFlight0 as [|[r0 f0] [|? ?]];
    destruct maskDecoding0 as [|m0 [|? ?]]; cbn in *; try lia.
  all: use_nonempty.
  all: unfold one_at_a_time.
  all: unfold_handlers; unfold request_file, drop_request, drop_nat in *;
    cbn in *; bool_facts; rewrite ?Nat.eqb_refl in *; cbn in *;
    break_ifs; bool_facts.
  all: hyp_cases.
  all: repeat split; cbn; try lia; intros; try congruence; try tauto.
  all: try (intuition congruence).
Qed.

Lemma one_at_a_time_run (evs : list Event) (s0 s : State) :
  one_at_a_time s0 -> uploads_when_idle evs s0 -> run evs s0 = Some s ->
  one_at_a_time s.
Proof.
  revert s0. induction evs as [|e evs IH]; intros s0 Hinv Hidle Hrun.
  - injection Hrun as <-. exact Hinv.
  - cbn in Hrun, Hidle. destruct Hidle as [Hup Hrest].
    destruct (step s0 e) as [s1|] eqn:Hstep; [|discriminate].
    apply (IH s1); try assumption.
    eapply one_at_a_time_step; eauto.
Qed.

(** While the flag is set, no event makes a [fetch] call. *)
Lemma no_request_while_processing (s s' : State) (e : Event) :
  isProcessing s = true -> step s e = Some s' ->
  nextRequest s' = nextRequest s.
Proof.
  intros Hp H. break_step H.
  all: destruct s; cbn in *; subst.
  all: unfold_handlers; cbn in *; break_ifs; congruence.
Qed.

(** C2 (as amended).  While the processing flag is set no event starts a
    request; and in every execution in which no image file is selected while
    the flag is set, at every point at most one request is in flight and the
    flag is set while it is. *)
Theorem one_request_at_a_time (evs : list Event) (s : State) :
  uploads_when_idle evs initial ->
  run evs initial = Some s ->
  (length (inFlight s) <= 1)%nat
  /\ (inFlight s <> [] -> isProcessing s = true)
  /\ (forall e s', isProcessing s = true -> step s e = Some s' ->
                   nextRequest s' = nextRequest s).
Proof.
  intros Hidle Hrun.
  destruct (one_at_a_time_run evs initial s one_at_a_time_initial Hidle Hrun)
    as (Hlen & Hflag & _).
  split; [lia|]. split; [tauto|].
  intros e s' Hp Hstep. eapply no_request_while_processing; eauto.
Qed.

Lemma one_request_at_a_time_witness :
  uploads_when_idle awaiting_cutout initial
  /\ run awaiting_cutout initial = Some st_awaiting
  /\ (length (inFlight st_awaiting) <= 1)%nat
  /\ (inFlight st_awaiting <> [] -> isProcessing st_awaiting = true).
Proof.
  assert (Hidle : uploads_when_idle awaiting_cutout initial)
    by (cbn; repeat split).
  split; [exact Hidle|]. split; [exact run_awaiting|].
  destruct (one_request_at_a_time awaiting_cutout st_awaiting Hidle run_awaiting)
    as (Hlen & Hflag & _).
  split; assumption.
Defined.

(** ** When a removal request is issued *)

Lemma other_events_no_request (s s' : State) (e : Event) :
  (forall v, e <> EvBlurInput v) -> step s e = Some s' ->
  nextRequest s' = nextRequest s
  /\ (forall p, In p (inFlight s') -> In p (inFlight s)).
Proof.
  intros Hne H. break_step H; try (exfalso; eapply Hne; reflexivity).
  all: destruct s; cbn in *.
  all: unfold_handlers; unfold drop_request; cbn in *; break_ifs.
  all: split; [reflexivity|]; cbn; intros p Hp; try assumption.
  all: apply List.filter_In in Hp; tauto.
Qed.

Lemma grain_input_no_request (s s' : State) (v : Z) :
  step s (EvGrainInput v) = Some s' ->
  nextRequest s' = nextRequest s /\ inFlight s' = inFlight s.
Proof.
  intros H. open_step H.
  destruct s; cbn in *; unfold_handlers; cbn; break_ifs; split; reflexivity.
Qed.

(** In a state without cutout and with an image installed, [render]
    throws exactly when the grain is on and the canvas has no area. *)
Lemma render_completion_no_cutout (s : State) :
  maskImage s = None -> originalImage s <> None ->
  snd (render s)
  = if (0 <? grainValue s)
       && getImageData_throws (canvasWidth s) (canvasHeight s)
    then Throws else Returns.
Proof.
  intros Hm Ho. unfold render.
  destruct (originalImage s); [|congruence].
  rewrite Hm. reflexivity.
Qed.

Lemma blur_input_request (s s' : State) (v : Z) :
  loaded_inv s -> step s (EvBlurInput v) = Some s' ->
  (qualifies s (EvBlurInput v)
   /\ snd (render (set_blurValue v s)) = Returns
   /\ nextRequest s' = S (nextRequest s)
   /\ exists file, currentFile s = Some file
                   /\ inFlight s' = inFlight s ++ [(nextRequest s, file)])
  \/ (~ (qualifies s (EvBlurInput v)
         /\ snd (render (set_blurValue v s)) = Returns)
      /\ nextRequest s' = nextRequest s /\ inFlight s' = inFlight s).
Proof.
  intros (Ha & _ & Hc & _) H. open_step H. bool_facts.
  destruct s; cbn in *; subst.
  specialize (Hc eq_refl). specialize (Ha Hc).
  destruct originalImage0 as [img|]; [clear Hc | congruence].
  destruct currentFile0 as [file|]; [clear Ha | congruence].
  unfold_handlers; unfold qualifies; cbn.
  destruct maskImage0 as [c|]; cbn.
  - (* a cutout is held: no request, whether the draw of it throws or not *)
    right. split; [intros [(v' & _ & _ & Hm & _) _]; discriminate|].
    destruct (List.existsb _ maskBroken0); cbn; [split; reflexivity|].
    destruct ((0 <? grainValue0)
              && getImageData_throws canvasWidth0 canvasHeight0); cbn;
      [split; reflexivity|].
    destruct (0 <? v); cbn; split; reflexivity.
  - destruct ((0 <? grainValue0)
              && getImageData_throws canvasWidth0 canvasHeight0); cbn.
    + right. split; [intros [_ Hr]; discriminate | split; reflexivity].
    + destruct (0 <? v) eqn:Hv, isProcessing0; cbn.
      all: first
        [ left; split;
          [ exists v; apply Z.ltb_lt in Hv; repeat split; congruence
          | split; [reflexivity|]; split;
            [reflexivity | exists file; split; reflexivity] ]
        | right; split;
          [ intros [(v' & [= <-] & Hv' & Hm & Hp & _) _];
            apply Z.ltb_ge in Hv || idtac; first [congruence | lia]
          | split; reflexivity ] ].
Qed.

(** From a reachable state, handling an event issues a removal request
    exactly when the event is an input of the blur slider with a value above
    0 while no cutout is held, the processing flag is clear and an image is
    installed, AND the render that the listener runs first returns; it then
    issues exactly one, for the current file.  An input of the grain slider
    issues none. *)
Lemma request_iff_blur_render_returns (s s' : State) (e : Event) :
  reachable s -> step s e = Some s' ->
  ((qualifies s e
    /\ (forall v, e = EvBlurInput v ->
                  snd (render (set_blurValue v s)) = Returns)
    /\ nextRequest s' = S (nextRequest s)
    /\ exists file, currentFile s = Some file
                    /\ inFlight s' = inFlight s ++ [(nextRequest s, file)])
   \/ (~ (qualifies s e
          /\ forall v, e = EvBlurInput v ->
                       snd (render (set_blurValue v s)) = Returns)
       /\ nextRequest s' = nextRequest s
       /\ forall p, In p (inFlight s') -> In p (inFlight s)))
  /\ (forall v, e = EvGrainInput v ->
                nextRequest s' = nextRequest s /\ inFlight s' = inFlight s).
Proof.
  intros Hreach Hstep. split.
  - destruct e as [f|f w h|f|v|v| |req o|req|req].
    4: { destruct (blur_input_request s s' v
                     (loaded_inv_reachable s Hreach) Hstep)
           as [(Hq & Hr & Hn & Hf)|(Hq & Hn & Hf)].
         - left. split; [exact Hq|]. split; [|split; assumption].
           intros v' [= <-]. exact Hr.
         - right. split.
           + intros [Hq1 Hq2]. apply Hq. split; [exact Hq1|].
             apply Hq2. reflexivity.
           + split; [exact Hn|]. now rewrite Hf. }
    all: right; split;
      [ intros [(v' & Heq & _) _]; discriminate
      | eapply other_events_no_request; [|exact Hstep]; intros v'; discriminate ].
  - intros v ->. apply (grain_input_no_request s s' v Hstep).
Qed.

Lemma run_ready :
  run [EvSelectFile photoA; EvImageLoaded photoA 800 600] initial
  = Some st_ready.
Proof. vm_compute. reflexivity. Qed.

Lemma run_thin_with_grain :
  run thin_with_grain initial = Some st_thin_with_grain.
Proof. vm_compute. reflexivity. Qed.

(** C3 (the execution on which the script departs from it).  A 1921 x 1
    image is scaled to a height below one pixel, so the canvas is 1920 x 0;
    the grain slider is at 10.  An input 5 of the blur slider then qualifies
    (no cutout, flag clear, image installed), but the render that the listener
    runs first throws in [getImageData], the listener ends there, and no
    request is issued: nothing is in flight and the flag stays clear. *)
Theorem qualifying_blur_without_request :
  exists s s',
    run thin_with_grain initial = Some s
    /\ originalImage s = Some (mkImage thinPhoto 1921 1)
    /\ canvasWidth s = 1920 /\ canvasHeight s = 0 /\ grainValue s = 10
    /\ blurDisabled s = false
    /\ qualifies s (EvBlurInput 5)
    /\ snd (render (set_blurValue 5 s)) = Throws
    /\ step s (EvBlurInput 5) = Some s'
    /\ blurValue s' = 5
    /\ nextRequest s' = nextRequest s
    /\ inFlight s' = [] /\ isProcessing s' = false
    /\ maskImage s' = None.
Proof.
  exists st_thin_with_grain. eexists.
  split; [exact run_thin_with_grain|].
  split; [reflexivity|]. split; [reflexivity|]. split; [reflexivity|].
  split; [reflexivity|]. split; [reflexivity|].
  split; [exists 5; repeat split; (lia || discriminate)|].
  split; [reflexivity|].
  split; [vm_compute; reflexivity|].
  cbn. repeat split.
Qed.

(** ** What can store a cutout *)

(** Only the answer to a removal request stores a cutout: across any other
    event an absent cutout stays absent. *)
Lemma only_response_stores_cutout (s s' : State) (e : Event) :
  maskImage s = None ->
  (forall req, e <> EvFetchSettled req ResponseOk) ->
  step s e = Some s' ->
  maskImage s' = None.
Proof.
  intros Hm Hne H. break_step H.
  all: destruct s; cbn in *; subst.
  all: unfold_handlers; cbn in *; break_ifs; try reflexivity.
  all: exfalso; eapply Hne; reflexivity.
Qed.

(** ** The background layer *)

(** The frame of a render that gets past the draw of the cutout; the call
    of [generateGrain] is its last one, whether it throws or not. *)
Lemma render_frame (s : State) (img : Image) :
  originalImage s = Some img ->
  drawImage_throws (maskImage s) (maskBroken s) = false ->
  frames (fst (render s))
  = render_ops img (maskImage s) (blurValue s) (grainValue s)
      (canvasWidth s) (canvasHeight s) :: frames s.
Proof. intros H Hb. unfold render. rewrite H, Hb. reflexivity. Qed.

(** The frame of a render that throws at the draw of a broken cutout: the
    grain pass is not reached. *)
Lemma render_frame_broken (s : State) (img : Image) :
  originalImage s = Some img ->
  drawImage_throws (maskImage s) (maskBroken s) = true ->
  render s
  = (push_frame
       (render_ops_to_cutout img (maskImage s) (blurValue s)
          (canvasWidth s) (canvasHeight s)) s, Throws).
Proof. intros H Hb. unfold render. rewrite H, Hb. reflexivity. Qed.

(** Such a frame is the frame of a render without grain, so what holds of
    every [render_ops] holds of it. *)
Lemma render_ops_to_cutout_no_grain (img : Image) (mask : option Cutout)
    (r w h : Z) :
  render_ops_to_cutout img mask r w h = render_ops img mask r 0 w h.
Proof.
  unfold render_ops_to_cutout, render_ops. cbn [drawGrain Z.ltb Z.compare].
  rewrite app_nil_r. reflexivity.
Qed.

Lemma render_ops_blurred (img : Image) (c : Cutout) (r g w h : Z) :
  0 < r ->
  render_ops img (Some c) r g w h
  = ClearRect MainCanvas 0 0 w h
    :: blurredBackground img r w h
    ++ [DrawImage5 MainCanvas (SrcCutout c) 0 0 w h]
    ++ drawGrain g w h.
Proof.
  intros Hr. unfold render_ops, drawBackground, drawForeground.
  apply Z.ltb_lt in Hr. rewrite Hr. reflexivity.
Qed.

(** For an image shown at its natural size the background is padded as the
    specification describes: centre, four stretched edge strips, four corner
    pixels, blur, and the copy at (-pad, -pad). *)
Lemma blurredBackground_natural_size (img : Image) (r : Z) :
  blurredBackground img r (img_width img) (img_height img)
  = edgeClampedBackground_spec img r (img_width img) (img_height img).
Proof. reflexivity. Qed.

Lemma display_size_small (w0 h0 : Z) :
  w0 <= MAX_IMAGE_WIDTH -> display_size w0 h0 = (w0, inject_Z h0).
Proof.
  intros H. unfold display_size.
  destruct (MAX_IMAGE_WIDTH <? w0) eqn:E; [|reflexivity].
  apply Z.ltb_lt in E. lia.
Qed.

(** A 3000 x 2000 image is shown at 1920 x 1280. *)
Example display_size_wide :
  fst (display_size 3000 2000) = 1920
  /\ truncate (snd (display_size 3000 2000)) = 1280.
Proof. split; reflexivity. Qed.

Lemma truncate_inject_Z (z : Z) : truncate (inject_Z z) = z.
Proof.
  unfold truncate. destruct (Qle_bool 0 (inject_Z z)).
  - apply Qfloor_Z.
  - apply Qceiling_Z.
Qed.

(** An image no wider than the maximum is shown at its natural size, so
    the frames rendered for it are padded as the specification describes. *)
Lemma img_onload_natural_size (img : Image) (s : State) :
  img_width img <= MAX_IMAGE_WIDTH ->
  canvasWidth (img_onload img s) = img_width img
  /\ canvasHeight (img_onload img s) = img_height img.
Proof.
  intros H. unfold img_onload. rewrite (display_size_small _ _ H). cbn.
  split; [reflexivity | apply truncate_inject_Z].
Qed.

(** Everything but the source rectangles agrees with the specification at
    any size: the surface, the pad, the centre, the destinations, the blur
    and the final copy. *)
Lemma blurredBackground_shape (img : Image) (r w h : Z) :
  let pad := Z.min (r * 3) 100 in
  exists top bottom left right tl tr bl br : Rect,
    blurredBackground img r w h
    = Resize Offscreen (w + pad * 2) (h + pad * 2)
      :: DrawImage5 Offscreen (SrcImage img) pad pad w h
      :: [ stretch Offscreen (SrcImage img) top (padding_band w h pad Top);
           stretch Offscreen (SrcImage img) bottom (padding_band w h pad Bottom);
           stretch Offscreen (SrcImage img) left (padding_band w h pad Left);
           stretch Offscreen (SrcImage img) right (padding_band w h pad Right);
           stretch Offscreen (SrcImage img) tl (padding_corner w h pad TopLeft);
           stretch Offscreen (SrcImage img) tr (padding_corner w h pad TopRight);
           stretch Offscreen (SrcImage img) bl
             (padding_corner w h pad BottomLeft);
           stretch Offscreen (SrcImage img) br
             (padding_corner w h pad BottomRight);
           SetFilter MainCanvas (FilterBlur r);
           DrawImage3 MainCanvas SrcOffscreen (- pad) (- pad);
           SetFilter MainCanvas FilterNone ]
    /\ top = mkRect 0 0 w 1 /\ bottom = mkRect 0 (h - 1) w 1
    /\ left = mkRect 0 0 1 h /\ right = mkRect (w - 1) 0 1 h
    /\ tl = mkRect 0 0 1 1 /\ tr = mkRect (w - 1) 0 1 1
    /\ bl = mkRect 0 (h - 1) 1 1 /\ br = mkRect (w - 1) (h - 1) 1 1.
Proof.
  intros pad. do 8 eexists. split; [|repeat split; reflexivity]. reflexivity.
Qed.

Lemma run_with_cutout_wide :
  run with_cutout_wide initial = Some st_with_cutout_wide.
Proof. vm_compute. reflexivity. Qed.

(** C4 (the input on which the script departs from it).  A 3000 x 2000 photo
    is shown on a 1920 x 1280 canvas; with its cutout present and the blur at
    5 the frame pads by 15 and blurs as described, but the right band is
    stretched from column 1919 of the photo, rows 0 to 1279, and the bottom
    band from row 1279, columns 0 to 1919: the script uses the canvas size
    as if it were the size of the source, so these are not the outermost
    strips (column 2999, row 1999) of the source. *)
Theorem clamped_strips_of_scaled_image :
  exists frame,
    run with_cutout_wide initial = Some st_with_cutout_wide
    /\ head (frames st_with_cutout_wide) = Some frame
    /\ canvasWidth st_with_cutout_wide = 1920
    /\ canvasHeight st_with_cutout_wide = 1280
    /\ frame = ClearRect MainCanvas 0 0 1920 1280
               :: blurredBackground widePhoto 5 1920 1280
               ++ [DrawImage5 MainCanvas (SrcCutout (mkCutout 0 photoA))
                     0 0 1920 1280]
    /\ In (stretch Offscreen (SrcImage widePhoto) (mkRect 1919 0 1 1280)
             (padding_band 1920 1280 15 Right)) frame
    /\ In (stretch Offscreen (SrcImage widePhoto) (mkRect 0 1279 1920 1)
             (padding_band 1920 1280 15 Bottom)) frame
    /\ edge_strip widePhoto Right = mkRect 2999 0 1 2000
    /\ edge_strip widePhoto Bottom = mkRect 0 1999 3000 1
    /\ ~ In (stretch Offscreen (SrcImage widePhoto)
               (edge_strip widePhoto Right)
               (padding_band 1920 1280 15 Right)) frame
    /\ ~ In (stretch Offscreen (SrcImage widePhoto)
               (edge_strip widePhoto Bottom)
               (padding_band 1920 1280 15 Bottom)) frame
    /\ blurredBackground widePhoto 5 1920 1280
       <> edgeClampedBackground_spec widePhoto 5 1920 1280.
Proof.
  eexists. split; [exact run_with_cutout_wide|].
  split; [reflexivity|]. split; [reflexivity|]. split; [reflexivity|].
  split; [reflexivity|].
  split; [cbn; tauto|]. split; [cbn; tauto|].
  split; [reflexivity|]. split; [reflexivity|].
  split; [|split].
  - cbn. intros H. repeat destruct H as [H|H]; try discriminate H. exact H.
  - cbn. intros H. repeat destruct H as [H|H]; try discriminate H. exact H.
  - cbn. discriminate.
Qed.

Lemma painted_blurredBackground (img : Image) (r w h ow oh : Z) :
  painted ow oh (blurredBackground img r w h)
  = [mkRect (- Z.min (r * 3) 100) (- Z.min (r * 3) 100)
       (w + Z.min (r * 3) 100 * 2) (h + Z.min (r * 3) 100 * 2)].
Proof. reflexivity. Qed.

(** C5.  For every image, cutout state, canvas size w x h and radius r >= 0
    the background layer is painted once and what falls on the canvas is
    exactly the w x h rectangle at the origin; for r = 0 no filter is set and
    the layer is the plain draw of the source image over the canvas. *)
Theorem background_layer_size (img : Image) (mask : option Cutout)
    (r w h ow oh : Z) :
  0 <= r -> 0 <= w -> 0 <= h ->
  map (clip w h) (painted ow oh (drawBackground img mask r w h))
  = [mkRect 0 0 w h]
  /\ (r = 0 ->
      drawBackground img mask r w h
      = [DrawImage5 MainCanvas (SrcImage img) 0 0 w h]
      /\ filters_set (drawBackground img mask r w h) = []).
Proof.
  intros Hr Hw Hh. split.
  - unfold drawBackground.
    destruct mask as [c|]; [destruct (0 <? r) eqn:E|].
    + rewrite painted_blurredBackground. cbn [map]. unfold clip. cbn [rx ry rw rh].
      f_equal. f_equal; lia.
    + cbn. unfold clip. cbn. f_equal. f_equal; lia.
    + cbn. unfold clip. cbn. f_equal. f_equal; lia.
  - intros ->. unfold drawBackground. destruct mask; split; reflexivity.
Qed.

Lemma background_layer_size_witness :
  0 <= 5 /\ 0 <= 1920 /\ 0 <= 1280
  /\ map (clip 1920 1280)
       (painted 300 150
          (drawBackground widePhoto (Some (mkCutout 0 photoA)) 5 1920 1280))
     = [mkRect 0 0 1920 1280].
Proof.
  split; [lia|]. split; [lia|]. split; [lia|].
  apply (background_layer_size widePhoto (Some (mkCutout 0 photoA))
           5 1920 1280 300 150); lia.
Defined.

(** ** Clamped storage *)

(** What is stored is a byte. *)
Lemma toUint8Clamp_byte (q : Q) : is_byte (toUint8Clamp q).
Proof.
  unfold toUint8Clamp, is_byte.
  destruct (Qle_bool q 0) eqn:E0; [lia|].
  destruct (Qle_bool 255 q) eqn:E1; [lia|].
  assert (H0 : (0 < q)%Q).
  { apply Qnot_le_lt. intros H. apply Qle_bool_iff in H. congruence. }
  assert (H1 : (q < 255)%Q).
  { apply Qnot_le_lt. intros H. apply Qle_bool_iff in H. congruence. }
  pose proof (round_half_even_bounds q) as [Hlo Hhi].
  assert (0 <= Qfloor q).
  { change 0 with (Qfloor 0). apply Qfloor_resp_le. lra. }
  assert (Qfloor q < 255).
  { pose proof (Qfloor_le q) as Hf.
    assert (Hlt : (inject_Z (Qfloor q) < inject_Z 255)%Q) by
      (change (inject_Z 255) with 255%Q; lra).
    rewrite <- Zlt_Qlt in Hlt. exact Hlt. }
  lia.
Qed.

(** It saturates at both ends and rounds to the nearest integer between. *)
Lemma toUint8Clamp_saturates (q : Q) :
  ((q <= 0)%Q -> toUint8Clamp q = 0)
  /\ ((255 <= q)%Q -> toUint8Clamp q = 255)
  /\ ((0 <= q <= 255)%Q ->
      (inject_Z (toUint8Clamp q) - (1 # 2) <= q
       /\ q <= inject_Z (toUint8Clamp q) + (1 # 2))%Q).
Proof.
  unfold toUint8Clamp. split; [|split].
  - intros H. apply Qle_bool_iff in H. rewrite H. reflexivity.
  - intros H. destruct (Qle_bool q 0) eqn:E0.
    + apply Qle_bool_iff in E0. lra.
    + apply Qle_bool_iff in H. rewrite H. reflexivity.
  - intros [H0 H255].
    destruct (Qle_bool q 0) eqn:E0.
    { apply Qle_bool_iff in E0. change (inject_Z 0) with 0%Q. split; lra. }
    destruct (Qle_bool 255 q) eqn:E1.
    { apply Qle_bool_iff in E1. change (inject_Z 255) with 255%Q. split; lra. }
    apply round_half_even_near.
Qed.

Lemma round_half_even_Z (x : Z) : round_half_even (inject_Z x + 0) = x.
Proof.
  unfold round_half_even.
  assert (Hf : Qfloor (inject_Z x + 0) = x).
  { rewrite <- (Qfloor_Z x) at 2. apply Qfloor_comp. ring. }
  rewrite Hf.
  assert (E : (inject_Z x + 0 - inject_Z x ?= 1 # 2)%Q = Lt).
  { apply (proj1 (Qlt_alt _ _)). lra. }
  rewrite E. reflexivity.
Qed.

(** A byte plus a zero noise is stored unchanged. *)
Lemma toUint8Clamp_byte_id (x : Z) :
  is_byte x -> toUint8Clamp (inject_Z x + 0) = x.
Proof.
  intros [H0 H255]. unfold toUint8Clamp.
  destruct (Qle_bool (inject_Z x + 0) 0) eqn:E0.
  { apply Qle_bool_iff in E0.
    assert (Hx : (inject_Z x <= inject_Z 0)%Q) by (change (inject_Z 0) with 0%Q; lra).
    rewrite <- Zle_Qle in Hx. lia. }
  destruct (Qle_bool 255 (inject_Z x + 0)) eqn:E1.
  { apply Qle_bool_iff in E1.
    assert (Hx : (inject_Z 255 <= inject_Z x)%Q)
      by (change (inject_Z 255) with 255%Q; lra).
    rewrite <- Zle_Qle in Hx. lia. }
  apply round_half_even_Z.
Qed.

(** ** The grain loop, pixel by pixel *)

Lemma add_noise_cons (i : nat) (n : Q) (x : Z) (l : list Z) :
  add_noise (S i) n (x :: l) = x :: add_noise i n l.
Proof. unfold add_noise. cbn. destruct (l !! i); reflexivity. Qed.

Lemma add_noise_app (pre l : list Z) (j : nat) (n : Q) :
  add_noise (length pre + j) n (pre ++ l) = pre ++ add_noise j n l.
Proof.
  induction pre as [|x pre IH]; [reflexivity|].
  cbn [length Nat.add app]. rewrite add_noise_cons, IH. reflexivity.
Qed.

Lemma add_noise_beyond (l : list Z) (i : nat) (n : Q) :
  (length l <= i)%nat -> add_noise i n l = l.
Proof.
  intros H. unfold add_noise. rewrite (lookup_ge_None_2 l i H). reflexivity.
Qed.

Section GrainLoop.
Variable rand : nat -> Q.   (* the values returned by Math.random() *)
Variable st : Q.              (* the strength *)

Lemma grain_loop_beyond (fuel k i : nat) (data : list Z) :
  (length data <= i)%nat -> grain_loop rand st fuel k i data = data.
Proof.
  intros H. destruct fuel; [reflexivity|]. cbn [grain_loop].
  destruct (i <? length data)%nat eqn:E; [|reflexivity].
  apply Nat.ltb_lt in E. lia.
Qed.

Lemma list_ind4 (P : list Z -> Prop) :
  P [] -> (forall x, P [x]) -> (forall x y, P [x; y]) ->
  (forall x y z, P [x; y; z]) ->
  (forall r g b a rest, P rest -> P (r :: g :: b :: a :: rest)) ->
  forall l, P l.
Proof.
  intros H0 H1 H2 H3 H4.
  assert (Hn : forall n l, (length l <= n)%nat -> P l).
  { induction n as [|n IH]; intros l Hl.
    - destruct l; [exact H0 | cbn in Hl; lia].
    - destruct l as [|r [|g [|b [|a rest]]]]; auto.
      apply H4, IH. cbn in Hl. lia. }
  intros l. apply (Hn (length l)). lia.
Qed.

(** The loop, run on the part of the buffer that starts at index
    [length pre], does what the pixel-by-pixel description says; the bound
    [length data] on the iterations is never what stops it. *)
Lemma grain_loop_pixels :
  forall (fuel : nat) (rest pre : list Z) (k : nat),
    (length rest <= fuel)%nat ->
    grain_loop rand st fuel k (length pre) (pre ++ rest)
    = pre ++ grain_pixels rand st k rest.
Proof.
  induction fuel as [|fuel IH]; intros rest pre k Hlen.
  - destruct rest; [|cbn in Hlen; lia]. reflexivity.
  - cbn [grain_loop]. rewrite length_app.
    destruct rest as [|r rest].
    { replace (length pre <? length pre + length [])%nat with false
        by (symmetry; apply Nat.ltb_ge; cbn; lia). reflexivity. }
    replace (length pre <? length pre + length (r :: rest))%nat with true
      by (symmetry; apply Nat.ltb_lt; cbn; lia).
    set (n := ((rand k - (1 # 2)) * st)%Q).
    assert (E0 : add_noise (length pre) n (pre ++ r :: rest)
                 = pre ++ add_noise 0 n (r :: rest)).
    { rewrite <- (add_noise_app pre _ 0). f_equal. lia. }
    rewrite E0, !add_noise_app. clear E0.
    destruct rest as [|g [|b [|a rest]]].
    + unfold add_noise at 1 2 3. cbn.
      apply grain_loop_beyond. rewrite length_app. cbn. lia.
    + unfold add_noise at 1 2 3. cbn.
      apply grain_loop_beyond. rewrite length_app. cbn. lia.
    + unfold add_noise at 1 2 3. cbn.
      apply grain_loop_beyond. rewrite length_app. cbn. lia.
    + unfold add_noise at 1 2 3. cbn [lookup list_lookup insert list_insert].
      cbn [grain_pixels].
      specialize (IH rest
        (pre ++ [toUint8Clamp (inject_Z r + pixel_noise rand st k);
                 toUint8Clamp (inject_Z g + pixel_noise rand st k);
                 toUint8Clamp (inject_Z b + pixel_noise rand st k); a])
        (S k)).
      rewrite length_app in IH. cbn [length] in IH.
      rewrite <- !app_assoc in IH. cbn [app] in IH.
      unfold pixel_noise in *. fold n in IH |- *. rewrite IH; [reflexivity|].
      cbn in Hlen. lia.
Qed.

Lemma index_plus_4 (i : nat) :
  (S (S (S (S i))) mod 4 = i mod 4 /\ S (S (S (S i))) / 4 = S (i / 4))%nat.
Proof.
  replace (S (S (S (S i)))) with (i + 1 * 4)%nat by lia.
  rewrite Nat.Div0.mod_add, Nat.div_add by lia. split; lia.
Qed.

(** Entry [i] of the result: alpha entries (index 3 modulo 4) are copied,
    every other entry is the old value plus the noise of its pixel, stored
    through the clamped array. *)
Lemma grain_pixels_lookup (data : list Z) :
  forall (k i : nat),
    grain_pixels rand st k data !! i
    = match data !! i with
      | Some x =>
          Some (if (i mod 4 =? 3)%nat then x
                else toUint8Clamp
                       (inject_Z x + pixel_noise rand st (k + i / 4)))
      | None => None
      end.
Proof.
  induction data as [|x|x y|x y z|r g b a rest IH] using list_ind4;
    intros k i.
  - reflexivity.
  - destruct i as [|i]; [cbn; rewrite Nat.add_0_r; reflexivity | reflexivity].
  - destruct i as [|[|i]];
      [cbn; rewrite Nat.add_0_r; reflexivity .. | reflexivity].
  - destruct i as [|[|[|i]]];
      [cbn; rewrite Nat.add_0_r; reflexivity .. | reflexivity].
  - destruct i as [|[|[|[|i]]]];
      [cbn; rewrite ?Nat.add_0_r; reflexivity .. |].
    destruct (index_plus_4 i) as [Hm Hd]. rewrite Hm, Hd.
    cbn [grain_pixels]. change ((r :: g :: b :: a :: rest) !! S (S (S (S i))))
      with (rest !! i).
    match goal with
    | |- (?c1 :: ?c2 :: ?c3 :: a :: ?t) !! S (S (S (S i))) = _ =>
        change ((c1 :: c2 :: c3 :: a :: t) !! S (S (S (S i)))) with (t !! i)
    end.
    rewrite IH. replace (k + S (i / 4))%nat with (S k + i / 4)%nat by lia.
    reflexivity.
Qed.

Lemma grain_pixels_length (data : list Z) :
  forall k, length (grain_pixels rand st k data) = length data.
Proof.
  induction data as [|x|x y|x y z|r g b a rest IH] using list_ind4;
    intros k; try reflexivity.
  cbn [grain_pixels length]. rewrite IH. reflexivity.
Qed.

End GrainLoop.

(** [generateGrain] is the pixel-by-pixel pass. *)
Lemma generateGrain_pixels (rand : nat -> Q) (data : list Z) (intensity : Z) :
  generateGrain rand data intensity
  = grain_pixels rand (grain_strength intensity) 0 data.
Proof.
  unfold generateGrain.
  apply (grain_loop_pixels rand _ (length data) data [] 0%nat). lia.
Qed.



(** The grain step of [render] and the call it guards correspond. *)
Lemma drawGrain_applyGrain (rand : nat -> Q) (data : list Z) (g w h : Z) :
  (drawGrain g w h = [] /\ applyGrain rand data g = data)
  \/ (drawGrain g w h = [Grain w h g]
      /\ applyGrain rand data g = generateGrain rand data g).
Proof.
  unfold drawGrain, applyGrain. destruct (0 <? g); [right | left]; split;
    reflexivity.
Qed.



(** With intensity 0 the loop itself, were it called, would store every
    byte back unchanged. *)
Lemma generateGrain_zero (rand : nat -> Q) (data : list Z) :
  Forall is_byte data -> generateGrain rand data 0 = data.
Proof.
  intros Hb. rewrite generateGrain_pixels.
  apply list_eq. intros i. rewrite grain_pixels_lookup.
  destruct (data !! i) as [x|] eqn:E; [|reflexivity].
  destruct (i mod 4 =? 3)%nat; [reflexivity|]. f_equal.
  assert (Hx : is_byte x) by (eapply Forall_lookup_1; eauto).
  assert (Hn : (pixel_noise rand (grain_strength 0) (0 + i / 4) == 0)%Q).
  { unfold pixel_noise, grain_strength. change (inject_Z 0) with 0%Q. ring. }
  unfold toUint8Clamp.
  pose proof (toUint8Clamp_byte_id x Hx) as Hid. unfold toUint8Clamp in Hid.
  assert (Hq : (inject_Z x + pixel_noise rand (grain_strength 0) (0 + i / 4)
                == inject_Z x + 0)%Q) by (rewrite Hn; reflexivity).
  set (q := (inject_Z x + pixel_noise rand (grain_strength 0) (0 + i / 4))%Q)
    in *.
  assert (E0 : Qle_bool q 0 = Qle_bool (inject_Z x + 0) 0).
  { apply eq_true_iff_eq. rewrite !Qle_bool_iff, Hq. reflexivity. }
  assert (E1 : Qle_bool 255 q = Qle_bool 255 (inject_Z x + 0)).
  { apply eq_true_iff_eq. rewrite !Qle_bool_iff, Hq. reflexivity. }
  assert (E2 : round_half_even q = round_half_even (inject_Z x + 0)).
  { unfold round_half_even. rewrite (Qfloor_comp _ _ Hq).
    assert (Ec : (q - inject_Z (Qfloor (inject_Z x + 0)) ?= 1 # 2)%Q
                 = (inject_Z x + 0 - inject_Z (Qfloor (inject_Z x + 0))
                    ?= 1 # 2)%Q).
    { apply Qcompare_comp; [rewrite Hq|]; reflexivity. }
    rewrite Ec. reflexivity. }
  rewrite E0, E1, E2. exact Hid.
Qed.

Lemma pixel_index (j c : nat) :
  (c < 4)%nat ->
  ((4 * j + c) mod 4 = c /\ (4 * j + c) / 4 = j)%nat.
Proof.
  intros Hc. replace (4 * j + c)%nat with (c + j * 4)%nat by lia.
  rewrite Nat.Div0.mod_add, Nat.div_add by lia.
  rewrite Nat.mod_small, Nat.div_small by lia. split; lia.
Qed.


Lemma grain_lookup_alpha (rand : nat -> Q) (data : list Z) (g : Z) (i : nat) :
  (i mod 4 = 3)%nat ->
  generateGrain rand data g !! i = data !! i
  /\ applyGrain rand data g !! i = data !! i.
Proof.
  intros Hi.
  assert (Hgen : generateGrain rand data g !! i = data !! i).
  { rewrite generateGrain_pixels, grain_pixels_lookup, Hi. cbn.
    destruct (data !! i); reflexivity. }
  split; [exact Hgen|]. unfold applyGrain. destruct (0 <? g); auto.
Qed.

Lemma applyGrain_length (rand : nat -> Q) (data : list Z) (g : Z) :
  length (applyGrain rand data g) = length data.
Proof.
  unfold applyGrain. destruct (0 <? g); [|reflexivity].
  rewrite generateGrain_pixels. apply grain_pixels_length.
Qed.

(** C7.  Whatever the buffer and the intensity, the grain pass leaves every
    alpha entry (index 3 modulo 4) as it was, and the buffer keeps its
    length; only red, green and blue entries can change. *)
Theorem grain_keeps_alpha (rand : nat -> Q) (data : list Z) (g : Z) (i : nat) :
  (i mod 4 = 3)%nat ->
  applyGrain rand data g !! i = data !! i
  /\ generateGrain rand data g !! i = data !! i
  /\ length (applyGrain rand data g) = length data.
Proof.
  intros Hi. destruct (grain_lookup_alpha rand data g i Hi) as [Hgen Happ].
  split; [exact Happ|]. split; [exact Hgen|]. apply applyGrain_length.
Qed.

Lemma grain_keeps_alpha_witness :
  (7 mod 4 = 3)%nat
  /\ applyGrain quarter two_pixels 50 !! 7%nat = two_pixels !! 7%nat.
Proof.
  split; [reflexivity|].
  apply (grain_keeps_alpha quarter two_pixels 50 7). reflexivity.
Defined.

Lemma quarter_unit : forall k, (0 <= quarter k)%Q /\ (quarter k < 1)%Q.
Proof. intros k. unfold quarter. split; lra. Qed.

(** * Further properties of script.js *)

(** ** Invariants of every execution *)

Lemma reachable_invariant (P : State -> Prop) :
  P initial ->
  (forall s s' e, P s -> step s e = Some s' -> P s') ->
  forall s, reachable s -> P s.
Proof.
  intros Hinit Hstep s [evs Hrun]. revert s Hrun.
  induction evs as [|e evs IH] using rev_ind; intros s Hrun.
  - injection Hrun as <-. exact Hinit.
  - rewrite run_app in Hrun.
    destruct (run evs initial) as [s1|] eqn:H1; [|discriminate].
    cbn in Hrun. destruct (step s1 e) as [s2|] eqn:H2; [|discriminate].
    injection Hrun as <-.
    apply (Hstep s1 s2 e); [apply IH; reflexivity | exact H2].
Qed.

Lemma file_eqb_eq (a b : File) : file_eqb a b = true -> a = b.
Proof.
  unfold file_eqb. intros H. apply andb_true_iff in H as [Hn Ht].
  apply String.eqb_eq in Hn, Ht. destruct a, b; cbn in *. congruence.
Qed.

Lemma existsb_file_In (f : File) (l : list File) :
  List.existsb (file_eqb f) l = true -> In f l.
Proof.
  intros H. apply List.existsb_exists in H as (g & Hin & Heq).
  apply file_eqb_eq in Heq. subst g. exact Hin.
Qed.

Lemma remove_file_Forall (P : File -> Prop) (f : File) (l : list File) :
  Forall P l -> Forall P (remove_file f l).
Proof.
  induction 1 as [|g l Hg Hl IH]; cbn; [constructor|].
  destruct (file_eqb f g); [exact Hl | constructor; assumption].
Qed.

Lemma request_file_In (req : nat) (l : list (nat * File)) (f : File) :
  request_file req l = Some f -> In (req, f) l.
Proof.
  unfold request_file.
  destruct (List.find _ l) as [[r g]|] eqn:E; [|discriminate].
  intros [= <-]. apply List.find_some in E as [Hin Heq]. cbn in Heq.
  apply Nat.eqb_eq in Heq. subst r. exact Hin.
Qed.

Lemma drop_request_Forall (P : nat * File -> Prop) (req : nat)
    (l : list (nat * File)) :
  Forall P l -> Forall P (drop_request req l).
Proof.
  intros H. apply List.Forall_forall. intros p Hp.
  apply List.filter_In in Hp as [Hp _].
  revert p Hp. apply List.Forall_forall. exact H.
Qed.

Lemma images_only_initial : images_only initial.
Proof.
  unfold images_only. cbn. repeat split; try constructor; intros; discriminate.
Qed.

Lemma images_only_step (s s' : State) (e : Event) :
  images_only s -> step s e = Some s' -> images_only s'.
Proof.
  intros (Hd & Hf & Hc & Ho & Hm) H. destruct e.
  - (* a file is selected *)
    open_step H. destruct (is_image_file f) eqn:Hi.
    + rewrite handleFile_image by exact Hi. unfold images_only. cbn.
      repeat split; auto.
      * apply Forall_app. split; [exact Hd | repeat constructor; exact Hi].
      * intros g [= <-]. exact Hi.
      * intros c Hc'. discriminate.
    + rewrite handleFile_not_image by exact Hi. unfold images_only. cbn.
      repeat split; auto.
  - (* its image has loaded *)
    open_step H.
    repeat match goal with
      | Hb : _ && _ = true |- _ => apply andb_true_iff in Hb as [? ?]
      end.
    match goal with
    | Hex : List.existsb _ _ = true |- _ => apply existsb_file_In in Hex;
        pose proof (proj1 (List.Forall_forall _ _) Hd _ Hex) as Hi
    end.
    unfold images_only, img_onload. cbn [img_width img_height].
    destruct (display_size w h). cbn.
    repeat split; auto using remove_file_Forall.
    intros img [= <-]. exact Hi.
  - open_step H. unfold images_only. cbn.
    repeat split; auto using remove_file_Forall.
  - (* blur input *)
    open_step H. unfold images_only.
    destruct s; cbn in *. unfold_handlers; cbn. break_ifs.
    all: repeat split; auto.
    all: apply Forall_app; split; [assumption|].
    all: repeat constructor; cbn; eapply Hc; first [eassumption | reflexivity].
  - open_step H. unfold images_only.
    destruct s; cbn in *. unfold_handlers; cbn. break_ifs; repeat split; auto.
  - open_step H. unfold images_only. cbn. repeat split; auto.
  - (* a request settles *)
    open_step H.
    match goal with
    | Hr : request_file _ _ = Some _ |- _ => apply request_file_In in Hr;
        pose proof (proj1 (List.Forall_forall _ _) Hf _ Hr) as Hi; cbn in Hi
    end.
    unfold images_only. destruct o; cbn.
    all: repeat split; auto using drop_request_Forall.
    intros c [= <-]. exact Hi.
  - open_step H. unfold images_only.
    destruct s; cbn in *. unfold_handlers; cbn. break_ifs; repeat split; auto.
  - open_step H. unfold images_only. cbn. repeat split; auto.
Qed.

(** X1.  Only image files are ever decoded, installed, sent for removal or
    kept as the origin of a cutout. *)
Theorem only_image_files_processed (s : State) :
  reachable s ->
  Forall (fun f => is_image_file f = true) (decoding s)
  /\ Forall (fun p => is_image_file (snd p) = true) (inFlight s)
  /\ (forall f, currentFile s = Some f -> is_image_file f = true)
  /\ (forall img, originalImage s = Some img ->
                  is_image_file (img_file img) = true)
  /\ (forall c, maskImage s = Some c -> is_image_file (cut_file c) = true).
Proof.
  apply (reachable_invariant images_only).
  - exact images_only_initial.
  - intros s0 s1 e. apply images_only_step.
Qed.

Lemma reachable_awaiting : reachable st_awaiting.
Proof. exists awaiting_cutout. exact run_awaiting. Qed.

Lemma only_image_files_processed_witness :
  reachable st_awaiting
  /\ Forall (fun p => is_image_file (snd p) = true) (inFlight st_awaiting)
  /\ inFlight st_awaiting = [(0%nat, photoA)].
Proof.
  split; [exact reachable_awaiting|].
  destruct (only_image_files_processed st_awaiting reachable_awaiting)
    as (_ & Hf & _).
  split; [exact Hf | reflexivity].
Defined.

Lemma name_inv_step (s s' : State) (e : Event) :
  name_inv s -> step s e = Some s' -> name_inv s'.
Proof.
  intros Hn H. destruct e.
  1: { open_step H. destruct (is_image_file f) eqn:Hi.
       - rewrite handleFile_image by exact Hi. reflexivity.
       - rewrite handleFile_not_image by exact Hi. exact Hn. }
  all: open_step H.
  all: destruct s; unfold name_inv, edited_name in *; cbn in *.
  all: unfold_handlers; cbn in *; break_ifs; cbn in *.
  all: repeat match goal with
         | Heq : ?x = _, Hm : context [match ?x with _ => _ end] |- _ =>
             rewrite Heq in Hm
         end; congruence.
Qed.

Lemma controls_inv_step (s s' : State) (e : Event) :
  controls_inv s -> step s e = Some s' -> controls_inv s'.
Proof.
  intros [H1 H2] H. destruct e.
  1: { open_step H. destruct (is_image_file f) eqn:Hi.
       - rewrite handleFile_image by exact Hi. split; assumption.
       - rewrite handleFile_not_image by exact Hi. split; assumption. }
  all: open_step H.
  all: destruct s; unfold controls_inv in *; cbn in *.
  all: unfold_handlers; cbn in *; break_ifs; cbn in *; split; congruence.
Qed.

Lemma controls_inv_reachable (s : State) : reachable s -> controls_inv s.
Proof.
  revert s. apply (reachable_invariant controls_inv).
  - split; reflexivity.
  - intros s0 s1 e. apply controls_inv_step.
Qed.

Lemma name_inv_reachable (s : State) : reachable s -> name_inv s.
Proof.
  revert s. apply (reachable_invariant name_inv).
  - reflexivity.
  - intros s0 s1 e. apply name_inv_step.
Qed.

(** X2.  In every state of every execution the blur slider, the grain
    slider and the download button are all enabled or all disabled, and
    when they are enabled an image is installed. *)
Theorem controls_move_together (s : State) :
  reachable s ->
  blurDisabled s = grainDisabled s
  /\ grainDisabled s = downloadDisabled s
  /\ (downloadDisabled s = false -> originalImage s <> None).
Proof.
  intros Hr.
  destruct (controls_inv_reachable s Hr) as [H1 H2].
  split; [exact H1|]. split; [exact H2|].
  intros Hd. destruct (loaded_inv_reachable s Hr) as (_ & _ & Hb & _).
  apply Hb. congruence.
Qed.

Lemma controls_move_together_witness :
  reachable st_awaiting
  /\ blurDisabled st_awaiting = true
  /\ grainDisabled st_awaiting = true
  /\ downloadDisabled st_awaiting = true.
Proof.
  split; [exact reachable_awaiting|].
  destruct (controls_move_together st_awaiting reachable_awaiting)
    as (H1 & H2 & _).
  assert (Hb : blurDisabled st_awaiting = true) by reflexivity.
  split; [exact Hb|]. split; congruence.
Defined.

(** ** The canvas and the download *)

(** The model reproduces the arithmetic of the script: a 2185 x 2185 image
    gets the height 1919, not 1920, because [1920 / 2185] is rounded before
    it is multiplied by 2185. *)
Example display_size_rounded :
  truncate (snd (display_size 2185 2185)) = 1919
  /\ truncate ((inject_Z 1920 / inject_Z 2185) * inject_Z 2185)%Q = 1920.
Proof. split; vm_compute; reflexivity. Qed.

Lemma scaled_height_bounds (w h : Z) :
  MAX_IMAGE_WIDTH < w -> 0 < h ->
  0 <= truncate
         (round_double
            (round_double (inject_Z MAX_IMAGE_WIDTH / inject_Z w)
             * inject_Z h)) <= h.
Proof.
  intros Hw Hh. unfold MAX_IMAGE_WIDTH in *.
  assert (Hwq : (1921 <= inject_Z w)%Q).
  { change 1921%Q with (inject_Z 1921). rewrite <- Zle_Qle. lia. }
  assert (Hhq : (0 <= inject_Z h)%Q).
  { change 0%Q with (inject_Z 0). rewrite <- Zle_Qle. lia. }
  change (inject_Z 1920) with 1920%Q.
  assert (Hr0 : (0 <= 1920 / inject_Z w)%Q).
  { apply Qle_shift_div_l; lra. }
  assert (Hr1 : (1920 / inject_Z w <= 1920 # 1921)%Q).
  { apply Qle_shift_div_r; lra. }
  pose proof (round_double_nonneg _ Hr0) as Ha0.
  pose proof (round_double_mono _ _ Hr1) as Ha1.
  assert (EA : round_double (1920 # 1921)
               = (562656902951025 # 562949953421312)%Q)
    by (vm_compute; reflexivity).
  rewrite EA in Ha1.
  set (a := round_double (1920 / inject_Z w)) in *.
  assert (Hp0 : (0 <= a * inject_Z h)%Q)
    by (apply Qmult_le_0_compat; assumption).
  assert (Hp1 : (a * inject_Z h
                 <= (562656902951025 # 562949953421312) * inject_Z h)%Q)
    by (apply Qmult_le_compat_r; assumption).
  destruct (round_double_error _ Hp0) as [_ He]. unfold half_ulp_ratio in He.
  pose proof (round_double_nonneg _ Hp0) as Hd0.
  assert (Hd1 : (round_double (a * inject_Z h) <= inject_Z h)%Q) by lra.
  unfold truncate. apply Qle_bool_iff in Hd0 as Hb. rewrite Hb. split.
  - change 0 with (Qfloor 0). apply Qfloor_resp_le. exact Hd0.
  - apply (Z.le_trans _ (Qfloor (inject_Z h)));
      [apply Qfloor_resp_le; exact Hd1 | rewrite Qfloor_Z; lia].
Qed.

Lemma img_onload_canvas (img : Image) (s : State) :
  0 < img_width img -> 0 < img_height img -> canvas_inv (img_onload img s).
Proof.
  intros Hw Hh. unfold canvas_inv, img_onload, display_size.
  destruct (MAX_IMAGE_WIDTH <? img_width img) eqn:E.
  - apply Z.ltb_lt in E.
    pose proof (scaled_height_bounds _ _ E Hh) as Hb.
    set (ch := truncate _) in *. cbn.
    repeat split; try assumption; try lia.
  - apply Z.ltb_ge in E. cbn. rewrite truncate_inject_Z.
    repeat split; try assumption; try lia.
Qed.

Lemma canvas_kept (s s' : State) (e : Event) :
  (forall f w h, e <> EvImageLoaded f w h) -> step s e = Some s' ->
  originalImage s' = originalImage s
  /\ canvasWidth s' = canvasWidth s /\ canvasHeight s' = canvasHeight s
  /\ canvasShown s' = canvasShown s
  /\ placeholderShown s' = placeholderShown s.
Proof.
  intros Hne H. destruct e.
  1: { open_step H. destruct (is_image_file f) eqn:Hi.
       - rewrite handleFile_image by exact Hi. cbn. repeat split.
       - rewrite handleFile_not_image by exact Hi. cbn. repeat split. }
  1: { exfalso. eapply Hne. reflexivity. }
  all: open_step H.
  all: destruct s; cbn in *.
  all: unfold_handlers; cbn in *; break_ifs; cbn; repeat split.
Qed.

Lemma canvas_inv_step (s s' : State) (e : Event) :
  canvas_inv s -> step s e = Some s' -> canvas_inv s'.
Proof.
  intros Hc H.
  destruct e as [f|f w h|f|v|v| |req o|req|req].
  2: { open_step H.
       repeat match goal with
         | Hb : _ && _ = true |- _ => apply andb_true_iff in Hb as [? ?]
         end.
       apply img_onload_canvas; cbn; apply Z.ltb_lt; assumption. }
  all: match type of H with
       | step _ ?e = _ =>
           assert (Hne : forall f w h, e <> EvImageLoaded f w h)
             by (intros; discriminate)
       end.
  all: destruct (canvas_kept _ _ _ Hne H) as (Ho & Hw & Hh & Hs & Hp).
  all: unfold canvas_inv in *; rewrite Ho, Hw, Hh, Hs, Hp; exact Hc.
Qed.

Lemma canvas_inv_reachable (s : State) : reachable s -> canvas_inv s.
Proof.
  revert s. apply (reachable_invariant canvas_inv).
  - cbn. repeat split.
  - intros s0 s1 e. apply canvas_inv_step.
Qed.

(** X3.  Whenever an image is installed the canvas is shown, the
    placeholder is hidden, the canvas is as wide as the image but at most
    1920, an image no wider than 1920 keeps its height, and the canvas is
    never higher than the image (images are never enlarged). *)
Theorem canvas_matches_image (s : State) (img : Image) :
  reachable s -> originalImage s = Some img ->
  canvasWidth s = Z.min (img_width img) MAX_IMAGE_WIDTH
  /\ 0 < canvasWidth s <= MAX_IMAGE_WIDTH
  /\ (img_width img <= MAX_IMAGE_WIDTH -> canvasHeight s = img_height img)
  /\ 0 <= canvasHeight s <= img_height img
  /\ canvasShown s = true /\ placeholderShown s = false.
Proof.
  intros Hr Ho. pose proof (canvas_inv_reachable s Hr) as Hc.
  unfold canvas_inv in Hc. rewrite Ho in Hc.
  destruct Hc as (Hw & Hh & Hcw & Hch & Hb & Hs & Hp).
  unfold MAX_IMAGE_WIDTH in *. repeat split; try assumption; lia.
Qed.

Lemma reachable_with_cutout_wide : reachable st_with_cutout_wide.
Proof. exists with_cutout_wide. exact run_with_cutout_wide. Qed.

Lemma canvas_matches_image_witness :
  reachable st_with_cutout_wide
  /\ originalImage st_with_cutout_wide = Some widePhoto
  /\ canvasWidth st_with_cutout_wide = Z.min 3000 MAX_IMAGE_WIDTH
  /\ 0 <= canvasHeight st_with_cutout_wide <= 2000.
Proof.
  split; [exact reachable_with_cutout_wide|]. split; [reflexivity|].
  destruct (canvas_matches_image st_with_cutout_wide widePhoto
              reachable_with_cutout_wide eq_refl) as (Hw & _ & _ & Hh & _).
  split; [exact Hw | exact Hh].
Defined.

(** X4.  A click on the download button, whenever it can happen, offers the
    canvas under the name made from the file selected last (its name up to
    the first dot, then "_edited.png"), with an image installed, and changes
    nothing else. *)
Theorem download_offers_current_name (s s' : State) :
  reachable s -> step s EvDownloadClick = Some s' ->
  exists f img,
    currentFile s = Some f /\ originalImage s = Some img
    /\ s' = set_downloads (edited_name f :: downloads s) s.
Proof.
  intros Hr H. open_step H.
  destruct (controls_inv_reachable s Hr) as [Hbg Hgd].
  destruct (loaded_inv_reachable s Hr) as (Ha & _ & Hb & _).
  pose proof (name_inv_reachable s Hr) as Hn.
  assert (Hd : originalImage s <> None) by (apply Hb; congruence).
  specialize (Ha Hd). unfold name_inv in Hn.
  destruct (currentFile s) as [f|] eqn:Ef; [|congruence].
  destruct (originalImage s) as [img|] eqn:Ei; [|congruence].
  exists f, img. repeat split. unfold downloadImage. rewrite Hn. reflexivity.
Qed.

Lemma reachable_ready : reachable st_ready.
Proof. eexists. exact run_ready. Qed.

Lemma download_offers_current_name_witness :
  reachable st_ready
  /\ step st_ready EvDownloadClick
     = Some (set_downloads ["a_edited.png"%string] st_ready)
  /\ exists f img,
       currentFile st_ready = Some f /\ originalImage st_ready = Some img
       /\ set_downloads ["a_edited.png"%string] st_ready
          = set_downloads (edited_name f :: downloads st_ready) st_ready.
Proof.
  assert (Hstep : step st_ready EvDownloadClick
                  = Some (set_downloads ["a_edited.png"%string] st_ready))
    by reflexivity.
  split; [exact reachable_ready|]. split; [exact Hstep|].
  exact (download_offers_current_name st_ready _ reachable_ready Hstep).
Defined.

(** ** The name of the download *)

Lemma before_dot_app (stem rest : string) :
  has_dot stem = false ->
  before_dot (String.append stem (String "."%char rest)) = stem.
Proof.
  induction stem as [|c stem IH]; cbn; intros H; [reflexivity|].
  apply orb_false_iff in H as [Hc Hs]. rewrite Hc, IH by exact Hs.
  reflexivity.
Qed.

Lemma before_dot_no_dot (name : string) :
  has_dot name = false -> before_dot name = name.
Proof.
  induction name as [|c name IH]; cbn; intros H; [reflexivity|].
  apply orb_false_iff in H as [Hc Hs]. rewrite Hc, IH by exact Hs.
  reflexivity.
Qed.

Lemma before_dot_has_no_dot (name : string) : has_dot (before_dot name) = false.
Proof.
  induction name as [|c name IH]; cbn; [reflexivity|].
  destruct (Ascii.eqb c ".") eqn:E; cbn; [reflexivity|].
  rewrite E, IH. reflexivity.
Qed.

(** X5.  The download name is the file name cut at its FIRST dot, followed
    by "_edited.png": a name "stem.rest" with no dot in the stem gives
    "stem_edited.png" whatever the rest is, a name without a dot is kept
    whole, and the part before the suffix never contains a dot. *)
Theorem edited_name_cuts_at_first_dot (f : File) :
  (forall stem rest,
     has_dot stem = false ->
     file_name f = String.append stem (String "."%char rest) ->
     edited_name f = String.append stem "_edited.png")
  /\ (has_dot (file_name f) = false ->
      edited_name f = String.append (file_name f) "_edited.png")
  /\ (exists stem, edited_name f = String.append stem "_edited.png"
                   /\ has_dot stem = false
                   /\ String.prefix stem (file_name f) = true).
Proof.
  unfold edited_name. split; [|split].
  - intros stem rest Hs Hn. rewrite Hn, before_dot_app by exact Hs.
    reflexivity.
  - intros H. rewrite before_dot_no_dot by exact H. reflexivity.
  - exists (before_dot (file_name f)). split; [reflexivity|].
    split; [apply before_dot_has_no_dot|].
    induction (file_name f) as [|c name IH]; cbn; [reflexivity|].
    destruct (Ascii.eqb c "."); cbn; [reflexivity|].
    destruct (ascii_dec c c); [exact IH | congruence].
Qed.

Lemma edited_name_cuts_at_first_dot_witness :
  has_dot "holiday" = false
  /\ edited_name (mkFile "holiday.photo.jpg" "image/jpeg")
     = "holiday_edited.png"%string.
Proof.
  split; [reflexivity|].
  destruct (edited_name_cuts_at_first_dot
              (mkFile "holiday.photo.jpg" "image/jpeg")) as [H _].
  apply (H "holiday"%string "photo.jpg"%string); reflexivity.
Defined.

(** ** The blur filter *)

(** X6.  In every frame the only thing drawn on the main canvas under a
    blur filter is the padded offscreen copy of the background, and only
    when a cutout is present and the blur is positive; the source image
    drawn directly, the cutout and everything after it are drawn with no
    filter, and the frame leaves the filter off. *)
Theorem subject_never_blurred (img : Image) (mask : option Cutout)
    (r g w h : Z) :
  filter_after FilterNone (render_ops img mask r g w h) = FilterNone
  /\ forall src flt,
       In (src, flt) (drawn_with FilterNone (render_ops img mask r g w h)) ->
       flt = FilterNone
       \/ (src = SrcOffscreen /\ flt = FilterBlur r /\ 0 < r /\ mask <> None).
Proof.
  unfold render_ops, drawBackground, drawForeground, drawGrain.
  destruct mask as [c|]; destruct (0 <? r) eqn:Er; destruct (0 <? g);
    cbn; (split; [reflexivity|]); intros src flt Hin;
    repeat destruct Hin as [Hin|Hin]; try contradiction;
    injection Hin as <- <-; try (left; reflexivity).
  all: right; apply Z.ltb_lt in Er; repeat split; congruence.
Qed.

Lemma subject_never_blurred_witness :
  In (SrcCutout (mkCutout 0 photoA), FilterNone)
    (drawn_with FilterNone
       (render_ops widePhoto (Some (mkCutout 0 photoA)) 5 0 1920 1280))
  /\ (FilterNone = FilterNone
      \/ (SrcCutout (mkCutout 0 photoA) = SrcOffscreen
          /\ FilterNone = FilterBlur 5 /\ 0 < 5
          /\ Some (mkCutout 0 photoA) <> None)).
Proof.
  assert (Hin : In (SrcCutout (mkCutout 0 photoA), FilterNone)
                  (drawn_with FilterNone
                     (render_ops widePhoto (Some (mkCutout 0 photoA))
                        5 0 1920 1280))) by (cbn; tauto).
  split; [exact Hin|].
  destruct (subject_never_blurred widePhoto (Some (mkCutout 0 photoA))
              5 0 1920 1280) as [_ H].
  exact (H _ _ Hin).
Defined.

(** ** From request to cutout *)

Lemma existsb_nat_last (n : nat) (l : list nat) :
  List.existsb (Nat.eqb n) (l ++ [n]) = true.
Proof.
  rewrite List.existsb_app. apply orb_true_iff. right. cbn.
  rewrite Nat.eqb_refl. reflexivity.
Qed.

(** A new cutout image is not among the broken ones. *)
Lemma existsb_drop_nat (n : nat) (l : list nat) :
  List.existsb (Nat.eqb n) (drop_nat n l) = false.
Proof.
  induction l as [|m l IH]; [reflexivity|]. cbn.
  destruct (m =? n)%nat eqn:E; cbn; [exact IH|].
  rewrite Nat.eqb_sym, E. exact IH.
Qed.

(** X7.  When an input of the blur slider starts a request, the same
    handler run sets the processing flag, disables the three controls and
    shows the loading overlay; no cutout is held, and the frame it drew
    first is the plain image (with grain if set): the blur stays invisible
    until the cutout arrives. *)
Theorem blur_request_locks_controls (s s' : State) (v : Z) :
  reachable s -> step s (EvBlurInput v) = Some s' ->
  nextRequest s' <> nextRequest s ->
  exists img file,
    originalImage s = Some img /\ currentFile s = Some file /\ 0 < v
    /\ isProcessing s' = true
    /\ blurDisabled s' = true /\ grainDisabled s' = true
    /\ downloadDisabled s' = true /\ loadingHidden s' = false
    /\ blurValue s' = v /\ maskImage s' = None
    /\ inFlight s' = inFlight s ++ [(nextRequest s, file)]
    /\ frames s'
       = (ClearRect MainCanvas 0 0 (canvasWidth s) (canvasHeight s)
          :: DrawImage5 MainCanvas (SrcImage img) 0 0
               (canvasWidth s) (canvasHeight s)
          :: drawGrain (grainValue s) (canvasWidth s) (canvasHeight s))
         :: frames s.
Proof.
  intros Hr H Hn. destruct (loaded_inv_reachable s Hr) as (Ha & _ & Hc & _).
  open_step H. bool_facts.
  destruct s; cbn in *; subst.
  specialize (Hc eq_refl). specialize (Ha Hc).
  destruct originalImage0 as [img|]; [clear Hc | congruence].
  destruct currentFile0 as [file|]; [clear Ha | congruence].
  revert Hn. unfold_handlers; cbn.
  destruct maskImage0 as [c|]; cbn.
  - destruct (List.existsb _ maskBroken0); cbn; [intros Hn; congruence|].
    destruct ((0 <? grainValue0)
              && getImageData_throws canvasWidth0 canvasHeight0); cbn;
      [intros Hn; congruence|].
    destruct (0 <? v); cbn; intros Hn; congruence.
  - destruct ((0 <? grainValue0)
              && getImageData_throws canvasWidth0 canvasHeight0); cbn;
      [intros Hn; congruence|].
    destruct (0 <? v) eqn:Hv, isProcessing0; cbn; intros Hn; try congruence.
    exists img, file. apply Z.ltb_lt in Hv. repeat split; assumption.
Qed.

Lemma blur_request_locks_controls_witness :
  reachable st_ready
  /\ step st_ready (EvBlurInput 5) = Some st_awaiting
  /\ nextRequest st_awaiting <> nextRequest st_ready
  /\ blurDisabled st_awaiting = true
  /\ loadingHidden st_awaiting = false.
Proof.
  assert (Hstep : step st_ready (EvBlurInput 5) = Some st_awaiting)
    by reflexivity.
  assert (Hn : nextRequest st_awaiting <> nextRequest st_ready)
    by (cbn; discriminate).
  split; [exact reachable_ready|]. split; [exact Hstep|]. split; [exact Hn|].
  destruct (blur_request_locks_controls st_ready st_awaiting 5
              reachable_ready Hstep Hn)
    as (img & file & _ & _ & _ & _ & Hb & _ & _ & Hl & _).
  split; assumption.
Defined.

(** X8.  When the answer to a request arrives and the cutout image has
    loaded, the cutout is held, the processing flag is clear, the overlay is
    hidden, the three controls are enabled, and one frame is rendered with
    the values the sliders have: the cutout over the padded, blurred
    background if the blur is positive, over the plain image otherwise. *)
Theorem cutout_arrival_renders (s : State) (req : nat) (file : File)
    (img : Image) :
  originalImage s = Some img ->
  request_file req (inFlight s) = Some file ->
  exists s',
    run [EvFetchSettled req ResponseOk; EvMaskLoaded req] s = Some s'
    /\ maskImage s' = Some (mkCutout req file)
    /\ isProcessing s' = false /\ loadingHidden s' = true
    /\ blurDisabled s' = false /\ grainDisabled s' = false
    /\ downloadDisabled s' = false
    /\ blurValue s' = blurValue s /\ grainValue s' = grainValue s
    /\ exists frame,
         frames s' = frame :: frames s
         /\ (0 < blurValue s ->
             frame = ClearRect MainCanvas 0 0 (canvasWidth s) (canvasHeight s)
                     :: blurredBackground img (blurValue s)
                          (canvasWidth s) (canvasHeight s)
                     ++ [DrawImage5 MainCanvas (SrcCutout (mkCutout req file))
                           0 0 (canvasWidth s) (canvasHeight s)]
                     ++ drawGrain (grainValue s)
                          (canvasWidth s) (canvasHeight s))
         /\ (blurValue s <= 0 ->
             frame = ClearRect MainCanvas 0 0 (canvasWidth s) (canvasHeight s)
                     :: DrawImage5 MainCanvas (SrcImage img)
                          0 0 (canvasWidth s) (canvasHeight s)
                     :: DrawImage5 MainCanvas (SrcCutout (mkCutout req file))
                          0 0 (canvasWidth s) (canvasHeight s)
                     :: drawGrain (grainValue s)
                          (canvasWidth s) (canvasHeight s)).
Proof.
  intros Ho Hreq. cbn [run step]. rewrite Hreq.
  cbn [removeBackground_settled maskDecoding set_maskDecoding set_maskImage
       set_inFlight].
  rewrite existsb_nat_last.
  eexists. split; [reflexivity|].
  destruct s; cbn in *; subst. unfold_handlers; cbn.
  fold (drop_nat req maskBroken0). rewrite existsb_drop_nat. cbn.
  repeat split.
  eexists. split; [reflexivity|]. split.
  - intros Hb. apply render_ops_blurred. exact Hb.
  - intros Hb. unfold render_ops, drawBackground.
    destruct (0 <? blurValue0) eqn:E; [apply Z.ltb_lt in E; lia|].
    reflexivity.
Qed.

Lemma cutout_arrival_renders_witness :
  originalImage st_awaiting = Some (mkImage photoA 800 600)
  /\ request_file 0 (inFlight st_awaiting) = Some photoA
  /\ exists s',
       run [EvFetchSettled 0%nat ResponseOk; EvMaskLoaded 0%nat] st_awaiting
       = Some s'
       /\ maskImage s' = Some (mkCutout 0 photoA)
       /\ isProcessing s' = false.
Proof.
  split; [reflexivity|]. split; [reflexivity|].
  destruct (cutout_arrival_renders st_awaiting 0%nat photoA
              (mkImage photoA 800 600) eq_refl eq_refl)
    as (s' & Hrun & Hm & Hp & _).
  exists s'. split; [exact Hrun|]. split; assumption.
Defined.

(** A blur input above 0 on an idle editor without cutout starts a
    request for the current file, unless the grain is on and the canvas has
    no area (the render then throws). *)
Lemma blur_starts_request (t : State) (v : Z) (file : File) :
  blurDisabled t = false -> 0 < v <= BLUR_MAX ->
  maskImage t = None -> isProcessing t = false ->
  currentFile t = Some file ->
  (0 <? grainValue t) && getImageData_throws (canvasWidth t) (canvasHeight t)
  = false ->
  exists t',
    step t (EvBlurInput v) = Some t'
    /\ inFlight t' = inFlight t ++ [(nextRequest t, file)]
    /\ nextRequest t' = S (nextRequest t)
    /\ isProcessing t' = true /\ maskImage t' = None
    /\ originalImage t' = originalImage t /\ blurValue t' = v.
Proof.
  intros Hb [Hv Hmax] Hm Hp Hc Hg.
  assert (E1 : (0 <=? v) = true) by (apply Z.leb_le; lia).
  assert (E2 : (v <=? BLUR_MAX) = true) by (apply Z.leb_le; lia).
  assert (E3 : (0 <? v) = true) by (apply Z.ltb_lt; lia).
  destruct t; cbn in *; subst. rewrite E1, E2. cbn [andb].
  unfold on_blur_input, render. cbn -[Z.ltb getImageData_throws].
  destruct originalImage0; cbn -[Z.ltb getImageData_throws];
    rewrite ?Hg; cbn -[Z.ltb getImageData_throws]; rewrite E3; cbn;
    eexists; (split; [reflexivity|]); cbn; repeat split.
Qed.




Lemma failure_fields (s : State) (req : nat) (file : File)
    (o : FetchOutcome) :
  o <> ResponseOk ->
  let s1 := removeBackground_settled req file o
              (set_inFlight (drop_request req (inFlight s)) s) in
  blurDisabled s1 = false /\ maskImage s1 = maskImage s
  /\ isProcessing s1 = false /\ currentFile s1 = currentFile s
  /\ nextRequest s1 = nextRequest s
  /\ inFlight s1 = drop_request req (inFlight s)
  /\ grainValue s1 = grainValue s
  /\ canvasWidth s1 = canvasWidth s /\ canvasHeight s1 = canvasHeight s.
Proof.
  intros Ho. destruct o; try congruence; cbn; repeat split.
Qed.

Lemma drop_only_request (req : nat) (l : list (nat * File)) (f : File) :
  (length l <= 1)%nat -> request_file req l = Some f ->
  drop_request req l = [].
Proof.
  intros Hlen Hreq. destruct l as [|[r0 f0] [|? ?]]; cbn in *;
    try lia; try discriminate.
  unfold request_file in Hreq. cbn in Hreq.
  destruct (r0 =? req)%nat; [reflexivity | discriminate].
Qed.

(** The grain pass can read the canvas when the canvas has a height (its
    width is never 0 once an image is installed) or the grain is off. *)
Lemma grain_pass_can_run (s : State) :
  reachable s -> originalImage s <> None ->
  0 < canvasHeight s \/ grainValue s <= 0 ->
  (0 <? grainValue s) && getImageData_throws (canvasWidth s) (canvasHeight s)
  = false.
Proof.
  intros Hr Ho Hg. pose proof (canvas_inv_reachable s Hr) as Hc.
  unfold canvas_inv in Hc.
  destruct (originalImage s) as [img|]; [|congruence].
  destruct Hc as (Hw & _ & Hcw & _).
  unfold getImageData_throws, MAX_IMAGE_WIDTH in *.
  destruct (0 <? grainValue s) eqn:E; [|reflexivity].
  apply Z.ltb_lt in E. destruct Hg as [Hg|Hg]; [|lia].
  cbn. apply orb_false_iff. split; apply Z.eqb_neq; lia.
Qed.

(** X10.  In an execution in which no image file is selected during a
    removal, a failed request starts nothing by itself (there is no automatic
    retry) and leaves nothing in flight; the next input of the blur slider
    above 0 starts a new request for the current file, provided the canvas
    has a height or the grain is off (otherwise the render of that input
    throws before the request is made). *)
Theorem retry_after_failure (evs : list Event) (s s1 : State) (req : nat)
    (o : FetchOutcome) (v : Z) :
  uploads_when_idle evs initial -> run evs initial = Some s ->
  step s (EvFetchSettled req o) = Some s1 -> o <> ResponseOk ->
  0 < v <= BLUR_MAX ->
  0 < canvasHeight s \/ grainValue s <= 0 ->
  nextRequest s1 = nextRequest s /\ inFlight s1 = []
  /\ exists s2 file,
       step s1 (EvBlurInput v) = Some s2
       /\ currentFile s = Some file
       /\ inFlight s2 = [(nextRequest s, file)]
       /\ isProcessing s2 = true.
Proof.
  intros Hidle Hrun Hstep Ho Hv Hcan.
  pose proof (one_at_a_time_run evs initial s one_at_a_time_initial Hidle Hrun)
    as (Hlen & _ & Hmask).
  assert (Hr : reachable s) by (exists evs; exact Hrun).
  destruct (loaded_inv_reachable s Hr) as (Ha & _ & _ & Hd).
  unfold step in Hstep.
  destruct (request_file req (inFlight s)) as [f0|] eqn:Hreq; [|discriminate].
  injection Hstep as <-.
  pose proof (request_file_nonempty _ _ _ Hreq) as Hne.
  specialize (Hmask Hne). specialize (Hd (or_introl Hne)).
  pose proof (grain_pass_can_run s Hr Hd Hcan) as Hgrain.
  specialize (Ha Hd).
  destruct (currentFile s) as [file|] eqn:Ef; [|congruence].
  destruct (failure_fields s req f0 o Ho)
    as (Hb & Hm & Hp & Hc & Hn & Hf & Hg & Hcw & Hch).
  assert (Hnil : drop_request req (inFlight s) = [])
    by (apply (drop_only_request req _ f0); [lia | exact Hreq]).
  assert (Hf' : inFlight
                  (removeBackground_settled req f0 o
                     (set_inFlight (drop_request req (inFlight s)) s)) = [])
    by (rewrite Hf; exact Hnil).
  assert (Hm' : maskImage
                  (removeBackground_settled req f0 o
                     (set_inFlight (drop_request req (inFlight s)) s)) = None)
    by congruence.
  assert (Hc' : currentFile
                  (removeBackground_settled req f0 o
                     (set_inFlight (drop_request req (inFlight s)) s))
                = Some file) by congruence.
  destruct (blur_starts_request _ v file Hb Hv Hm' Hp Hc')
    as (s2 & Hs2 & Hf2 & _ & Hp2 & _);
    [rewrite Hg, Hcw, Hch; exact Hgrain|].
  split; [exact Hn|]. split; [exact Hf'|].
  exists s2, file. split; [exact Hs2|]. split; [reflexivity|].
  rewrite Hf2, Hf', Hn. split; [reflexivity | exact Hp2].
Qed.

Lemma retry_after_failure_witness :
  uploads_when_idle awaiting_cutout initial
  /\ run awaiting_cutout initial = Some st_awaiting
  /\ NetworkError <> ResponseOk /\ 0 < 7 <= BLUR_MAX
  /\ (0 < canvasHeight st_awaiting \/ grainValue st_awaiting <= 0)
  /\ exists s1 s2,
       step st_awaiting (EvFetchSettled 0%nat NetworkError) = Some s1
       /\ step s1 (EvBlurInput 7) = Some s2
       /\ inFlight s2 = [(1%nat, photoA)].
Proof.
  assert (Hidle : uploads_when_idle awaiting_cutout initial)
    by (cbn; repeat split).
  assert (Hstep : step st_awaiting (EvFetchSettled 0%nat NetworkError)
                  = Some (after (awaiting_cutout
                                   ++ [EvFetchSettled 0%nat NetworkError])))
    by (vm_compute; reflexivity).
  assert (Hcan : 0 < canvasHeight st_awaiting \/ grainValue st_awaiting <= 0)
    by (left; cbn; lia).
  split; [exact Hidle|]. split; [exact run_awaiting|].
  split; [discriminate|]. split; [unfold BLUR_MAX; lia|].
  split; [exact Hcan|].
  destruct (retry_after_failure awaiting_cutout st_awaiting _ 0%nat
              NetworkError 7 Hidle run_awaiting Hstep)
    as (_ & _ & s2 & file & Hs2 & Hf & Hfl & _);
    [discriminate | unfold BLUR_MAX; lia | exact Hcan |].
  eexists. exists s2. split; [exact Hstep|]. split; [exact Hs2|].
  rewrite Hfl. cbn in Hf. injection Hf as <-. reflexivity.
Defined.

(** X11.  A file whose type does not start with "image/" is refused with
    the notice "Please upload an image file", in any state, and nothing else
    changes: the current file, image, cutout, flag, sliders and canvas stay
    as they are. *)
Theorem non_image_upload_changes_nothing (f : File) (s : State) :
  is_image_file f = false ->
  step s (EvSelectFile f)
  = Some (set_alerts ("Please upload an image file"%string :: alerts s) s)
  /\ forall s', step s (EvSelectFile f) = Some s' ->
       originalImage s' = originalImage s /\ maskImage s' = maskImage s
       /\ currentFile s' = currentFile s /\ fileName s' = fileName s
       /\ isProcessing s' = isProcessing s /\ decoding s' = decoding s
       /\ inFlight s' = inFlight s /\ frames s' = frames s
       /\ blurValue s' = blurValue s /\ grainValue s' = grainValue s
       /\ blurDisabled s' = blurDisabled s.
Proof.
  intros H.
  assert (E : step s (EvSelectFile f)
          = Some (set_alerts ("Please upload an image file"%string :: alerts s) s)).
  { cbn. rewrite handleFile_not_image by exact H. reflexivity. }
  split; [exact E|]. intros s' Hs. rewrite E in Hs. injection Hs as <-.
  cbn. repeat split.
Qed.

Lemma non_image_upload_changes_nothing_witness :
  is_image_file notes = false
  /\ step st_awaiting (EvSelectFile notes)
     = Some (set_alerts ["Please upload an image file"%string] st_awaiting).
Proof.
  split; [reflexivity|].
  destruct (non_image_upload_changes_nothing notes st_awaiting eq_refl)
    as [H _].
  exact H.
Defined.

(** * Further properties of the grain pass *)









(** * Properties of the removal endpoint *)

Ltac handler_cases event busboy apiKey api :=
  unfold handler;
  destruct (String.eqb (httpMethod event) "POST") eqn:Em; cbn [negb];
  [ apply String.eqb_eq in Em;
    destruct busboy as [|seen|seen];
    [ | | destruct (collect_files seen) as [|imageFile others] eqn:Ef;
          [ | destruct (key_of apiKey) as [key|] eqn:Ek;
              [ destruct api as [data|] | ] ] ]
  | apply String.eqb_neq in Em ].

(** X15.  The status of the answer tells what happened: 405 exactly for a
    method other than POST; 400 exactly when the body was parsed and held no
    file (whether or not a key is configured); 500 exactly when parsing
    failed or a file arrived and the API key is unset or empty; 502 exactly
    when the remote API failed; 200 exactly when a file arrived, the key is
    set and the remote API answered, and then the body is the answer in
    base64, marked as such, with type image/png. *)
Theorem handler_status_table (event : LambdaEvent) (busboy : BusboyRun)
    (apiKey : option string) (api : ApiResult) (r : Response)
    (calls : list ApiCall) :
  handler event busboy apiKey api = (Resolves r, calls) ->
  (statusCode r = 405 <-> httpMethod event <> "POST"%string)
  /\ (statusCode r = 400 <->
      httpMethod event = "POST"%string
      /\ exists seen, busboy = BusboyFinish seen /\ collect_files seen = [])
  /\ (statusCode r = 500 <->
      httpMethod event = "POST"%string
      /\ ((exists seen, busboy = BusboyError seen)
          \/ (exists seen, busboy = BusboyFinish seen
                           /\ collect_files seen <> []
                           /\ key_of apiKey = None)))
  /\ (statusCode r = 502 <->
      httpMethod event = "POST"%string
      /\ exists seen, busboy = BusboyFinish seen /\ collect_files seen <> []
                      /\ key_of apiKey <> None /\ api = ApiFails)
  /\ (statusCode r = 200 <->
      httpMethod event = "POST"%string
      /\ exists seen data,
           busboy = BusboyFinish seen /\ collect_files seen <> []
           /\ key_of apiKey <> None /\ api = ApiData data
           /\ r = mkResponse 200 [("Content-Type"%string, "image/png"%string)]
                    (Base64 data) true).
Proof.
  handler_cases event busboy apiKey api; intros [= <- <-]; cbn.
  all: repeat split; try discriminate; try congruence; try tauto.
  all: try (intros [? ?]; congruence).
  all: try (intros (_ & seen' & data' & E & _); congruence).
  all: try (intros (_ & seen' & E & _); congruence).
  all: try (intros (_ & seen' & E & H1 & H2 & H3); injection E as <-;
            congruence).
  all: try (intros (_ & seen' & data' & E & H1 & H2 & H3 & _);
            injection E as <-; congruence).
  all: try (intros (_ & [(seen' & E)|(seen' & E & H1 & H2)]);
            try discriminate; injection E as <-; congruence).
  all: try (eexists; split; [reflexivity|]; congruence).
  all: try (left; eexists; reflexivity).
  all: try (right; eexists; repeat split; congruence).
  all: try (eexists; repeat split; congruence).
  all: try (do 2 eexists; repeat split; congruence).
  all: intros (_ & seen' & E & Hnil); injection E as <-; congruence.
Qed.

Lemma handler_status_table_witness :
  handler post_event (BusboyFinish [OnField "mask" "false"]) (Some "k"%string)
    (ApiData [1; 2])
  = (Resolves (mkResponse 400 [] (Text "No file uploaded") false), [])
  /\ (400 = 400 <->
      httpMethod post_event = "POST"%string
      /\ exists seen, BusboyFinish [OnField "mask" "false"] = BusboyFinish seen
                      /\ collect_files seen = []).
Proof.
  assert (H : handler post_event (BusboyFinish [OnField "mask" "false"])
                (Some "k"%string) (ApiData [1; 2])
              = (Resolves (mkResponse 400 [] (Text "No file uploaded") false),
                 [])) by reflexivity.
  split; [exact H|].
  destruct (handler_status_table _ _ _ _ _ _ H) as (_ & H400 & _).
  exact H400.
Defined.

(** X16.  The remote API is called at most once, and only for a POST whose
    body was parsed, held a file, with a non-empty key configured; the call
    carries that key and a form whose first part is the content and name of
    the FIRST file received; the only other part it can have is mask=true,
    present exactly when the last value of the field "mask" is "true".  With
    the fields that the editor sends (mask=false) the form is the image
    alone. *)
Theorem api_call_conditions (event : LambdaEvent) (busboy : BusboyRun)
    (apiKey : option string) (api : ApiResult) (out : Outcome)
    (calls : list ApiCall) :
  handler event busboy apiKey api = (out, calls) ->
  calls = []
  \/ exists seen imageFile others key,
       httpMethod event = "POST"%string
       /\ busboy = BusboyFinish seen
       /\ collect_files seen = imageFile :: others
       /\ apiKey = Some key /\ key <> EmptyString
       /\ calls = [mkApiCall (api_form imageFile (collect_fields seen)) key]
       /\ (api_form imageFile (collect_fields seen)
           = [PartFile "image" (up_content imageFile) (up_filename imageFile);
              PartField "mask" "true"]
           /\ obj_get "mask" (collect_fields seen) = Some "true"%string
           \/ api_form imageFile (collect_fields seen)
              = [PartFile "image" (up_content imageFile)
                   (up_filename imageFile)]
              /\ obj_get "mask" (collect_fields seen) <> Some "true"%string)
       /\ (editor_fields seen ->
           api_form imageFile (collect_fields seen)
           = [PartFile "image" (up_content imageFile)
                (up_filename imageFile)]).
Proof.
  handler_cases event busboy apiKey api; intros [= <- <-];
    try (left; reflexivity).
  all: right; exists seen, imageFile, others, key.
  all: assert (Hk : apiKey = Some key /\ key <> EmptyString)
    by (destruct apiKey as [[|c k]|]; cbn in Ek; try discriminate;
        injection Ek as <-; split; [reflexivity | discriminate]).
  all: destruct Hk as [Hk1 Hk2].
  all: repeat (split; [first [assumption | reflexivity]|]).
  all: unfold api_form, editor_fields.
  all: destruct (obj_get "mask" (collect_fields seen)) as [m|] eqn:Eg.
  all: try destruct (String.eqb m "true") eqn:Et.
  all: try (apply String.eqb_eq in Et; subst m).
  all: try (apply String.eqb_neq in Et).
  all: split;
    [ first [ left; split; [reflexivity | reflexivity]
            | right; split; [reflexivity | congruence] ]
    | intros He; first [discriminate He | reflexivity
                        | injection He as ->; reflexivity ] ].
Qed.

Lemma api_call_conditions_witness :
  handler post_event (BusboyFinish editor_upload) (Some "k"%string) ApiFails
  = (Resolves (mkResponse 502 []
                 (JsonError "Failed to process image with RemBG") false),
     [mkApiCall [PartFile "image" [137; 80; 78; 71] "a.png"] "k"])
  /\ editor_fields editor_upload.
Proof.
  assert (H : handler post_event (BusboyFinish editor_upload)
                (Some "k"%string) ApiFails
              = (Resolves (mkResponse 502 []
                             (JsonError "Failed to process image with RemBG")
                             false),
                 [mkApiCall [PartFile "image" [137; 80; 78; 71] "a.png"] "k"]))
    by reflexivity.
  split; [exact H|].
  destruct (api_call_conditions _ _ _ _ _ _ H)
    as [Hnil|(seen & f & others & key & _ & Hb & _)]; [discriminate|].
  injection Hb as <-. reflexivity.
Defined.

(** ** Header names *)

Lemma lower_char_idem (c : ascii) : lower_char (lower_char c) = lower_char c.
Proof. destruct c as [[] [] [] [] [] [] [] []]; reflexivity. Qed.

Lemma toLowerCase_idem (s : string) : toLowerCase (toLowerCase s) = toLowerCase s.
Proof.
  induction s as [|c s IH]; cbn; [reflexivity|].
  rewrite lower_char_idem, IH. reflexivity.
Qed.

Lemma obj_get_set (k k' v : string) (o : list (string * string)) :
  obj_get k (obj_set k' v o)
  = if String.eqb k' k then Some v else obj_get k o.
Proof.
  induction o as [|[k0 v0] o IH]; cbn.
  - destruct (String.eqb k' k); reflexivity.
  - destruct (String.eqb k0 k') eqn:E0; cbn.
    + apply String.eqb_eq in E0. subst k0.
      destruct (String.eqb k' k); reflexivity.
    + destruct (String.eqb k0 k) eqn:E1; [|exact IH].
      apply String.eqb_eq in E1. subst k0.
      rewrite String.eqb_sym, E0. reflexivity.
Qed.

Lemma obj_set_keys (P : string -> Prop) (k v : string)
    (o : list (string * string)) :
  P k -> Forall (fun kv => P (fst kv)) o ->
  Forall (fun kv => P (fst kv)) (obj_set k v o).
Proof.
  intros Hk. induction 1 as [|[k0 v0] o H0 Ho IH]; cbn.
  - repeat constructor. exact Hk.
  - destruct (String.eqb k0 k); constructor; assumption.
Qed.

Lemma lowercase_headers_snoc (hs : list (string * string)) (k v : string) :
  lowercase_headers (hs ++ [(k, v)])
  = obj_set (toLowerCase k) v (lowercase_headers hs).
Proof. unfold lowercase_headers. rewrite fold_left_app. reflexivity. Qed.

(** X17.  After the headers are copied under lower-case names, a header is
    found under the lower-case form of its name whatever its casing was; a
    lookup returns the value of the LAST header whose lower-cased name is the
    key (later ones overwrite earlier ones), and every key of the copy is
    in lower case. *)
Theorem lowercase_headers_lookup (hs : list (string * string)) :
  (forall k,
     obj_get k (lowercase_headers hs)
     = match List.find (fun kv => String.eqb (toLowerCase (fst kv)) k)
               (rev hs) with
       | Some kv => Some (snd kv)
       | None => None
       end)
  /\ (forall name v, In (name, v) hs ->
        exists v', obj_get (toLowerCase name) (lowercase_headers hs) = Some v')
  /\ Forall (fun kv => toLowerCase (fst kv) = fst kv) (lowercase_headers hs).
Proof.
  assert (Hlook : forall k,
     obj_get k (lowercase_headers hs)
     = match List.find (fun kv => String.eqb (toLowerCase (fst kv)) k)
               (rev hs) with
       | Some kv => Some (snd kv)
       | None => None
       end).
  { induction hs as [|[k0 v0] hs IH] using rev_ind; intros k; [reflexivity|].
    rewrite lowercase_headers_snoc, obj_get_set, rev_app_distr. cbn.
    destruct (String.eqb (toLowerCase k0) k); [reflexivity | apply IH]. }
  split; [exact Hlook|]. split.
  - intros name v Hin. rewrite Hlook.
    destruct (List.find _ (rev hs)) as [kv|] eqn:E; [eexists; reflexivity|].
    exfalso.
    assert (Hr : In (name, v) (rev hs)) by (apply -> in_rev; exact Hin).
    pose proof (List.find_none _ _ E (name, v) Hr) as Hfalse.
    cbn in Hfalse. rewrite String.eqb_refl in Hfalse. discriminate.
  - clear Hlook.
    induction hs as [|[k0 v0] hs IH] using rev_ind; [constructor|].
    rewrite lowercase_headers_snoc.
    apply (obj_set_keys (fun k => toLowerCase k = k)); [|exact IH].
    apply toLowerCase_idem.
Qed.

Lemma lowercase_headers_lookup_witness :
  In ("Content-TYPE"%string, "multipart/form-data"%string)
    [("content-type"%string, "text/plain"%string);
     ("Content-TYPE"%string, "multipart/form-data"%string)]
  /\ obj_get "content-type"
       (lowercase_headers
          [("content-type"%string, "text/plain"%string);
           ("Content-TYPE"%string, "multipart/form-data"%string)])
     = Some "multipart/form-data"%string.
Proof.
  split; [cbn; tauto|].
  destruct (lowercase_headers_lookup
              [("content-type"%string, "text/plain"%string);
               ("Content-TYPE"%string, "multipart/form-data"%string)])
    as [H _].
  rewrite H. reflexivity.
Defined.

(** ** The endpoint and the editor *)

(** X18.  Whatever the endpoint answers with a status other than 200 (wrong
    method, no file, parsing failure, missing key, remote failure), the
    editor takes it as a failed request: it shows the failure notice, clears
    the processing flag, enables the controls and keeps the cutout variable
    as it was; an answer with status 200 is taken as a cutout. *)
Theorem endpoint_refusal_shows_notice (event : LambdaEvent)
    (busboy : BusboyRun) (apiKey : option string) (api : ApiResult)
    (r : Response) (calls : list ApiCall) (s s' : State) (req : nat) :
  handler event busboy apiKey api = (Resolves r, calls) ->
  step s (EvFetchSettled req (fetch_outcome r)) = Some s' ->
  (statusCode r <> 200 ->
   alerts s' = failure_notice :: alerts s
   /\ isProcessing s' = false /\ loadingHidden s' = true
   /\ blurDisabled s' = false /\ grainDisabled s' = false
   /\ downloadDisabled s' = false /\ maskImage s' = maskImage s)
  /\ (statusCode r = 200 ->
      exists file, request_file req (inFlight s) = Some file
                   /\ maskImage s' = Some (mkCutout req file)).
Proof.
  intros Hh Hs.
  assert (Hst : statusCode r = 200 /\ fetch_outcome r = ResponseOk
                \/ statusCode r <> 200 /\ fetch_outcome r = ResponseNotOk).
  { revert Hh. handler_cases event busboy apiKey api; intros [= <- <-];
      cbn; first [left; split; [reflexivity | reflexivity]
                 | right; split; [discriminate | reflexivity]]. }
  cbn [step] in Hs.
  destruct (request_file req (inFlight s)) as [file|] eqn:Er; [|discriminate].
  injection Hs as <-.
  destruct Hst as [[H200 Hok]|[Hne Hno]].
  - rewrite Hok. split; [intros Hc; contradiction|].
    intros _. exists file. split; reflexivity.
  - rewrite Hno. split; [|intros Hc; contradiction].
    intros _. cbn. repeat split.
Qed.

Lemma endpoint_refusal_shows_notice_witness :
  handler post_event (BusboyFinish editor_upload) None (ApiData [1])
  = (Resolves (mkResponse 500 [] (Text "Missing API Key configuration") false),
     [])
  /\ exists s',
       step st_awaiting
         (EvFetchSettled 0%nat
            (fetch_outcome
               (mkResponse 500 [] (Text "Missing API Key configuration") false)))
       = Some s'
       /\ alerts s' = failure_notice :: alerts st_awaiting
       /\ blurDisabled s' = false.
Proof.
  assert (H : handler post_event (BusboyFinish editor_upload) None
                (ApiData [1])
              = (Resolves (mkResponse 500 []
                             (Text "Missing API Key configuration") false),
                 [])) by reflexivity.
  split; [exact H|].
  eexists. split; [reflexivity|].
  destruct (endpoint_refusal_shows_notice _ _ _ _ _ _ st_awaiting _ 0%nat H
              eq_refl) as [Hbad _].
  destruct (Hbad ltac:(cbn; discriminate)) as (Ha & _ & _ & Hb & _).
  split; assumption.
Defined.

(** * The grain pass in binary64 *)

Lemma binary64_add_noise_cons (i : nat) (n : Q) (x : Z) (l : list Z) :
  Binary64.add_noise (S i) n (x :: l) = x :: Binary64.add_noise i n l.
Proof.
  unfold Binary64.add_noise. cbn [lookup list_lookup].
  destruct (l !! i); reflexivity.
Qed.

Lemma binary64_add_noise_app (pre l : list Z) (j : nat) (n : Q) :
  Binary64.add_noise (length pre + j) n (pre ++ l)
  = pre ++ Binary64.add_noise j n l.
Proof.
  induction pre as [|x pre IH]; [reflexivity|].
  cbn [length Nat.add app]. rewrite binary64_add_noise_cons, IH. reflexivity.
Qed.

Lemma binary64_add_noise_beyond (l : list Z) (i : nat) (n : Q) :
  (length l <= i)%nat -> Binary64.add_noise i n l = l.
Proof.
  intros H. unfold Binary64.add_noise. rewrite (lookup_ge_None_2 l i H).
  reflexivity.
Qed.

Section GrainLoop64.
Variable rand : nat -> Q.   (* the values returned by Math.random() *)
Variable st : Q.              (* the strength *)

Lemma binary64_grain_loop_beyond (fuel k i : nat) (data : list Z) :
  (length data <= i)%nat -> Binary64.grain_loop rand st fuel k i data = data.
Proof.
  intros H. destruct fuel; [reflexivity|]. cbn [Binary64.grain_loop].
  destruct (i <? length data)%nat eqn:E; [|reflexivity].
  apply Nat.ltb_lt in E. lia.
Qed.

(** The loop, run on the part of the buffer that starts at index
    [length pre], does what the pixel-by-pixel description says; the bound
    [length data] on the iterations is never what stops it. *)
Lemma binary64_grain_loop_pixels :
  forall (fuel : nat) (rest pre : list Z) (k : nat),
    (length rest <= fuel)%nat ->
    Binary64.grain_loop rand st fuel k (length pre) (pre ++ rest)
    = pre ++ Binary64.grain_pixels rand st k rest.
Proof.
  induction fuel as [|fuel IH]; intros rest pre k Hlen.
  - destruct rest; [|cbn in Hlen; lia]. reflexivity.
  - cbn [Binary64.grain_loop]. rewrite length_app.
    destruct rest as [|r rest].
    { replace (length pre <? length pre + length [])%nat with false
        by (symmetry; apply Nat.ltb_ge; cbn; lia). reflexivity. }
    replace (length pre <? length pre + length (r :: rest))%nat with true
      by (symmetry; apply Nat.ltb_lt; cbn; lia).
    set (n := round_double (round_double (rand k - (1 # 2)) * st)).
    assert (E0 : Binary64.add_noise (length pre) n (pre ++ r :: rest)
                 = pre ++ Binary64.add_noise 0 n (r :: rest)).
    { rewrite <- (binary64_add_noise_app pre _ 0). f_equal. lia. }
    rewrite E0, !binary64_add_noise_app. clear E0.
    destruct rest as [|g [|b [|a rest]]].
    + unfold Binary64.add_noise at 1 2 3.
      cbn [lookup list_lookup insert list_insert Nat.add].
      cbn [Binary64.grain_pixels map].
      apply binary64_grain_loop_beyond. rewrite length_app. cbn. lia.
    + unfold Binary64.add_noise at 1 2 3.
      cbn [lookup list_lookup insert list_insert Nat.add].
      cbn [Binary64.grain_pixels map].
      apply binary64_grain_loop_beyond. rewrite length_app. cbn. lia.
    + unfold Binary64.add_noise at 1 2 3.
      cbn [lookup list_lookup insert list_insert Nat.add].
      cbn [Binary64.grain_pixels map].
      apply binary64_grain_loop_beyond. rewrite length_app. cbn. lia.
    + unfold Binary64.add_noise at 1 2 3.
      cbn [lookup list_lookup insert list_insert Nat.add].
      cbn [Binary64.grain_pixels].
      specialize (IH rest
        (pre ++ [toUint8Clamp
                   (round_double
                      (inject_Z r + Binary64.pixel_noise rand st k));
                 toUint8Clamp
                   (round_double
                      (inject_Z g + Binary64.pixel_noise rand st k));
                 toUint8Clamp
                   (round_double
                      (inject_Z b + Binary64.pixel_noise rand st k)); a])
        (S k)).
      rewrite length_app in IH. cbn [length] in IH.
      rewrite <- !app_assoc in IH. cbn [app] in IH.
      unfold Binary64.pixel_noise in *. fold n in IH |- *.
      rewrite IH; [reflexivity|].
      cbn in Hlen. lia.
Qed.

(** Entry [i] of the result: alpha entries (index 3 modulo 4) are copied,
    every other entry is the rounded sum of the old value and the noise of
    its pixel, stored through the clamped array. *)
Lemma binary64_grain_pixels_lookup (data : list Z) :
  forall (k i : nat),
    Binary64.grain_pixels rand st k data !! i
    = match data !! i with
      | Some x =>
          Some (if (i mod 4 =? 3)%nat then x
                else toUint8Clamp
                       (round_double
                          (inject_Z x
                           + Binary64.pixel_noise rand st (k + i / 4))))
      | None => None
      end.
Proof.
  induction data as [|x|x y|x y z|r g b a rest IH] using list_ind4;
    intros k i.
  - reflexivity.
  - destruct i as [|i];
      [cbn [Binary64.grain_pixels map lookup list_lookup Nat.modulo
            Nat.div Nat.divmod Nat.eqb fst snd Nat.sub];
       rewrite Nat.add_0_r; reflexivity | reflexivity].
  - destruct i as [|[|i]];
      [cbn [Binary64.grain_pixels map lookup list_lookup Nat.modulo
            Nat.div Nat.divmod Nat.eqb fst snd Nat.sub];
       rewrite Nat.add_0_r; reflexivity .. | reflexivity].
  - destruct i as [|[|[|i]]];
      [cbn [Binary64.grain_pixels map lookup list_lookup Nat.modulo
            Nat.div Nat.divmod Nat.eqb fst snd Nat.sub];
       rewrite Nat.add_0_r; reflexivity .. | reflexivity].
  - destruct i as [|[|[|[|i]]]];
      [cbn [Binary64.grain_pixels map lookup list_lookup Nat.modulo
            Nat.div Nat.divmod Nat.eqb fst snd Nat.sub];
       rewrite ?Nat.add_0_r; reflexivity .. |].
    destruct (index_plus_4 i) as [Hm Hd]. rewrite Hm, Hd.
    cbn [Binary64.grain_pixels].
    change ((r :: g :: b :: a :: rest) !! S (S (S (S i))))
      with (rest !! i).
    match goal with
    | |- (?c1 :: ?c2 :: ?c3 :: a :: ?t) !! S (S (S (S i))) = _ =>
        change ((c1 :: c2 :: c3 :: a :: t) !! S (S (S (S i)))) with (t !! i)
    end.
    rewrite IH. replace (k + S (i / 4))%nat with (S k + i / 4)%nat by lia.
    reflexivity.
Qed.

Lemma binary64_grain_pixels_length (data : list Z) :
  forall k, length (Binary64.grain_pixels rand st k data) = length data.
Proof.
  induction data as [|x|x y|x y z|r g b a rest IH] using list_ind4;
    intros k; try reflexivity.
  cbn [Binary64.grain_pixels length]. rewrite IH. reflexivity.
Qed.

End GrainLoop64.

(** [generateGrain] is the pixel-by-pixel pass. *)
Lemma binary64_generateGrain_pixels (rand : nat -> Q) (data : list Z)
    (intensity : Z) :
  Binary64.generateGrain rand data intensity
  = Binary64.grain_pixels rand (Binary64.grain_strength intensity) 0 data.
Proof.
  unfold Binary64.generateGrain.
  apply (binary64_grain_loop_pixels rand _ (length data) data [] 0%nat). lia.
Qed.

Lemma binary64_applyGrain_off (rand : nat -> Q) (data : list Z) (g : Z) :
  g <= 0 -> Binary64.applyGrain rand data g = data.
Proof.
  intros H. unfold Binary64.applyGrain.
  destruct (0 <? g) eqn:E; [apply Z.ltb_lt in E; lia | reflexivity].
Qed.

Lemma binary64_applyGrain_lookup_color (rand : nat -> Q) (data : list Z)
    (g : Z) (i : nat) (x : Z) :
  0 < g -> (i mod 4 <> 3)%nat -> data !! i = Some x ->
  Binary64.applyGrain rand data g !! i
  = Some (toUint8Clamp
            (round_double
               (inject_Z x
                + Binary64.pixel_noise rand (Binary64.grain_strength g)
                    (i / 4)))).
Proof.
  intros Hg Hi Hx. unfold Binary64.applyGrain.
  apply Z.ltb_lt in Hg. rewrite Hg.
  rewrite binary64_generateGrain_pixels, binary64_grain_pixels_lookup, Hx.
  destruct (i mod 4 =? 3)%nat eqn:E; [apply Nat.eqb_eq in E; contradiction|].
  reflexivity.
Qed.

Lemma binary64_grain_lookup_alpha (rand : nat -> Q) (data : list Z) (g : Z)
    (i : nat) :
  (i mod 4 = 3)%nat ->
  Binary64.generateGrain rand data g !! i = data !! i
  /\ Binary64.applyGrain rand data g !! i = data !! i.
Proof.
  intros Hi.
  assert (Hgen : Binary64.generateGrain rand data g !! i = data !! i).
  { rewrite binary64_generateGrain_pixels, binary64_grain_pixels_lookup, Hi.
    cbn [Nat.eqb]. destruct (data !! i); reflexivity. }
  split; [exact Hgen|]. unfold Binary64.applyGrain. destruct (0 <? g); auto.
Qed.

Lemma binary64_applyGrain_length (rand : nat -> Q) (data : list Z) (g : Z) :
  length (Binary64.applyGrain rand data g) = length data.
Proof.
  unfold Binary64.applyGrain. destruct (0 <? g); [|reflexivity].
  rewrite binary64_generateGrain_pixels. apply binary64_grain_pixels_length.
Qed.

Lemma binary64_applyGrain_bytes (rand : nat -> Q) (data : list Z) (g : Z) :
  Forall is_byte data -> Forall is_byte (Binary64.applyGrain rand data g).
Proof.
  intros Hb. unfold Binary64.applyGrain. destruct (0 <? g); [|exact Hb].
  rewrite binary64_generateGrain_pixels.
  apply Forall_lookup_2. intros i y Hy.
  rewrite binary64_grain_pixels_lookup in Hy.
  destruct (data !! i) as [x|] eqn:E; [|discriminate].
  destruct (i mod 4 =? 3)%nat; injection Hy as <-.
  - exact (Forall_lookup_1 _ _ _ _ Hb E).
  - apply toUint8Clamp_byte.
Qed.

(** The literal [2.55] as a binary64 number. *)
Lemma literal_255 :
  round_double (255 # 100) = (2871044762448691 # 1125899906842624)%Q.
Proof. vm_compute. reflexivity. Qed.

Lemma binary64_strength_bounds (g : Z) :
  0 <= g ->
  (0 <= Binary64.grain_strength g)%Q
  /\ (Qabs (Binary64.grain_strength g - inject_Z g * (255 # 100))
      <= inject_Z g * (1 # 2 ^ 50))%Q.
Proof.
  intros Hg. unfold Binary64.grain_strength. rewrite literal_255.
  assert (HG : (0 <= inject_Z g)%Q).
  { change 0%Q with (inject_Z 0). rewrite <- Zle_Qle. exact Hg. }
  assert (Hp : (0 <= inject_Z g * (2871044762448691 # 1125899906842624))%Q)
    by (apply Qmult_le_0_compat; [exact HG | discriminate]).
  destruct (round_double_error _ Hp) as [Hlo Hhi].
  unfold half_ulp_ratio in Hlo, Hhi.
  pose proof (round_double_nonneg _ Hp) as Hs.
  split; [exact Hs|].
  apply Qabs_Qle_condition.
  change (1 # 2 ^ 50)%Q with (1 # 1125899906842624)%Q. split; lra.
Qed.

(** A draw in [0,1) gives a noise between minus and plus half the
    strength, ends included. *)
Lemma binary64_noise_in_range (rand : nat -> Q) (g : Z) (k : nat) :
  (0 <= rand k)%Q -> (rand k < 1)%Q -> 0 <= g ->
  (- (Binary64.grain_strength g / 2)
   <= Binary64.pixel_noise rand (Binary64.grain_strength g) k)%Q
  /\ (Binary64.pixel_noise rand (Binary64.grain_strength g) k
      <= Binary64.grain_strength g / 2)%Q.
Proof.
  intros H0 H1 Hg.
  destruct (binary64_strength_bounds g Hg) as [Hs _].
  assert (Hfix : (round_double (Binary64.grain_strength g)
                  == Binary64.grain_strength g)%Q)
    by (unfold Binary64.grain_strength; apply round_double_idem).
  pose proof (round_double_half_pos _ Hs Hfix) as Hhalf.
  set (s := Binary64.grain_strength g) in *.
  assert (Hu1 : (round_double (rand k - (1 # 2)) <= 1 # 2)%Q).
  { change (1 # 2)%Q with (round_double (1 # 2)) at 2.
    apply round_double_mono. lra. }
  assert (Hu0 : (- (1 # 2) <= round_double (rand k - (1 # 2)))%Q).
  { change (- (1 # 2))%Q with (round_double (- (1 # 2))).
    apply round_double_mono. lra. }
  set (u := round_double (rand k - (1 # 2))) in *.
  assert (Eh : (s / 2 == (1 # 2) * s)%Q) by field.
  assert (Hp1 : (u * s <= s / 2)%Q).
  { rewrite Eh. apply Qmult_le_compat_r; assumption. }
  assert (Hp0 : (- (s / 2) <= u * s)%Q).
  { assert (E : (- (s / 2) == - (1 # 2) * s)%Q) by field.
    rewrite E. apply Qmult_le_compat_r; assumption. }
  unfold Binary64.pixel_noise. fold u. split.
  - rewrite <- Hhalf, <- round_double_opp.
    apply round_double_mono. exact Hp0.
  - rewrite <- Hhalf. apply round_double_mono. exact Hp1.
Qed.

(** With intensity 0 the loop itself, were it called, would store every
    byte back unchanged. *)
Lemma binary64_generateGrain_zero (rand : nat -> Q) (data : list Z) :
  Forall is_byte data -> Binary64.generateGrain rand data 0 = data.
Proof.
  intros Hb. rewrite binary64_generateGrain_pixels.
  apply list_eq. intros i. rewrite binary64_grain_pixels_lookup.
  destruct (data !! i) as [x|] eqn:E; [|reflexivity].
  destruct (i mod 4 =? 3)%nat; [reflexivity|]. f_equal.
  assert (Hx : is_byte x) by (eapply Forall_lookup_1; eauto).
  assert (Hs : Binary64.grain_strength 0 = 0%Q) by reflexivity.
  rewrite Hs.
  assert (Hn : (Binary64.pixel_noise rand 0 (0 + i / 4) == 0)%Q).
  { unfold Binary64.pixel_noise.
    rewrite (round_double_zero (round_double _ * 0)) by ring. reflexivity. }
  assert (Hsum : (round_double
                    (inject_Z x + Binary64.pixel_noise rand 0 (0 + i / 4))
                  == inject_Z x + 0)%Q).
  { rewrite (round_double_comp _ (inject_Z x)) by (rewrite Hn; ring).
    rewrite round_double_inject_Z; [ring|].
    destruct Hx. change (2 ^ 53) with 9007199254740992. lia. }
  rewrite (toUint8Clamp_comp _ _ Hsum).
  apply toUint8Clamp_byte_id. exact Hx.
Qed.

(** C6.  For an intensity g > 0 the strength is the binary64 product of g
    and 2.55, within g * 2^-50 of g * 2.55; every pixel gets one noise
    value, computed from its own draw, which lies between -strength/2 and
    +strength/2 and is added to its red, green and blue entries alike, the
    alpha entry being kept; for g = 0 the pass leaves the buffer as it
    is. *)
Theorem grain_one_noise_per_pixel (rand : nat -> Q) (data : list Z)
    (g : Z) :
  (forall k, (0 <= rand k)%Q /\ (rand k < 1)%Q) ->
  (0 < g <= MAX_SAFE_INTEGER ->
   (Qabs (Binary64.grain_strength g - inject_Z g * (255 # 100))
    <= inject_Z g * (1 # 2 ^ 50))%Q
   /\ forall (j : nat) (r gr b a : Z),
       data !! (4 * j)%nat = Some r ->
       data !! (4 * j + 1)%nat = Some gr ->
       data !! (4 * j + 2)%nat = Some b ->
       data !! (4 * j + 3)%nat = Some a ->
       let strength := Binary64.grain_strength g in
       let noise := Binary64.pixel_noise rand strength j in
       (- (strength / 2) <= noise)%Q /\ (noise <= strength / 2)%Q
       /\ Binary64.applyGrain rand data g !! (4 * j)%nat
          = Some (toUint8Clamp (round_double (inject_Z r + noise)))
       /\ Binary64.applyGrain rand data g !! (4 * j + 1)%nat
          = Some (toUint8Clamp (round_double (inject_Z gr + noise)))
       /\ Binary64.applyGrain rand data g !! (4 * j + 2)%nat
          = Some (toUint8Clamp (round_double (inject_Z b + noise)))
       /\ Binary64.applyGrain rand data g !! (4 * j + 3)%nat = Some a)
  /\ (g = 0 -> Binary64.applyGrain rand data g = data).
Proof.
  intros Hrand. split.
  - intros [Hg _].
    split; [apply binary64_strength_bounds; lia|].
    intros j r gr b a Hr Hgr Hb Ha strength noise.
    destruct (Hrand j) as [H0 H1].
    destruct (binary64_noise_in_range rand g j H0 H1 ltac:(lia)) as [Hlo Hhi].
    split; [exact Hlo|]. split; [exact Hhi|].
    destruct (pixel_index j 0 ltac:(lia)) as [Hm0 Hd0].
    destruct (pixel_index j 1 ltac:(lia)) as [Hm1 Hd1].
    destruct (pixel_index j 2 ltac:(lia)) as [Hm2 Hd2].
    destruct (pixel_index j 3 ltac:(lia)) as [Hm3 Hd3].
    rewrite Nat.add_0_r in Hm0, Hd0.
    split; [|split; [|split]].
    + rewrite (binary64_applyGrain_lookup_color rand data g _ r Hg) by
        (congruence || (rewrite Hm0; lia)).
      rewrite Hd0. reflexivity.
    + rewrite (binary64_applyGrain_lookup_color rand data g _ gr Hg) by
        (congruence || (rewrite Hm1; lia)).
      rewrite Hd1. reflexivity.
    + rewrite (binary64_applyGrain_lookup_color rand data g _ b Hg) by
        (congruence || (rewrite Hm2; lia)).
      rewrite Hd2. reflexivity.
    + destruct (binary64_grain_lookup_alpha rand data g (4 * j + 3) Hm3)
        as [_ E].
      rewrite E. exact Ha.
  - intros ->. apply binary64_applyGrain_off. lia.
Qed.

Lemma grain_one_noise_per_pixel_witness :
  (forall k, (0 <= quarter k)%Q /\ (quarter k < 1)%Q)
  /\ 0 < 50 <= MAX_SAFE_INTEGER
  /\ Binary64.grain_strength 50 = (8972014882652159 # 70368744177664)%Q
  /\ Binary64.applyGrain quarter two_pixels 50
     = [0; 0; 0; 255; 218; 0; 96; 7]
  /\ Binary64.applyGrain quarter two_pixels 50 !! 4%nat
     = Some (toUint8Clamp
               (round_double
                  (inject_Z 250
                   + Binary64.pixel_noise quarter
                       (Binary64.grain_strength 50) 1)))
  /\ Binary64.applyGrain quarter two_pixels 50 !! 6%nat
     = Some (toUint8Clamp
               (round_double
                  (inject_Z 128
                   + Binary64.pixel_noise quarter
                       (Binary64.grain_strength 50) 1))).
Proof.
  assert (Hb : 0 < 50 <= MAX_SAFE_INTEGER) by (unfold MAX_SAFE_INTEGER; lia).
  split; [exact quarter_unit|]. split; [exact Hb|].
  split; [vm_compute; reflexivity|]. split; [vm_compute; reflexivity|].
  destruct (grain_one_noise_per_pixel quarter two_pixels 50 quarter_unit)
    as [Hpos _].
  destruct (Hpos Hb) as [_ Hpix].
  destruct (Hpix 1%nat 250 0 128 7 eq_refl eq_refl eq_refl eq_refl)
    as (_ & _ & Hr & _ & Hbl & _).
  split; [exact Hr | exact Hbl].
Defined.

(** The rounding of the arithmetic shows in the bytes: with intensity 50, a
    byte 100 and the draw 4326987877277535 / 2^53 the script computes the sum
    97.5 and stores 98, while the exact sum is below 97.5 and would be stored
    as 97. *)
Example rounding_decides_byte :
  Binary64.applyGrain tie_draw flat_pixel 50 = [98; 98; 98; 255]
  /\ applyGrain tie_draw flat_pixel 50 = [97; 97; 97; 255]
  /\ round_double
       (inject_Z 100
        + Binary64.pixel_noise tie_draw (Binary64.grain_strength 50) 0)
     = (195 # 2)%Q.
Proof. repeat split; vm_compute; reflexivity. Qed.

(** C10.  Every colour entry stored by the grain pass is the sum of the old
    value and the noise of its pixel, as the script computes it, clamped to
    0..255 and rounded to the nearest integer: 255 when the sum is 255 or
    more, 0 when it is 0 or less, and within 1/2 of the sum otherwise, so it
    never wraps around; at every intensity a buffer of bytes stays a buffer
    of bytes. *)
Theorem grain_stores_saturated (rand : nat -> Q) (data : list Z) (g : Z) :
  (0 < g <= MAX_SAFE_INTEGER ->
   forall (i : nat) (x : Z),
     (i mod 4 <> 3)%nat -> data !! i = Some x ->
     let v := round_double
                (inject_Z x
                 + Binary64.pixel_noise rand (Binary64.grain_strength g)
                     (i / 4)) in
     Binary64.applyGrain rand data g !! i = Some (toUint8Clamp v)
     /\ is_byte (toUint8Clamp v)
     /\ ((255 <= v)%Q -> toUint8Clamp v = 255)
     /\ ((v <= 0)%Q -> toUint8Clamp v = 0)
     /\ ((0 <= v <= 255)%Q ->
         (inject_Z (toUint8Clamp v) - (1 # 2) <= v
          /\ v <= inject_Z (toUint8Clamp v) + (1 # 2))%Q))
  /\ (Forall is_byte data -> Forall is_byte (Binary64.applyGrain rand data g)).
Proof.
  split; [|apply binary64_applyGrain_bytes].
  intros [Hg _] i x Hi Hx v.
  destruct (toUint8Clamp_saturates v) as (H0 & H255 & Hnear).
  split; [apply binary64_applyGrain_lookup_color; assumption|].
  split; [apply toUint8Clamp_byte|]. auto.
Qed.

Lemma grain_stores_saturated_witness :
  0 < 50 <= MAX_SAFE_INTEGER
  /\ (0 mod 4 <> 3)%nat /\ two_pixels !! 0%nat = Some 10
  /\ (round_double
        (inject_Z 10
         + Binary64.pixel_noise quarter (Binary64.grain_strength 50) 0)
      <= 0)%Q
  /\ Binary64.applyGrain quarter two_pixels 50 !! 0%nat = Some 0.
Proof.
  assert (Hb : 0 < 50 <= MAX_SAFE_INTEGER) by (unfold MAX_SAFE_INTEGER; lia).
  assert (Hneg : (round_double
                    (inject_Z 10
                     + Binary64.pixel_noise quarter
                         (Binary64.grain_strength 50) 0) <= 0)%Q)
    by (vm_compute; discriminate).
  split; [exact Hb|]. split; [cbn; lia|]. split; [reflexivity|].
  split; [exact Hneg|].
  destruct (grain_stores_saturated quarter two_pixels 50) as [Hpos _].
  destruct (Hpos Hb 0%nat 10 ltac:(cbn; lia) eq_refl)
    as (Hst & _ & _ & Hlow & _).
  rewrite Hst, (Hlow Hneg). reflexivity.
Defined.
